(** * Lateral path-tracking controllers: Pure Pursuit, Stanley and their hybrid

    A shallow embedding of [pure_pursuit.py], [stanley.py] and
    [hybrid_controller.py].  Python floats are idealised as real numbers
    ([R]); [float('inf')] is kept as a separate value.  Python exceptions are
    values of [exn], and the mutable [HybridController] object is threaded
    through [run_step] as explicit state. *)

From Stdlib Require Import Reals Lra Lia List ZArith String Bool.
Import ListNotations.
Open Scope R_scope.

(** ** Results and exceptions *)

Inductive exn : Type :=
| IndexError
| AttributeError
| ZeroDivisionError.

Inductive result (A : Type) : Type :=
| Ok (a : A)
| Raise (e : exn).
Arguments Ok {A} a.
Arguments Raise {A} e.

Class Monad (m : Type -> Type) : Type := {
  ret : forall {A : Type}, A -> m A;
  bind : forall {A B : Type}, m A -> (A -> m B) -> m B
}.

Notation "x <- c ;; k" := (bind c (fun x => k))
  (at level 61, c at next level, right associativity).
Notation "' pat <- c ;; k" := (bind c (fun x => match x with pat => k end))
  (at level 61, pat pattern, c at next level, right associativity).
Notation "c ;; k" := (bind c (fun _ => k))
  (at level 61, right associativity).

#[global] Instance result_Monad : Monad result := {
  ret := fun A a => Ok a;
  bind := fun A B c k => match c with Ok a => k a | Raise e => Raise e end
}.

(** ** The Python built-ins the controllers use *)

Module Py.

(** A float that may be [float('inf')], the initial value of the running
    minimum in the closest-waypoint loops. *)
Inductive efloat : Type :=
| Inf
| Fin (r : R).

(** [d < m] for a finite [d]. *)
Definition lt (d : R) (m : efloat) : bool :=
  match m with
  | Inf => true
  | Fin r => if Rlt_dec d r then true else false
  end.

Definition len {A : Type} (l : list A) : Z := Z.of_nat (List.length l).

(** [l[i]]: negative indices count from the end, anything outside
    [-len, len) raises [IndexError]. *)
Definition getitem {A : Type} (l : list A) (i : Z) : result A :=
  let j := if (i <? 0)%Z then (i + len l)%Z else i in
  if ((0 <=? j) && (j <? len l))%Z then
    match nth_error l (Z.to_nat j) with
    | Some a => Ok a
    | None => Raise IndexError
    end
  else Raise IndexError.

(** [range(a, b)]. *)
Definition range (a b : Z) : list Z :=
  map (fun k => (a + Z.of_nat k)%Z) (seq 0 (Z.to_nat (b - a))).

(** [enumerate(l)], counting from [i]. *)
Fixpoint enumerate_from {A : Type} (i : Z) (l : list A) : list (Z * A) :=
  match l with
  | [] => []
  | a :: l' => (i, a) :: enumerate_from (i + 1)%Z l'
  end.

Definition enumerate {A : Type} (l : list A) : list (Z * A) :=
  enumerate_from 0%Z l.

(** Attribute access on a value that may be [None]. *)
Definition attr {A : Type} (o : option A) : result A :=
  match o with
  | Some a => Ok a
  | None => Raise AttributeError
  end.

End Py.

(** ** The numpy functions the controllers use, on reals *)

Module Np.

Definition radians (deg : R) : R := deg * (PI / 180).

(** [np.clip(a, lo, hi)] is [minimum(maximum(a, lo), hi)]. *)
Definition clip (a lo hi : R) : R := Rmin (Rmax a lo) hi.

(** [np.arctan2(y, x)]: the angle of the point [(x, y)], in (-pi, pi]. *)
Definition arctan2 (y x : R) : R :=
  if Rlt_dec 0 x then atan (y / x)
  else if Rlt_dec x 0 then
    (if Rle_dec 0 y then atan (y / x) + PI else atan (y / x) - PI)
  else if Rlt_dec 0 y then PI / 2
  else if Rlt_dec y 0 then - (PI / 2)
  else 0.

(** [np.diff(a)]: [a[i+1] - a[i]]. *)
Fixpoint diff (a : list R) : list R :=
  match a with
  | a0 :: ((a1 :: _) as rest) => (a1 - a0) :: diff rest
  | _ => []
  end.

Definition sum (a : list R) : R := fold_left Rplus a 0.

(** Element-wise application of a binary function to two arrays. *)
Definition map2 (f : R -> R -> R) (a b : list R) : list R :=
  map (fun p => f (fst p) (snd p)) (combine a b).

End Np.

(** ** The CARLA types the controllers read and build *)

Module carla.

Record Vector3D : Type := mkVector3D { x : R; y : R; z : R }.

(** [carla.Location] is a [Vector3D] with a [distance] method. *)
Definition Location : Type := Vector3D.

Definition distance (a b : Location) : R :=
  sqrt ((x b - x a) ^ 2 + (y b - y a) ^ 2 + (z b - z a) ^ 2).

(** Only [yaw] (in degrees) is read by the controllers. *)
Record Rotation : Type := mkRotation { yaw : R }.

Record Transform : Type := mkTransform {
  location : Location;
  rotation : Rotation
}.

Record Waypoint : Type := mkWaypoint { transform : Transform }.

(** A vehicle actor, as far as [get_transform()] and [get_velocity()]
    describe it. *)
Record Vehicle : Type := mkVehicle {
  get_transform : Transform;
  get_velocity : Vector3D
}.

Record VehicleControl : Type := mkVehicleControl {
  throttle : R;
  steer : R;
  brake : R;
  hand_brake : bool;
  manual_gear_shift : bool
}.

End carla.
Import carla.

(** The closest-waypoint loop, written three times in the source
    ([pure_pursuit.py] 45-53, [stanley.py] 41-50, [hybrid_controller.py]
    69-76).  The loop state is [(min_distance, closest_waypoint, closest_idx)];
    the two copies that do not track the waypoint itself ignore the middle
    component. *)
Fixpoint closest_loop (vehicle_location : Location)
    (ws : list (Z * Waypoint))
    (min_distance : Py.efloat) (closest_waypoint : option Waypoint)
    (closest_idx : Z) : Py.efloat * option Waypoint * Z :=
  match ws with
  | [] => (min_distance, closest_waypoint, closest_idx)
  | (i, waypoint) :: rest =>
      let distance :=
        distance vehicle_location (location (transform waypoint)) in
      if Py.lt distance min_distance
      then closest_loop vehicle_location rest
             (Py.Fin distance) (Some waypoint) i
      else closest_loop vehicle_location rest
             min_distance closest_waypoint closest_idx
  end.

(** ** [pure_pursuit.py] *)

Module PurePursuitController.

Record t : Type := mk {
  lookahead_distance : R;
  wheelbase : R;
  target_speed : R
}.

(** [__init__], with its defaults [lookahead_distance=3.0],
    [wheelbase=2.875]. *)
Definition init (lookahead_distance wheelbase : R) : t :=
  mk lookahead_distance wheelbase 30.0.

(** The forward search loop of [find_lookahead_point]; [Ok None] when the
    loop ends without returning. *)
Fixpoint forward_search (self : t) (vehicle_location : Location)
    (waypoints : list Waypoint) (idxs : list Z) : result (option Location) :=
  match idxs with
  | [] => Ok None
  | i :: rest =>
      waypoint <- Py.getitem waypoints i ;;
      let distance :=
        distance vehicle_location (location (transform waypoint)) in
      if Rge_dec distance (lookahead_distance self)
      then Ok (Some (location (transform waypoint)))
      else forward_search self vehicle_location waypoints rest
  end.

(** The result is an optional location because [run_step] tests it against
    [None]; no [return] of the function produces [None].  The local
    [vehicle_yaw] of the source is computed and never read. *)
Definition find_lookahead_point (self : t) (vehicle_location : Location)
    (vehicle_transform : Transform) (waypoints : list Waypoint)
    : result (option Location) :=
  let '(_, _, closest_waypoint_idx) :=
    closest_loop vehicle_location (Py.enumerate waypoints) Py.Inf None 0%Z in
  found <- forward_search self vehicle_location waypoints
             (Py.range closest_waypoint_idx
                (Z.min (closest_waypoint_idx + 50) (Py.len waypoints))) ;;
  match found with
  | Some l => Ok (Some l)
  | None =>
      if (closest_waypoint_idx + 30 <? Py.len waypoints)%Z
      then w <- Py.getitem waypoints (closest_waypoint_idx + 30)%Z ;;
           Ok (Some (location (transform w)))
      else w <- Py.getitem waypoints (-1)%Z ;;
           Ok (Some (location (transform w)))
  end.

Definition compute_steering (self : t) (vehicle_transform : Transform)
    (target_location : Location) : R :=
  let vehicle_location := location vehicle_transform in
  let vehicle_yaw := Np.radians (yaw (rotation vehicle_transform)) in
  let dx := x target_location - x vehicle_location in
  let dy := y target_location - y vehicle_location in
  let local_x := dx * cos vehicle_yaw + dy * sin vehicle_yaw in
  let local_y := - dx * sin vehicle_yaw + dy * cos vehicle_yaw in
  let ld_squared := local_x ^ 2 + local_y ^ 2 in
  let curvature :=
    if Rgt_dec ld_squared 0.01 then 2.0 * local_y / ld_squared else 0.0 in
  let steering_angle := atan (curvature * wheelbase self) in
  let max_steering_angle := Np.radians 70 in
  Np.clip (steering_angle / max_steering_angle) (-1.0) 1.0.

Definition get_speed (vehicle : Vehicle) : R :=
  let velocity := get_velocity vehicle in
  sqrt (x velocity ^ 2 + y velocity ^ 2 + z velocity ^ 2).

Definition run_step (self : t) (vehicle : Vehicle)
    (waypoints : list Waypoint) : result VehicleControl :=
  let vehicle_transform := get_transform vehicle in
  let vehicle_location := location vehicle_transform in
  target_location <-
    find_lookahead_point self vehicle_location vehicle_transform waypoints ;;
  match target_location with
  | None => Ok (mkVehicleControl 0.0 0.0 1.0 false false)
  | Some target_location =>
      let steering := compute_steering self vehicle_transform target_location in
      let current_speed := get_speed vehicle in
      let '(throttle, brake) :=
        if Rlt_dec current_speed (target_speed self / 3.6)
        then (0.5, 0.0) else (0.0, 0.3) in
      Ok (mkVehicleControl throttle steering brake false false)
  end.

End PurePursuitController.

(** ** [stanley.py] *)

Module StanleyController.

Record t : Type := mk {
  k : R;
  wheelbase : R;
  target_speed : R
}.

(** [__init__], with its defaults [k=1.0], [wheelbase=2.875]. *)
Definition init (k wheelbase : R) : t := mk k wheelbase 30.0.

(** Returns [(closest_waypoint, closest_idx, min_distance)]; the function
    has no [raise] and indexes nothing, so it always returns normally. *)
Definition find_closest_waypoint (self : t) (vehicle_location : Location)
    (waypoints : list Waypoint)
    : result (option Waypoint * Z * Py.efloat) :=
  let '(min_distance, closest_waypoint, closest_idx) :=
    closest_loop vehicle_location (Py.enumerate waypoints) Py.Inf None 0%Z in
  Ok (closest_waypoint, closest_idx, min_distance).

Definition compute_cross_track_error (self : t)
    (vehicle_transform : Transform) (closest_waypoint : option Waypoint)
    : result R :=
  let vehicle_location := location vehicle_transform in
  let vehicle_yaw := Np.radians (yaw (rotation vehicle_transform)) in
  closest_waypoint <- Py.attr closest_waypoint ;;
  let waypoint_location := location (transform closest_waypoint) in
  let dx := x waypoint_location - x vehicle_location in
  let dy := y waypoint_location - y vehicle_location in
  let cross_track_error := - dx * sin vehicle_yaw + dy * cos vehicle_yaw in
  Ok cross_track_error.

Definition compute_heading_error (self : t) (vehicle_transform : Transform)
    (closest_waypoint next_waypoint : option Waypoint) : result R :=
  let vehicle_yaw := Np.radians (yaw (rotation vehicle_transform)) in
  path_yaw <-
    match next_waypoint with
    | Some next_waypoint =>
        closest_waypoint <- Py.attr closest_waypoint ;;
        let dx := x (location (transform next_waypoint))
                  - x (location (transform closest_waypoint)) in
        let dy := y (location (transform next_waypoint))
                  - y (location (transform closest_waypoint)) in
        Ok (Np.arctan2 dy dx)
    | None =>
        closest_waypoint <- Py.attr closest_waypoint ;;
        Ok (Np.radians (yaw (rotation (transform closest_waypoint))))
    end ;;
  let heading_error := path_yaw - vehicle_yaw in
  let heading_error := Np.arctan2 (sin heading_error) (cos heading_error) in
  Ok heading_error.

(** Lines 124-151 of [compute_steering]: the value of the local
    [steering_angle], before it is normalised. *)
Definition steering_angle (self : t) (vehicle_transform : Transform)
    (vehicle_speed : R) (waypoints : list Waypoint) : result R :=
  let vehicle_location := location vehicle_transform in
  '(closest_waypoint, closest_idx, _) <-
    find_closest_waypoint self vehicle_location waypoints ;;
  next_waypoint <-
    (if (closest_idx + 1 <? Py.len waypoints)%Z
     then w <- Py.getitem waypoints (closest_idx + 1)%Z ;; Ok (Some w)
     else Ok None) ;;
  heading_error <-
    compute_heading_error self vehicle_transform
      closest_waypoint next_waypoint ;;
  cross_track_error <-
    compute_cross_track_error self vehicle_transform closest_waypoint ;;
  let speed := Rmax vehicle_speed 0.1 in
  let cross_track_term := atan (k self * cross_track_error / speed) in
  Ok (heading_error + cross_track_term).

(** Lines 153-157: normalisation and clipping of [steering_angle]. *)
Definition compute_steering (self : t) (vehicle_transform : Transform)
    (vehicle_speed : R) (waypoints : list Waypoint) : result R :=
  steering_angle <-
    steering_angle self vehicle_transform vehicle_speed waypoints ;;
  let max_steering_angle := Np.radians 70 in
  let normalized_steering :=
    Np.clip (steering_angle / max_steering_angle) (-1.0) 1.0 in
  Ok normalized_steering.

Definition get_speed (vehicle : Vehicle) : R :=
  let velocity := get_velocity vehicle in
  sqrt (x velocity ^ 2 + y velocity ^ 2 + z velocity ^ 2).

Definition run_step (self : t) (vehicle : Vehicle)
    (waypoints : list Waypoint) : result VehicleControl :=
  let vehicle_transform := get_transform vehicle in
  let vehicle_speed := get_speed vehicle in
  steering <- compute_steering self vehicle_transform vehicle_speed waypoints ;;
  let '(throttle, brake) :=
    if Rlt_dec vehicle_speed (target_speed self / 3.6)
    then (0.5, 0.0) else (0.0, 0.3) in
  Ok (mkVehicleControl throttle steering brake false false).

End StanleyController.

(** ** [hybrid_controller.py] *)

Module HybridController.

Module PP := PurePursuitController.
Module St := StanleyController.

Record t : Type := mk {
  pure_pursuit : PP.t;
  stanley : St.t;
  curvature_threshold : R;
  blend_zone : R;
  mode : string;
  speed_adaptive : bool;
  active_controller : string;
  blend_weight : R;
  current_curvature : R
}.

(** [__init__]: both trackers are built with their default wheelbase. *)
Definition init (pp_lookahead stanley_k curvature_threshold blend_zone : R)
    (mode : string) : t :=
  mk (PP.init pp_lookahead 2.875) (St.init stanley_k 2.875)
     curvature_threshold blend_zone mode true "Hybrid" 0.5 0.0.

(** Assignments to the attributes [run_step] writes. *)
Definition set_current_curvature (c : R) (self : t) : t :=
  mk (pure_pursuit self) (stanley self) (curvature_threshold self)
     (blend_zone self) (mode self) (speed_adaptive self)
     (active_controller self) (blend_weight self) c.

Definition set_blend_weight (w : R) (self : t) : t :=
  mk (pure_pursuit self) (stanley self) (curvature_threshold self)
     (blend_zone self) (mode self) (speed_adaptive self)
     (active_controller self) w (current_curvature self).

Definition set_active_controller (a : string) (self : t) : t :=
  mk (pure_pursuit self) (stanley self) (curvature_threshold self)
     (blend_zone self) (mode self) (speed_adaptive self)
     a (blend_weight self) (current_curvature self).

Definition set_pp_lookahead_distance (d : R) (self : t) : t :=
  mk (PP.mk d (PP.wheelbase (pure_pursuit self))
            (PP.target_speed (pure_pursuit self)))
     (stanley self) (curvature_threshold self)
     (blend_zone self) (mode self) (speed_adaptive self)
     (active_controller self) (blend_weight self) (current_curvature self).

Definition set_stanley_k (g : R) (self : t) : t :=
  mk (pure_pursuit self)
     (St.mk g (St.wheelbase (stanley self)) (St.target_speed (stanley self)))
     (curvature_threshold self)
     (blend_zone self) (mode self) (speed_adaptive self)
     (active_controller self) (blend_weight self) (current_curvature self).

(** Computations that read and write the controller object and may raise.
    The object is returned also when an exception is raised: assignments
    made before the exception stay. *)
Definition M (A : Type) : Type := t -> result A * t.

#[global] Instance M_Monad : Monad M := {
  ret := fun A a self => (Ok a, self);
  bind := fun A B c k self =>
    match c self with
    | (Ok a, self') => k a self'
    | (Raise e, self') => (Raise e, self')
    end
}.

Definition get : M t := fun self => (Ok self, self).
Definition assign (f : t -> t) : M unit := fun self => (Ok tt, f self).
Definition lift {A : Type} (r : result A) : M A := fun self => (r, self).

(** The extraction loop of [estimate_path_curvature] (lines 85-88). *)
Fixpoint collect_points (waypoints : list Waypoint) (idxs : list Z)
    (points : list (R * R)) : result (list (R * R)) :=
  match idxs with
  | [] => Ok points
  | i :: rest =>
      w <- Py.getitem waypoints i ;;
      let wp := location (transform w) in
      collect_points waypoints rest (points ++ [(x wp, y wp)])
  end.

Definition estimate_path_curvature (vehicle_location : Location)
    (waypoints : list Waypoint) (lookahead_points : Z) : result R :=
  let '(_, _, closest_idx) :=
    closest_loop vehicle_location (Py.enumerate waypoints) Py.Inf None 0%Z in
  let end_idx :=
    Z.min (closest_idx + lookahead_points) (Py.len waypoints - 1) in
  if (end_idx - closest_idx <? 3)%Z then Ok 0.0
  else
    points <- collect_points waypoints (Py.range closest_idx end_idx) [] ;;
    if (Py.len points <? 3)%Z then Ok 0.0
    else
      let dx := Np.diff (map fst points) in
      let dy := Np.diff (map snd points) in
      let headings := Np.map2 Np.arctan2 dy dx in
      if (Py.len headings >? 1)%Z then
        let heading_change := map Rabs (Np.diff headings) in
        let heading_change :=
          map (fun h => Np.arctan2 (sin h) (cos h)) heading_change in
        let distances :=
          Np.map2 (fun a b => sqrt (a ^ 2 + b ^ 2))
                  (removelast dx) (removelast dy) in
        let total_distance := Np.sum distances in
        if Rgt_dec total_distance 0.1
        then Ok (Np.sum (map Rabs heading_change) / total_distance)
        else Ok 0.0
      else Ok 0.0.

(** The only division of the module whose divisor is not guarded:
    [2 * self.blend_zone].  With [blend_zone = 0] line 141 is reached when
    the curvature equals the threshold, and divides 0 by 0.  Python floats
    (the estimate's [return 0.0]) raise [ZeroDivisionError]; a
    [numpy.float64] estimate (line 113) gives [nan] instead, and [run_step]
    then returns a command whose steering is [nan] and records [nan] as
    blend weight.  The reals hold no [nan]: the division by zero is an
    exception here in both cases, and the statements on the steering
    returned and the weight recorded in blending mode leave this case
    out. *)
Definition divide (a b : R) : result R :=
  if Req_dec_T b 0 then Raise ZeroDivisionError else Ok (a / b).

Definition compute_blend_weight (self : t) (curvature : R)
    (speed : option R) : result R :=
  weight <-
    (if Rlt_dec curvature (curvature_threshold self - blend_zone self)
     then Ok 0.0
     else if Rgt_dec curvature (curvature_threshold self + blend_zone self)
     then Ok 1.0
     else
       weight <- divide
         (curvature - (curvature_threshold self - blend_zone self))
         (2 * blend_zone self) ;;
       Ok (Np.clip weight 0.0 1.0)) ;;
  match speed_adaptive self, speed with
  | true, Some speed =>
      let speed_factor := Np.clip (speed / 15.0) 0.0 1.0 in
      Ok (weight * (1.0 - 0.3 * speed_factor))
  | _, _ => Ok weight
  end.

Definition adaptive_lookahead (speed : R) : R :=
  let base_lookahead := 2.0 in
  let speed_factor := 0.3 in
  let max_lookahead := 6.0 in
  let lookahead := base_lookahead + speed * speed_factor in
  Rmin lookahead max_lookahead.

Definition adaptive_stanley_gain (speed : R) : R :=
  if Rlt_dec speed 5.0 then 1.0
  else if Rlt_dec speed 10.0 then 0.7
  else 0.5.

Definition get_speed (vehicle : Vehicle) : R :=
  let velocity := get_velocity vehicle in
  sqrt (x velocity ^ 2 + y velocity ^ 2 + z velocity ^ 2).

(** The decision of the adaptive branch (lines 259-265). *)
Definition use_stanley (self : t) (curvature vehicle_speed : R) : bool :=
  if Rgt_dec curvature (curvature_threshold self + blend_zone self) then true
  else if Rgt_dec curvature (curvature_threshold self)
  then (if Rlt_dec vehicle_speed 8.0 then true else false)
  else false.

(** The label chosen after blending (lines 243-248). *)
Definition blended_label (weight : R) : string :=
  if Rlt_dec weight 0.3 then "Pure Pursuit (blended)"
  else if Rgt_dec weight 0.7 then "Stanley (blended)"
  else "Hybrid (50/50)".

Definition run_step (vehicle : Vehicle) (waypoints : list Waypoint)
    : M VehicleControl :=
  let vehicle_transform := get_transform vehicle in
  let vehicle_location := location vehicle_transform in
  let vehicle_speed := get_speed vehicle in
  curvature <- lift (estimate_path_curvature vehicle_location waypoints 10) ;;
  assign (set_current_curvature curvature) ;;
  self <- get ;;
  (if speed_adaptive self
   then assign (set_pp_lookahead_distance (adaptive_lookahead vehicle_speed)) ;;
        assign (set_stanley_k (adaptive_stanley_gain vehicle_speed))
   else ret tt) ;;
  self <- get ;;
  if (mode self =? "switching")%string then
    if Rgt_dec curvature (curvature_threshold self)
    then assign (set_active_controller "Stanley") ;;
         lift (St.run_step (stanley self) vehicle waypoints)
    else assign (set_active_controller "Pure Pursuit") ;;
         lift (PP.run_step (pure_pursuit self) vehicle waypoints)
  else if (mode self =? "blending")%string then
    pp_control <- lift (PP.run_step (pure_pursuit self) vehicle waypoints) ;;
    stanley_control <- lift (St.run_step (stanley self) vehicle waypoints) ;;
    weight <- lift (compute_blend_weight self curvature (Some vehicle_speed)) ;;
    assign (set_blend_weight weight) ;;
    let blended_steering :=
      (1 - weight) * steer pp_control + weight * steer stanley_control in
    let control :=
      mkVehicleControl (throttle pp_control)
                       (Np.clip blended_steering (-1.0) 1.0)
                       (brake pp_control) false false in
    assign (set_active_controller (blended_label weight)) ;;
    ret control
  else
    if use_stanley self curvature vehicle_speed
    then assign (set_active_controller "Stanley") ;;
         assign (set_blend_weight 1.0) ;;
         lift (St.run_step (stanley self) vehicle waypoints)
    else assign (set_active_controller "Pure Pursuit") ;;
         assign (set_blend_weight 0.0) ;;
         lift (PP.run_step (pure_pursuit self) vehicle waypoints).

(** The dictionary returned by [get_controller_info], one field per key. *)
Record controller_info : Type := mk_info {
  info_active_controller : string;
  info_blend_weight : R;
  info_curvature : R;
  info_pp_lookahead : R;
  info_stanley_k : R
}.

Definition get_controller_info (self : t) : controller_info :=
  mk_info (active_controller self) (blend_weight self)
          (current_curvature self)
          (PP.lookahead_distance (pure_pursuit self))
          (St.k (stanley self)).

End HybridController.

(** ** [run_experiments_camera.py]: the metric helpers of the runner *)

Module NpStats.

(** A numpy float that may be [nan]: the mean and the standard deviation of
    an empty array are [nan] (with a warning), not an exception. *)
Inductive npfloat : Type :=
| Num (r : R)
| NaN.

(** Outcome of a computation whose only exception is [ValueError]. *)
Inductive outcome (A : Type) : Type :=
| Returned (a : A)
| ValueError.
Arguments Returned {A} a.
Arguments ValueError {A}.

#[global] Instance outcome_Monad : Monad outcome := {
  ret := fun A a => Returned a;
  bind := fun A B c k =>
    match c with Returned a => k a | ValueError => ValueError end
}.

(** [np.mean(a)]. *)
Definition mean (a : list R) : npfloat :=
  match a with
  | [] => NaN
  | _ => Num (Np.sum a / INR (List.length a))
  end.

(** [np.std(a)]: the square root of the mean of [abs(a - a.mean())**2]. *)
Definition std (a : list R) : npfloat :=
  match a with
  | [] => NaN
  | _ =>
      let m := Np.sum a / INR (List.length a) in
      Num (sqrt (Np.sum (map (fun v => Rabs (v - m) ^ 2) a)
                 / INR (List.length a)))
  end.

(** [np.max(a)]: a zero-size array has no maximum. *)
Definition max (a : list R) : outcome R :=
  match a with
  | [] => ValueError
  | a0 :: rest => Returned (fold_left Rmax rest a0)
  end.

End NpStats.

Module ExperimentRunnerWithCamera.

Import NpStats.

(** The loop of [_calculate_lateral_error]. *)
Fixpoint lateral_loop (vehicle_location : Location) (wps : list Waypoint)
    (min_dist : Py.efloat) : Py.efloat :=
  match wps with
  | [] => min_dist
  | wp :: rest =>
      let dist := distance vehicle_location (location (transform wp)) in
      if Py.lt dist min_dist
      then lateral_loop vehicle_location rest (Py.Fin dist)
      else lateral_loop vehicle_location rest min_dist
  end.

Definition _calculate_lateral_error (vehicle_location : Location)
    (waypoints : list Waypoint) : Py.efloat :=
  match waypoints with
  | [] => Py.Fin 0.0
  | _ => lateral_loop vehicle_location (firstn 10 waypoints) Py.Inf
  end.

(** The loop of [_calculate_heading_error]. *)
Fixpoint heading_loop (vehicle_location : Location) (wps : list Waypoint)
    (min_dist : Py.efloat) (closest_wp : Waypoint) : Py.efloat * Waypoint :=
  match wps with
  | [] => (min_dist, closest_wp)
  | wp :: rest =>
      let dist := distance vehicle_location (location (transform wp)) in
      if Py.lt dist min_dist
      then heading_loop vehicle_location rest (Py.Fin dist) wp
      else heading_loop vehicle_location rest min_dist closest_wp
  end.

Definition _calculate_heading_error (vehicle_transform : Transform)
    (waypoints : list Waypoint) : result R :=
  match waypoints with
  | [] => Ok 0.0
  | _ =>
      let vehicle_yaw := Np.radians (yaw (rotation vehicle_transform)) in
      closest_wp <- Py.getitem waypoints 0 ;;
      let '(_, closest_wp) :=
        heading_loop (location vehicle_transform) (firstn 10 waypoints)
                     Py.Inf closest_wp in
      let target_yaw := Np.radians (yaw (rotation (transform closest_wp))) in
      let error := target_yaw - vehicle_yaw in
      let error := Np.arctan2 (sin error) (cos error) in
      Ok error
  end.

(** The [metrics] dictionary built by [run_experiment], one field per key. *)
Record Metrics : Type := mkMetrics {
  lateral_errors : list R;
  heading_errors : list R;
  steering_angles : list R;
  speeds : list R;
  timestamps : list R
}.

(** The dictionary returned by [_calculate_statistics]. *)
Record Statistics : Type := mkStatistics {
  experiment_name : string;
  mean_lateral_error : npfloat;
  max_lateral_error : R;
  std_lateral_error : npfloat;
  mean_heading_error : npfloat;
  max_heading_error : R;
  steering_smoothness : npfloat;
  mean_speed : npfloat;
  duration : R;
  data_points : Z
}.

Definition _calculate_statistics (metrics : Metrics) (name : string)
    : outcome Statistics :=
  let lateral_errors := lateral_errors metrics in
  let steering_angles := steering_angles metrics in
  let steering_changes := Np.diff steering_angles in
  let smoothness :=
    if (Py.len steering_changes >? 0)%Z then std steering_changes
    else Num 0.0 in
  max_lateral <- max lateral_errors ;;
  max_heading <- max (map Rabs (heading_errors metrics)) ;;
  Returned
    (mkStatistics name
       (mean lateral_errors)
       max_lateral
       (std lateral_errors)
       (mean (map Rabs (heading_errors metrics)))
       max_heading
       smoothness
       (mean (speeds metrics))
       (match timestamps metrics with
        | [] => 0
        | _ => last (timestamps metrics) 0
        end)
       (Py.len lateral_errors)).

End ExperimentRunnerWithCamera.

Import HybridController.

(** * Views of the code used in the statements *)

(** The index the closest-waypoint loop ends with. *)
Definition closest_index (pos : Location) (path : list Waypoint) : Z :=
  snd (closest_loop pos (Py.enumerate path) Py.Inf None 0%Z).

(** The [(x, y)] pair [estimate_path_curvature] keeps of a waypoint. *)
Definition position (w : Waypoint) : R * R :=
  (x (location (transform w)), y (location (transform w))).

(** What lines 78-115 of [estimate_path_curvature] compute once the closest
    index [c] is known. *)
Definition curvature_from (path : list Waypoint) (c : Z) (lookahead_points : Z)
    : R :=
  let end_idx := Z.min (c + lookahead_points) (Py.len path - 1) in
  if (end_idx - c <? 3)%Z then 0.0
  else
    let points :=
      map position
          (firstn (Z.to_nat (end_idx - c)) (skipn (Z.to_nat c) path)) in
    if (Py.len points <? 3)%Z then 0.0
    else
      let dx := Np.diff (map fst points) in
      let dy := Np.diff (map snd points) in
      let headings := Np.map2 Np.arctan2 dy dx in
      if (Py.len headings >? 1)%Z then
        let heading_change :=
          map (fun h => Np.arctan2 (sin h) (cos h))
              (map Rabs (Np.diff headings)) in
        let total_distance :=
          Np.sum (Np.map2 (fun a b => sqrt (a ^ 2 + b ^ 2))
                          (removelast dx) (removelast dy)) in
        if Rgt_dec total_distance 0.1
        then Np.sum (map Rabs heading_change) / total_distance
        else 0.0
      else 0.0.

(** The controller object after lines 203-210 of [run_step]: the curvature
    is recorded and, when [speed_adaptive] is set, the scheduled lookahead
    distance and gain are written into the two trackers. *)
Definition after_scheduling (curvature vehicle_speed : R) (self : t) : t :=
  let self := set_current_curvature curvature self in
  if speed_adaptive self
  then set_stanley_k (adaptive_stanley_gain vehicle_speed)
         (set_pp_lookahead_distance (adaptive_lookahead vehicle_speed) self)
  else self.

(** The command built by the blending branch of [run_step]. *)
Definition blended_control (pp_control stanley_control : VehicleControl)
    (weight : R) : VehicleControl :=
  mkVehicleControl (throttle pp_control)
    (Np.clip ((1 - weight) * steer pp_control + weight * steer stanley_control)
             (-1.0) 1.0)
    (brake pp_control) false false.

(** The controller with its [mode] attribute set to [m]. *)
Definition set_mode (m : string) (self : t) : t :=
  mk (pure_pursuit self) (stanley self) (curvature_threshold self)
     (blend_zone self) m (speed_adaptive self)
     (active_controller self) (blend_weight self) (current_curvature self).

(** * Specification-side definitions

    Written from the words of the specification, to be compared with the
    functions above. *)

(** ** ControlCommand (section 3) *)

(** The steering is in range and throttle and brake exclude each other. *)
Definition control_invariant (c : VehicleControl) : Prop :=
  -1 <= steer c <= 1 /\
  (throttle c <> 0 -> brake c = 0) /\
  (brake c <> 0 -> throttle c = 0).

(** ** WaypointLocator (section 4.1) *)

Definition far_enough (pos : Location) (lookaheadDistance : R)
    (w : Waypoint) : bool :=
  if Rge_dec (distance pos (location (transform w))) lookaheadDistance
  then true else false.

(** The first waypoint among the 50 starting at [nearestIndex] that is at
    least [lookaheadDistance] away; failing that the waypoint 30 places after
    [nearestIndex]; failing that the last waypoint of the path. *)
Definition spec_lookahead (pos : Location) (path : list Waypoint)
    (nearestIndex : nat) (lookaheadDistance : R) : option Location :=
  match find (far_enough pos lookaheadDistance)
             (firstn 50 (skipn nearestIndex path)) with
  | Some w => Some (location (transform w))
  | None =>
      match nth_error path (nearestIndex + 30) with
      | Some w => Some (location (transform w))
      | None =>
          option_map (fun w => location (transform w))
                     (nth_error path (List.length path - 1))
      end
  end.

(** ** CurvatureEstimator (section 4.2) *)

(** Angle wrapping into (-pi, pi]; [wrap_range] and [wrap_sin_cos] below
    show that it is one. *)
Definition wrap (a : R) : R := Np.arctan2 (sin a) (cos a).

(** Consecutive displacement vectors. *)
Fixpoint displacements (pts : list (R * R)) : list (R * R) :=
  match pts with
  | p0 :: ((p1 :: _) as rest) =>
      (fst p1 - fst p0, snd p1 - snd p0) :: displacements rest
  | _ => []
  end.

Definition segment_heading (d : R * R) : R := Np.arctan2 (snd d) (fst d).

Definition segment_length (d : R * R) : R := sqrt (fst d ^ 2 + snd d ^ 2).

(** Absolute, angle-wrapped differences between consecutive headings. *)
Fixpoint heading_deltas (hs : list R) : list R :=
  match hs with
  | h0 :: ((h1 :: _) as rest) => Rabs (wrap (h1 - h0)) :: heading_deltas rest
  | _ => []
  end.

Fixpoint total (l : list R) : R :=
  match l with
  | [] => 0
  | a :: l' => a + total l'
  end.

(** Total turning per unit distance over a window of points; 0 when the
    window has fewer than 3 points or the arc length, taken without the last
    segment, is at most 0.1. *)
Definition turning_rate (pts : list (R * R)) : R :=
  if (List.length pts <? 3)%nat then 0
  else
    let segs := displacements pts in
    let arc := total (map segment_length (removelast segs)) in
    if Rle_dec arc 0.1 then 0
    else total (heading_deltas (map segment_heading segs)) / arc.

(** The estimate over up to [horizon] waypoints starting at [nearestIndex]. *)
Definition spec_curvature (path : list Waypoint) (nearestIndex horizon : nat)
    : R :=
  turning_rate (map position (firstn horizon (skipn nearestIndex path))).

(** ** GeometricTracker (section 4.3) *)

(** The target in the vehicle frame: [(local_x, local_y)]. *)
Definition local_frame (pose : Transform) (target : Location) : R * R :=
  let dx := x target - x (location pose) in
  let dy := y target - y (location pose) in
  let heading := Np.radians (yaw (rotation pose)) in
  (dx * cos heading + dy * sin heading, - dx * sin heading + dy * cos heading).

Definition spec_pursuit_curvature (local_x local_y : R) : R :=
  let L2 := local_x ^ 2 + local_y ^ 2 in
  if Rgt_dec L2 0.01 then 2 * local_y / L2 else 0.

Definition spec_geometric_steer (pose : Transform) (target : Location)
    (wheelbase : R) : R :=
  let local_x := fst (local_frame pose target) in
  let local_y := snd (local_frame pose target) in
  Np.clip (atan (spec_pursuit_curvature local_x local_y * wheelbase)
           / Np.radians 70) (-1) 1.

(** ** ErrorBasedTracker (section 4.4) *)

(** Path heading at the nearest waypoint: the direction to the next waypoint
    when there is one, the stored heading of the waypoint otherwise. *)
Definition spec_path_heading (path : list Waypoint) (nearestIndex : nat)
    (nearest : Waypoint) : R :=
  match nth_error path (S nearestIndex) with
  | Some next =>
      Np.arctan2
        (y (location (transform next)) - y (location (transform nearest)))
        (x (location (transform next)) - x (location (transform nearest)))
  | None => Np.radians (yaw (rotation (transform nearest)))
  end.

Definition spec_heading_error (pose : Transform) (path : list Waypoint)
    (nearestIndex : nat) (nearest : Waypoint) : R :=
  wrap (spec_path_heading path nearestIndex nearest
        - Np.radians (yaw (rotation pose))).

Definition spec_cross_track_error (pose : Transform) (nearest : Waypoint) : R :=
  let dx := x (location (transform nearest)) - x (location pose) in
  let dy := y (location (transform nearest)) - y (location pose) in
  let heading := Np.radians (yaw (rotation pose)) in
  - dx * sin heading + dy * cos heading.

Definition spec_stanley_angle (pose : Transform) (speed gain_k : R)
    (path : list Waypoint) (nearestIndex : nat) (nearest : Waypoint) : R :=
  spec_heading_error pose path nearestIndex nearest
  + atan (gain_k * spec_cross_track_error pose nearest / Rmax speed 0.1).

(** ** Arbitrator (section 4.6) *)

(** The blend weight as a function of the curvature alone. *)
Definition spec_blend_weight (threshold blendZone curvature : R) : R :=
  if Rlt_dec curvature (threshold - blendZone) then 0
  else if Rgt_dec curvature (threshold + blendZone) then 1
  else (curvature - (threshold - blendZone)) / (2 * blendZone).

(** The condition under which the adaptive mode uses the Stanley tracker. *)
Definition stanley_condition (threshold blendZone curvature speed : R) : Prop :=
  curvature > threshold + blendZone \/
  (curvature > threshold /\ speed < 8.0).

(** * Concrete inputs used in the examples *)

Definition origin : Location := mkVector3D 0 0 0.

Definition waypoint_at (px py heading : R) : Waypoint :=
  mkWaypoint (mkTransform (mkVector3D px py 0) (mkRotation heading)).

(** A vehicle standing at the origin, heading along +x. *)
Definition parked_vehicle : Vehicle :=
  mkVehicle (mkTransform origin (mkRotation 0)) (mkVector3D 0 0 0).

(** The hybrid controller as its constructor builds it by default. *)
Definition default_hybrid : t := init 3.0 0.5 0.05 0.02 "adaptive".

(** A path that turns left by a right angle at its second waypoint. *)
Definition corner_path : list Waypoint :=
  [waypoint_at 0 0 0; waypoint_at 1 0 0; waypoint_at 1 1 0].

(** Waypoints every 2 m along +x, and a vehicle at the origin driving along
    +x at 5 m/s (section 8 of the specification, scenario 7). *)
Definition straight_path : list Waypoint :=
  [waypoint_at 0 0 0; waypoint_at 2 0 0; waypoint_at 4 0 0; waypoint_at 6 0 0].

Definition cruising_vehicle : Vehicle :=
  mkVehicle (mkTransform origin (mkRotation 0)) (mkVector3D 5 0 0).

(** A vehicle at the origin driving along +x at 15 m/s. *)
Definition fast_vehicle : Vehicle :=
  mkVehicle (mkTransform origin (mkRotation 0)) (mkVector3D 15 0 0).

(** The default hybrid controller in its other two modes. *)
Definition switching_hybrid : t := set_mode "switching" default_hybrid.

Definition blending_hybrid : t := set_mode "blending" default_hybrid.

(** One recorded tick, and no recorded tick. *)
Definition one_tick_metrics : ExperimentRunnerWithCamera.Metrics :=
  ExperimentRunnerWithCamera.mkMetrics [0.5] [0.1] [0.2] [5] [0.05].

Definition no_metrics : ExperimentRunnerWithCamera.Metrics :=
  ExperimentRunnerWithCamera.mkMetrics [] [] [] [] [].

(** * Properties *)

(** ** Python lists *)

Lemma getitem_nth_error {A : Type} (l : list A) (i : Z) (a : A) :
  (0 <= i)%Z -> nth_error l (Z.to_nat i) = Some a -> Py.getitem l i = Ok a.
Proof.
  intros Hi Hn. unfold Py.getitem, Py.len.
  assert (Hlt : (Z.to_nat i < List.length l)%nat)
    by (apply nth_error_Some; rewrite Hn; discriminate).
  destruct (Z.ltb_spec i 0); [lia |].
  destruct (Z.leb_spec 0 i); [| lia].
  destruct (Z.ltb_spec i (Z.of_nat (List.length l))); [| lia].
  simpl. now rewrite Hn.
Qed.

Lemma getitem_in_range {A : Type} (l : list A) (i : Z) :
  (0 <= i < Py.len l)%Z ->
  exists a, nth_error l (Z.to_nat i) = Some a /\ Py.getitem l i = Ok a.
Proof.
  intros [Hi Hlt]. unfold Py.len in Hlt.
  destruct (nth_error l (Z.to_nat i)) as [a |] eqn:Hn.
  - exists a. split; [reflexivity | now apply getitem_nth_error].
  - apply nth_error_None in Hn. lia.
Qed.

Lemma getitem_last {A : Type} (l : list A) :
  l <> [] ->
  exists a, nth_error l (List.length l - 1) = Some a /\
            Py.getitem l (-1)%Z = Ok a.
Proof.
  intros Hne.
  assert (Hlen : (0 < List.length l)%nat)
    by (destruct l; [congruence | simpl; lia]).
  destruct (nth_error l (List.length l - 1)) as [a |] eqn:Hn.
  - exists a. split; [reflexivity |].
    unfold Py.getitem, Py.len.
    destruct (Z.ltb_spec (-1) 0); [| lia].
    destruct (Z.leb_spec 0 (-1 + Z.of_nat (List.length l))); [| lia].
    destruct (Z.ltb_spec (-1 + Z.of_nat (List.length l))
                         (Z.of_nat (List.length l))); [| lia].
    cbn [andb].
    replace (Z.to_nat (-1 + Z.of_nat (List.length l)))
      with (List.length l - 1)%nat by lia.
    now rewrite Hn.
  - apply nth_error_None in Hn. lia.
Qed.

Lemma getitem_empty {A : Type} (i : Z) :
  Py.getitem (@nil A) i = Raise IndexError.
Proof.
  unfold Py.getitem, Py.len. cbn [List.length Z.of_nat].
  destruct (Z.ltb_spec i 0).
  - destruct (Z.leb_spec 0 (i + 0)); [lia | reflexivity].
  - destruct (Z.leb_spec 0 i); [| reflexivity].
    destruct (Z.ltb_spec i 0); [lia | reflexivity].
Qed.

Lemma range_nil (a b : Z) : (b <= a)%Z -> Py.range a b = [].
Proof.
  intros H. unfold Py.range.
  replace (Z.to_nat (b - a)) with 0%nat by lia. reflexivity.
Qed.

Lemma range_cons (a b : Z) :
  (a < b)%Z -> Py.range a b = a :: Py.range (a + 1) b.
Proof.
  intros H. unfold Py.range.
  replace (Z.to_nat (b - a)) with (S (Z.to_nat (b - (a + 1)))) by lia.
  rewrite <- cons_seq, <- seq_shift, map_cons, map_map.
  f_equal; [lia |].
  apply map_ext. intros k. lia.
Qed.

Lemma skipn_nth_error_cons {A : Type} (l : list A) (n : nat) (a : A) :
  nth_error l n = Some a -> skipn n l = a :: skipn (S n) l.
Proof.
  revert l. induction n as [| n IH]; intros [| b l] H; simpl in *;
    try discriminate.
  - now inversion H.
  - now apply IH.
Qed.

(** ** The closest-waypoint loop *)

Lemma closest_loop_cases (pos : Location) (l : list Waypoint) :
  forall (i : Z) (m : Py.efloat) (w : option Waypoint) (c : Z),
    closest_loop pos (Py.enumerate_from i l) m w c = (m, w, c) \/
    exists (wp : Waypoint) (j : nat),
      nth_error l j = Some wp /\
      closest_loop pos (Py.enumerate_from i l) m w c
      = (Py.Fin (distance pos (location (transform wp))), Some wp,
         (i + Z.of_nat j)%Z).
Proof.
  induction l as [| a l IH]; intros i m w c; simpl.
  - now left.
  - destruct (Py.lt (distance pos (location (transform a))) m).
    + right.
      destruct (IH (i + 1)%Z (Py.Fin (distance pos (location (transform a))))
                   (Some a) i) as [E | (wp & j & Hn & E)].
      * exists a, 0%nat. split; [reflexivity |].
        rewrite E. f_equal. lia.
      * exists wp, (S j). split; [exact Hn |].
        rewrite E. f_equal. lia.
    + destruct (IH (i + 1)%Z m w c) as [E | (wp & j & Hn & E)].
      * now left.
      * right. exists wp, (S j). split; [exact Hn |].
        rewrite E. f_equal. lia.
Qed.

Lemma closest_loop_nonempty (pos : Location) (path : list Waypoint) :
  path <> [] ->
  exists (wp : Waypoint) (j : nat),
    nth_error path j = Some wp /\
    closest_loop pos (Py.enumerate path) Py.Inf None 0%Z
    = (Py.Fin (distance pos (location (transform wp))), Some wp, Z.of_nat j).
Proof.
  intros Hne.
  destruct (closest_loop_cases pos path 0%Z Py.Inf None 0%Z)
    as [E | (wp & j & Hn & E)].
  - destruct path as [| a l]; [congruence |].
    unfold Py.enumerate in E. simpl in E.
    destruct (closest_loop_cases pos l 1%Z
                (Py.Fin (distance pos (location (transform a)))) (Some a) 0%Z)
      as [E' | (wp & j & Hn & E')]; simpl in E'; rewrite E' in E; discriminate.
  - exists wp, j. split; [exact Hn |]. exact E.
Qed.

Lemma closest_loop_empty (pos : Location) :
  closest_loop pos (Py.enumerate []) Py.Inf None 0%Z = (Py.Inf, None, 0%Z).
Proof. reflexivity. Qed.

Lemma closest_index_range (pos : Location) (path : list Waypoint) :
  path <> [] -> (0 <= closest_index pos path < Py.len path)%Z.
Proof.
  intros Hne. unfold closest_index.
  destruct (closest_loop_nonempty pos path Hne) as (wp & j & Hn & E).
  rewrite E. simpl.
  assert (j < List.length path)%nat
    by (apply nth_error_Some; rewrite Hn; discriminate).
  unfold Py.len. lia.
Qed.

(** ** Bounds of [np.clip] *)

Lemma clip_bounds (a : R) : -1 <= Np.clip a (-1.0) 1.0 <= 1.
Proof.
  unfold Np.clip, Rmin, Rmax.
  destruct (Rle_dec a (-1.0)); destruct (Rle_dec _ 1.0); lra.
Qed.

Lemma clip_zero : Np.clip 0 (-1.0) 1.0 = 0.
Proof.
  unfold Np.clip, Rmin, Rmax.
  destruct (Rle_dec 0 (-1.0)); destruct (Rle_dec _ 1.0); lra.
Qed.

Lemma clip_id (a lo hi : R) : lo <= a <= hi -> Np.clip a lo hi = a.
Proof.
  intros [H1 H2]. unfold Np.clip, Rmin, Rmax.
  destruct (Rle_dec a lo); destruct (Rle_dec _ hi); lra.
Qed.

(** ** The lookahead search *)

Lemma forward_search_find (self : PurePursuitController.t) (pos : Location)
    (path : list Waypoint) (n : nat) :
  forall a b : Z,
    Z.to_nat (b - a) = n -> (0 <= a)%Z -> (b <= Py.len path)%Z ->
    PurePursuitController.forward_search self pos path (Py.range a b)
    = Ok (option_map (fun w => location (transform w))
            (find
               (far_enough pos (PurePursuitController.lookahead_distance self))
               (firstn n (skipn (Z.to_nat a) path)))).
Proof.
  induction n as [| n IH]; intros a b Hn Ha Hb.
  - rewrite range_nil by lia. reflexivity.
  - rewrite range_cons by lia.
    destruct (getitem_in_range path a) as (w & Hw & Hg); [lia |].
    cbn [PurePursuitController.forward_search]. rewrite Hg.
    cbn [bind result_Monad].
    rewrite (skipn_nth_error_cons _ _ _ Hw).
    cbn [firstn find]. unfold far_enough at 1.
    destruct (Rge_dec _ _); [reflexivity |].
    rewrite (IH (a + 1)%Z b) by lia.
    now replace (Z.to_nat (a + 1)) with (S (Z.to_nat a)) by lia.
Qed.

Lemma firstn_min_length {A : Type} (l : list A) (n m : nat) :
  m = Nat.min n (List.length l) -> firstn m l = firstn n l.
Proof.
  intros ->. destruct (Nat.le_ge_cases n (List.length l)).
  - now rewrite Nat.min_l.
  - rewrite Nat.min_r by assumption. now rewrite !firstn_all2 by lia.
Qed.

Lemma find_lookahead_point_refines (self : PurePursuitController.t)
    (pos : Location) (tf : Transform) (path : list Waypoint) :
  path <> [] ->
  exists target : Location,
    spec_lookahead pos path (Z.to_nat (closest_index pos path))
                   (PurePursuitController.lookahead_distance self)
    = Some target /\
    PurePursuitController.find_lookahead_point self pos tf path
    = Ok (Some target).
Proof.
  intros Hne.
  pose proof (closest_index_range pos path Hne) as Hr.
  unfold PurePursuitController.find_lookahead_point, spec_lookahead.
  unfold closest_index in *.
  destruct (closest_loop pos (Py.enumerate path) Py.Inf None 0%Z)
    as [[m cw] c]. cbn [snd] in *.
  rewrite (forward_search_find self pos path
             (Z.to_nat (Z.min (c + 50) (Py.len path) - c))) by lia.
  cbn [bind result_Monad].
  rewrite (firstn_min_length (skipn (Z.to_nat c) path) 50
             (Z.to_nat (Z.min (c + 50) (Py.len path) - c)))
    by (rewrite length_skipn; unfold Py.len; lia).
  destruct (find _ _) as [w |]; cbn [option_map].
  - now exists (location (transform w)).
  - destruct (Z.ltb_spec (c + 30) (Py.len path)) as [Hlt | Hge].
    + destruct (getitem_in_range path (c + 30)%Z) as (w & Hw & Hg); [lia |].
      rewrite Hg. cbn [bind result_Monad].
      replace (Z.to_nat c + 30)%nat with (Z.to_nat (c + 30)) by lia.
      rewrite Hw. now exists (location (transform w)).
    + destruct (getitem_last path Hne) as (w & Hw & Hg).
      rewrite Hg. cbn [bind result_Monad].
      assert (Hnone : nth_error path (Z.to_nat c + 30) = None)
        by (apply nth_error_None; unfold Py.len in Hge; lia).
      rewrite Hnone, Hw. now exists (location (transform w)).
Qed.

Lemma run_step_eq (vehicle : Vehicle) (waypoints : list Waypoint) (h : t) :
  run_step vehicle waypoints h =
  match estimate_path_curvature (location (get_transform vehicle)) waypoints 10
  with
  | Raise e => (Raise e, h)
  | Ok curvature =>
      let speed := get_speed vehicle in
      let self := after_scheduling curvature speed h in
      if (mode self =? "switching")%string then
        if Rgt_dec curvature (curvature_threshold self)
        then (St.run_step (stanley self) vehicle waypoints,
              set_active_controller "Stanley" self)
        else (PP.run_step (pure_pursuit self) vehicle waypoints,
              set_active_controller "Pure Pursuit" self)
      else if (mode self =? "blending")%string then
        match PP.run_step (pure_pursuit self) vehicle waypoints with
        | Raise e => (Raise e, self)
        | Ok pp_control =>
            match St.run_step (stanley self) vehicle waypoints with
            | Raise e => (Raise e, self)
            | Ok stanley_control =>
                match compute_blend_weight self curvature (Some speed) with
                | Raise e => (Raise e, self)
                | Ok weight =>
                    (Ok (blended_control pp_control stanley_control weight),
                     set_active_controller (blended_label weight)
                       (set_blend_weight weight self))
                end
            end
        end
      else if use_stanley self curvature speed
      then (St.run_step (stanley self) vehicle waypoints,
            set_blend_weight 1.0 (set_active_controller "Stanley" self))
      else (PP.run_step (pure_pursuit self) vehicle waypoints,
            set_blend_weight 0.0 (set_active_controller "Pure Pursuit" self))
  end.
Proof.
  unfold run_step, after_scheduling.
  cbn [bind ret M_Monad]. unfold lift, assign, get.
  destruct (estimate_path_curvature _ _ _) as [curvature | e]; [| reflexivity].
  cbn [speed_adaptive set_current_curvature].
  destruct (speed_adaptive h);
    cbn [mode set_stanley_k set_pp_lookahead_distance set_current_curvature];
    destruct (mode h =? "switching")%string;
    try (destruct (Rgt_dec _ _); reflexivity);
    destruct (mode h =? "blending")%string;
    try (destruct (use_stanley _ _ _); reflexivity);
    destruct (PP.run_step _ _ _); try reflexivity;
    destruct (St.run_step _ _ _); try reflexivity;
    destruct (compute_blend_weight _ _ _); reflexivity.
Qed.

(** ** Commands returned by the two trackers *)

Lemma radians_70_pos : 0 < Np.radians 70.
Proof. unfold Np.radians. pose proof PI_RGT_0. lra. Qed.

Lemma pp_compute_steering_bounds (self : PurePursuitController.t)
    (tf : Transform) (target : Location) :
  -1 <= PurePursuitController.compute_steering self tf target <= 1.
Proof. unfold PurePursuitController.compute_steering. apply clip_bounds. Qed.

Lemma pp_run_step_invariant (self : PurePursuitController.t)
    (vehicle : Vehicle) (path : list Waypoint) (c : VehicleControl) :
  PurePursuitController.run_step self vehicle path = Ok c ->
  control_invariant c.
Proof.
  unfold PurePursuitController.run_step.
  destruct (PurePursuitController.find_lookahead_point _ _ _ _)
    as [[target |] | e]; cbn [bind result_Monad]; [| | discriminate].
  - destruct (Rlt_dec _ _); intros E; injection E as <-;
      unfold control_invariant; cbn [steer throttle brake];
      (split; [apply pp_compute_steering_bounds | split; intros; lra]).
  - intros E; injection E as <-.
    unfold control_invariant; cbn [steer throttle brake].
    split; [lra | split; intros; lra].
Qed.

Lemma pp_run_step_returns (self : PurePursuitController.t)
    (vehicle : Vehicle) (path : list Waypoint) :
  path <> [] ->
  exists c, PurePursuitController.run_step self vehicle path = Ok c.
Proof.
  intros Hne. unfold PurePursuitController.run_step.
  destruct (find_lookahead_point_refines self
              (location (get_transform vehicle)) (get_transform vehicle)
              path Hne) as (target & _ & E).
  rewrite E. cbn [bind result_Monad].
  destruct (Rlt_dec _ _); eexists; reflexivity.
Qed.

Lemma stanley_closest (self : StanleyController.t) (pos : Location)
    (path : list Waypoint) :
  path <> [] ->
  exists (w : Waypoint) (n : nat),
    nth_error path n = Some w /\
    closest_index pos path = Z.of_nat n /\
    StanleyController.find_closest_waypoint self pos path
    = Ok (Some w, Z.of_nat n,
          Py.Fin (distance pos (location (transform w)))).
Proof.
  intros Hne.
  destruct (closest_loop_nonempty pos path Hne) as (w & n & Hn & E).
  exists w, n. unfold StanleyController.find_closest_waypoint, closest_index.
  rewrite E. auto.
Qed.

Lemma stanley_steering_refines (self : StanleyController.t) (tf : Transform)
    (speed : R) (path : list Waypoint) :
  path <> [] ->
  exists (n : nat) (w : Waypoint),
    nth_error path n = Some w /\
    closest_index (location tf) path = Z.of_nat n /\
    StanleyController.steering_angle self tf speed path
    = Ok (spec_stanley_angle tf speed (StanleyController.k self) path n w).
Proof.
  intros Hne.
  destruct (stanley_closest self (location tf) path Hne)
    as (w & n & Hn & Hc & E).
  exists n, w. split; [exact Hn | split; [exact Hc |]].
  unfold StanleyController.steering_angle. rewrite E.
  cbn [bind result_Monad].
  unfold spec_stanley_angle, spec_heading_error, spec_path_heading, wrap,
    spec_cross_track_error.
  destruct (Z.ltb_spec (Z.of_nat n + 1) (Py.len path)) as [Hlt | Hge].
  - destruct (getitem_in_range path (Z.of_nat n + 1)%Z) as (nx & Hnx & Hg);
      [lia |].
    rewrite Hg.
    replace (Z.to_nat (Z.of_nat n + 1)) with (S n) in Hnx by lia.
    rewrite Hnx. reflexivity.
  - assert (Hnone : nth_error path (S n) = None)
      by (apply nth_error_None; unfold Py.len in Hge; lia).
    rewrite Hnone. reflexivity.
Qed.

Lemma stanley_compute_steering_bounds (self : StanleyController.t)
    (tf : Transform) (speed : R) (path : list Waypoint) (s : R) :
  StanleyController.compute_steering self tf speed path = Ok s ->
  -1 <= s <= 1.
Proof.
  unfold StanleyController.compute_steering.
  destruct (StanleyController.steering_angle _ _ _ _);
    cbn [bind result_Monad]; [| discriminate].
  intros E; injection E as <-. apply clip_bounds.
Qed.

Lemma stanley_run_step_invariant (self : StanleyController.t)
    (vehicle : Vehicle) (path : list Waypoint) (c : VehicleControl) :
  StanleyController.run_step self vehicle path = Ok c ->
  control_invariant c.
Proof.
  unfold StanleyController.run_step.
  destruct (StanleyController.compute_steering _ _ _ _) as [s | e] eqn:Es;
    cbn [bind result_Monad]; [| discriminate].
  apply stanley_compute_steering_bounds in Es.
  destruct (Rlt_dec _ _); intros E; injection E as <-;
    unfold control_invariant; cbn [steer throttle brake];
    (split; [exact Es | split; intros; lra]).
Qed.

Lemma stanley_run_step_returns (self : StanleyController.t)
    (vehicle : Vehicle) (path : list Waypoint) :
  path <> [] ->
  exists c, StanleyController.run_step self vehicle path = Ok c.
Proof.
  intros Hne. unfold StanleyController.run_step,
    StanleyController.compute_steering.
  destruct (stanley_steering_refines self (get_transform vehicle)
              (StanleyController.get_speed vehicle) path Hne)
    as (n & w & _ & _ & E).
  rewrite E. cbn [bind result_Monad].
  destruct (Rlt_dec _ _); eexists; reflexivity.
Qed.

(** ** The curvature estimate *)

Lemma collect_points_range (path : list Waypoint) (n : nat) :
  forall (a b : Z) (acc : list (R * R)),
    Z.to_nat (b - a) = n -> (0 <= a)%Z -> (b <= Py.len path)%Z ->
    collect_points path (Py.range a b) acc
    = Ok (acc ++ map position (firstn n (skipn (Z.to_nat a) path))).
Proof.
  induction n as [| n IH]; intros a b acc Hn Ha Hb.
  - rewrite range_nil by lia. cbn. now rewrite app_nil_r.
  - rewrite range_cons by lia.
    destruct (getitem_in_range path a) as (w & Hw & Hg); [lia |].
    cbn [collect_points]. rewrite Hg. cbn [bind result_Monad].
    rewrite (IH (a + 1)%Z b) by lia.
    rewrite (skipn_nth_error_cons _ _ _ Hw).
    replace (Z.to_nat (a + 1)) with (S (Z.to_nat a)) by lia.
    cbn [firstn map]. rewrite <- app_assoc. reflexivity.
Qed.

Lemma closest_index_nonneg (pos : Location) (path : list Waypoint) :
  (0 <= closest_index pos path)%Z.
Proof.
  destruct path as [| w l].
  - unfold closest_index. rewrite closest_loop_empty. simpl. lia.
  - apply closest_index_range. discriminate.
Qed.

Lemma estimate_path_curvature_eq (pos : Location) (path : list Waypoint)
    (lookahead_points : Z) :
  estimate_path_curvature pos path lookahead_points
  = Ok (curvature_from path (closest_index pos path) lookahead_points).
Proof.
  pose proof (closest_index_nonneg pos path) as Hc.
  unfold estimate_path_curvature, curvature_from, closest_index in *.
  destruct (closest_loop pos (Py.enumerate path) Py.Inf None 0%Z)
    as [[m cw] c]. cbn [snd] in *.
  destruct (Z.ltb_spec (Z.min (c + lookahead_points) (Py.len path - 1) - c) 3);
    [reflexivity |].
  rewrite (collect_points_range path
             (Z.to_nat (Z.min (c + lookahead_points) (Py.len path - 1) - c)))
    by lia.
  cbn [bind result_Monad app].
  destruct (Py.len _ <? 3)%Z; [reflexivity |].
  destruct (Py.len _ >? 1)%Z; [| reflexivity].
  destruct (Rgt_dec _ _); reflexivity.
Qed.

(** ** The hybrid controller *)

Lemma after_scheduling_config (curvature speed : R) (h : t) :
  mode (after_scheduling curvature speed h) = mode h /\
  curvature_threshold (after_scheduling curvature speed h)
  = curvature_threshold h /\
  blend_zone (after_scheduling curvature speed h) = blend_zone h /\
  speed_adaptive (after_scheduling curvature speed h) = speed_adaptive h.
Proof.
  unfold after_scheduling. cbn [speed_adaptive set_current_curvature].
  destruct (speed_adaptive h) eqn:E; cbn; auto.
Qed.

Lemma compute_blend_weight_returns (self : t) (curvature : R)
    (speed : option R) :
  blend_zone self <> 0 ->
  exists w, compute_blend_weight self curvature speed = Ok w.
Proof.
  intros Hz. unfold compute_blend_weight, divide.
  destruct (Rlt_dec _ _); [| destruct (Rgt_dec _ _);
    [| destruct (Req_dec_T _ _); [lra |]]];
    cbn [bind result_Monad];
    destruct (speed_adaptive self); destruct speed; eexists; reflexivity.
Qed.

Lemma blended_control_invariant (pp_control stanley_control : VehicleControl)
    (weight : R) :
  control_invariant pp_control ->
  control_invariant (blended_control pp_control stanley_control weight).
Proof.
  intros (_ & Ht & Hb). unfold control_invariant, blended_control.
  cbn [steer throttle brake]. split; [apply clip_bounds | auto].
Qed.

Lemma hybrid_run_step_invariant (vehicle : Vehicle) (path : list Waypoint)
    (h h' : t) (c : VehicleControl) :
  run_step vehicle path h = (Ok c, h') -> control_invariant c.
Proof.
  rewrite run_step_eq, estimate_path_curvature_eq. cbv zeta.
  set (self := after_scheduling _ _ h).
  destruct (mode self =? "switching")%string.
  { destruct (Rgt_dec _ _); intros E; injection E as E _.
    - exact (stanley_run_step_invariant _ _ _ _ E).
    - exact (pp_run_step_invariant _ _ _ _ E). }
  destruct (mode self =? "blending")%string.
  { destruct (PP.run_step _ _ _) as [pc | e] eqn:Ep; [| discriminate].
    destruct (St.run_step _ _ _) as [sc | e]; [| discriminate].
    destruct (compute_blend_weight _ _ _) as [w | e]; [| discriminate].
    intros E; injection E as <- _.
    apply blended_control_invariant.
    exact (pp_run_step_invariant _ _ _ _ Ep). }
  destruct (use_stanley _ _ _); intros E; injection E as E _.
  - exact (stanley_run_step_invariant _ _ _ _ E).
  - exact (pp_run_step_invariant _ _ _ _ E).
Qed.

Lemma hybrid_run_step_returns (vehicle : Vehicle) (path : list Waypoint)
    (h : t) :
  path <> [] -> blend_zone h <> 0 ->
  exists c h', run_step vehicle path h = (Ok c, h').
Proof.
  intros Hne Hz.
  rewrite run_step_eq, estimate_path_curvature_eq. cbv zeta.
  set (curvature := curvature_from _ _ _).
  destruct (after_scheduling_config curvature (get_speed vehicle) h)
    as (_ & _ & Hzone & _).
  set (self := after_scheduling _ _ h) in *.
  destruct (pp_run_step_returns (pure_pursuit self) vehicle path Hne)
    as (pc & Ep).
  destruct (stanley_run_step_returns (stanley self) vehicle path Hne)
    as (sc & Es).
  destruct (compute_blend_weight_returns self curvature
              (Some (get_speed vehicle))) as (w & Ew); [congruence |].
  rewrite Ep, Es, Ew.
  destruct (mode self =? "switching")%string;
    [destruct (Rgt_dec _ _); eauto |].
  destruct (mode self =? "blending")%string; [eauto |].
  destruct (use_stanley _ _ _); eauto.
Qed.

Lemma hybrid_run_step_returns_unblended (vehicle : Vehicle)
    (path : list Waypoint) (h : t) :
  path <> [] -> mode h <> "blending"%string ->
  exists c h', run_step vehicle path h = (Ok c, h').
Proof.
  intros Hne Hm.
  rewrite run_step_eq, estimate_path_curvature_eq. cbv zeta.
  set (curvature := curvature_from _ _ _).
  destruct (after_scheduling_config curvature (get_speed vehicle) h)
    as (Hmode & _).
  set (self := after_scheduling _ _ h) in *.
  destruct (pp_run_step_returns (pure_pursuit self) vehicle path Hne)
    as (pc & Ep).
  destruct (stanley_run_step_returns (stanley self) vehicle path Hne)
    as (sc & Es).
  rewrite Ep, Es.
  destruct (mode self =? "switching")%string;
    [destruct (Rgt_dec _ _); eauto |].
  destruct (mode self =? "blending")%string eqn:Eb.
  { apply String.eqb_eq in Eb. congruence. }
  destruct (use_stanley _ _ _); eauto.
Qed.

Lemma hybrid_run_step_command (vehicle : Vehicle) (path : list Waypoint)
    (h : t) :
  path <> [] -> blend_zone h <> 0 \/ mode h <> "blending"%string ->
  exists c h', run_step vehicle path h = (Ok c, h').
Proof.
  intros Hne [Hz | Hm].
  - exact (hybrid_run_step_returns vehicle path h Hne Hz).
  - exact (hybrid_run_step_returns_unblended vehicle path h Hne Hm).
Qed.

Lemma use_stanley_iff (self : t) (curvature speed : R) :
  use_stanley self curvature speed = true <->
  stanley_condition (curvature_threshold self) (blend_zone self)
                    curvature speed.
Proof.
  unfold use_stanley, stanley_condition.
  destruct (Rgt_dec curvature (curvature_threshold self + blend_zone self));
    [tauto |].
  destruct (Rgt_dec curvature (curvature_threshold self));
    [destruct (Rlt_dec speed 8.0) |];
    (split; [discriminate || tauto | intros [? | [? ?]]; tauto || lra]).
Qed.

Lemma run_step_state_trackers (vehicle : Vehicle) (path : list Waypoint)
    (h : t) :
  pure_pursuit (snd (run_step vehicle path h))
  = pure_pursuit (after_scheduling
                    (curvature_from path
                       (closest_index (location (get_transform vehicle)) path)
                       10)
                    (get_speed vehicle) h) /\
  stanley (snd (run_step vehicle path h))
  = stanley (after_scheduling
               (curvature_from path
                  (closest_index (location (get_transform vehicle)) path) 10)
               (get_speed vehicle) h).
Proof.
  rewrite run_step_eq, estimate_path_curvature_eq. cbv zeta.
  set (self := after_scheduling _ _ h).
  destruct (mode self =? "switching")%string;
    [destruct (Rgt_dec _ _); split; reflexivity |].
  destruct (mode self =? "blending")%string.
  { destruct (PP.run_step _ _ _); [| split; reflexivity].
    destruct (St.run_step _ _ _); [| split; reflexivity].
    destruct (compute_blend_weight _ _ _); split; reflexivity. }
  destruct (use_stanley _ _ _); split; reflexivity.
Qed.

(** ** Commands, modes and controller state over one tick *)

(** C1: on a non-empty path every [run_step] (Pure Pursuit, Stanley, and the
    hybrid controller in each of its modes) returns a command whose steering
    lies in [-1, 1] and whose throttle and brake exclude each other.  For the
    hybrid controller this holds in switching, adaptive and unrecognised modes
    for every configuration, and in blending mode for every configuration
    whose [blend_zone] is not zero, the divisor of the blending ramp. *)
Theorem control_command_invariant (vehicle : Vehicle) (path : list Waypoint) :
  path <> [] ->
  (forall pp : PurePursuitController.t,
      exists c, PurePursuitController.run_step pp vehicle path = Ok c /\
                control_invariant c) /\
  (forall st : StanleyController.t,
      exists c, StanleyController.run_step st vehicle path = Ok c /\
                control_invariant c) /\
  (forall h : t,
      blend_zone h <> 0 \/ mode h <> "blending"%string ->
      exists c h', run_step vehicle path h = (Ok c, h') /\
                   control_invariant c).
Proof.
  intros Hne. split; [| split].
  - intros pp. destruct (pp_run_step_returns pp vehicle path Hne) as (c & E).
    exists c. split; [exact E | exact (pp_run_step_invariant _ _ _ _ E)].
  - intros st.
    destruct (stanley_run_step_returns st vehicle path Hne) as (c & E).
    exists c. split; [exact E | exact (stanley_run_step_invariant _ _ _ _ E)].
  - intros h Hz.
    destruct (hybrid_run_step_command vehicle path h Hne Hz) as (c & h' & E).
    exists c, h'.
    split; [exact E | exact (hybrid_run_step_invariant _ _ _ _ _ E)].
Qed.

Lemma control_command_invariant_witness :
  straight_path <> [] /\
  (blend_zone blending_hybrid <> 0 \/
   mode blending_hybrid <> "blending"%string) /\
  exists c h',
    run_step cruising_vehicle straight_path blending_hybrid = (Ok c, h') /\
    control_invariant c.
Proof.
  assert (Hz : blend_zone blending_hybrid <> 0 \/
               mode blending_hybrid <> "blending"%string).
  { left. unfold blending_hybrid, set_mode, default_hybrid, init.
    cbn [blend_zone]. lra. }
  split; [discriminate |]. split; [exact Hz |].
  apply (control_command_invariant cruising_vehicle straight_path);
    [discriminate | exact Hz].
Defined.

(** C6: in adaptive mode the hybrid controller returns the Stanley tracker's
    command exactly when [curvature > threshold + blend_zone], or
    [curvature > threshold] and [speed < 8.0], and the Pure Pursuit tracker's
    command otherwise; the recorded blend weight is 1.0 in the first case and
    0.0 in the second. *)
Theorem adaptive_mode_selection (vehicle : Vehicle) (path : list Waypoint)
    (h : t) :
  mode h = "adaptive"%string ->
  exists curvature : R,
    estimate_path_curvature (location (get_transform vehicle)) path 10
    = Ok curvature /\
    let speed := get_speed vehicle in
    let self := after_scheduling curvature speed h in
    let outcome := run_step vehicle path h in
    (forall c s : R,
        use_stanley h c s = true <->
        stanley_condition (curvature_threshold h) (blend_zone h) c s) /\
    let selected :=
      stanley_condition (curvature_threshold h) (blend_zone h)
                        curvature speed in
    (selected ->
     fst outcome = StanleyController.run_step (stanley self) vehicle path /\
     blend_weight (snd outcome) = 1.0 /\
     active_controller (snd outcome) = "Stanley"%string) /\
    (~ selected ->
     fst outcome
     = PurePursuitController.run_step (pure_pursuit self) vehicle path /\
     blend_weight (snd outcome) = 0.0 /\
     active_controller (snd outcome) = "Pure Pursuit"%string).
Proof.
  intros Hm. eexists. split; [apply estimate_path_curvature_eq |].
  cbv zeta. rewrite run_step_eq, estimate_path_curvature_eq. cbv zeta.
  set (curvature := curvature_from _ _ _).
  destruct (after_scheduling_config curvature (get_speed vehicle) h)
    as (Hmode & Hthr & Hzone & _).
  set (self := after_scheduling _ _ h) in *.
  rewrite Hmode, Hm. cbn [String.eqb Ascii.eqb Bool.eqb].
  pose proof (use_stanley_iff self curvature (get_speed vehicle)) as Hiff.
  rewrite Hthr, Hzone in Hiff.
  split; [intros c s; apply use_stanley_iff |].
  destruct (use_stanley self curvature (get_speed vehicle)); split.
  - intros _. cbn. auto.
  - intros Hn. exfalso. apply Hn, Hiff. reflexivity.
  - intros Hc. apply Hiff in Hc. discriminate.
  - intros _. cbn. auto.
Qed.

(** C7: on a non-empty path [find_lookahead_point] returns the first waypoint
    at an index in [closest, closest + 50) (within the path) that is at least
    [lookahead_distance] away from the vehicle; when there is none it returns
    the waypoint at [closest + 30] if that index is valid and the last
    waypoint of the path otherwise. *)
Theorem find_lookahead_point_spec (self : PurePursuitController.t)
    (pos : Location) (tf : Transform) (path : list Waypoint) :
  path <> [] ->
  exists target : Location,
    spec_lookahead pos path (Z.to_nat (closest_index pos path))
                   (PurePursuitController.lookahead_distance self)
    = Some target /\
    PurePursuitController.find_lookahead_point self pos tf path
    = Ok (Some target).
Proof. exact (find_lookahead_point_refines self pos tf path). Qed.

Lemma find_lookahead_point_spec_witness :
  [waypoint_at 0 0 0] <> [] /\
  exists target : Location,
    spec_lookahead origin [waypoint_at 0 0 0]
      (Z.to_nat (closest_index origin [waypoint_at 0 0 0])) 3.0 = Some target /\
    PurePursuitController.find_lookahead_point
      (PurePursuitController.init 3.0 2.875) origin
      (get_transform parked_vehicle) [waypoint_at 0 0 0]
    = Ok (Some target).
Proof.
  split; [discriminate |].
  apply (find_lookahead_point_spec (PurePursuitController.init 3.0 2.875)).
  discriminate.
Defined.

Lemma empty_path_curvature (pos : Location) :
  estimate_path_curvature pos [] 10 = Ok 0.0.
Proof. reflexivity. Qed.

(** What the hybrid [run_step] raises on an empty path, by mode. *)
Lemma empty_path_outcome (vehicle : Vehicle) (h : t) :
  (exists e, fst (run_step vehicle [] h) = Raise e /\
             (e = IndexError \/ e = AttributeError)) /\
  (mode h = "blending"%string ->
   fst (run_step vehicle [] h) = Raise IndexError) /\
  (mode h = "switching"%string ->
   (0 > curvature_threshold h ->
    fst (run_step vehicle [] h) = Raise AttributeError) /\
   (0 <= curvature_threshold h ->
    fst (run_step vehicle [] h) = Raise IndexError)) /\
  (mode h <> "switching"%string -> mode h <> "blending"%string ->
   (stanley_condition (curvature_threshold h) (blend_zone h) 0
                      (get_speed vehicle) ->
    fst (run_step vehicle [] h) = Raise AttributeError) /\
   (~ stanley_condition (curvature_threshold h) (blend_zone h) 0
                        (get_speed vehicle) ->
    fst (run_step vehicle [] h) = Raise IndexError)) /\
  (0 <= curvature_threshold h -> 0 <= blend_zone h ->
   fst (run_step vehicle [] h) = Raise IndexError).
Proof.
  rewrite run_step_eq, empty_path_curvature. cbv zeta.
  destruct (after_scheduling_config 0.0 (get_speed vehicle) h)
    as (Hmode & Hthr & Hzone & _).
  set (self := after_scheduling _ _ h) in *.
  pose proof (use_stanley_iff self 0 (get_speed vehicle)) as Hiff.
  rewrite Hthr, Hzone in Hiff.
  replace (use_stanley self 0.0 (get_speed vehicle))
    with (use_stanley self 0 (get_speed vehicle)) by (f_equal; lra).
  assert (Ep : PurePursuitController.run_step (pure_pursuit self) vehicle []
               = Raise IndexError) by reflexivity.
  assert (Es : StanleyController.run_step (stanley self) vehicle []
               = Raise AttributeError) by reflexivity.
  unfold PP.run_step, St.run_step in *. rewrite Ep, Es, Hmode, Hthr.
  destruct (mode h =? "switching")%string eqn:Esw.
  { apply String.eqb_eq in Esw.
    destruct (Rgt_dec 0.0 (curvature_threshold h)) as [Hgt | Hgt];
      cbn [fst]; (split; [eauto |]);
      (split; [intros Hb; rewrite Hb in Esw; discriminate Esw |]);
      (split; [intros _; split; intros ?; reflexivity || (exfalso; lra) |]);
      (split; [intros Hn; exfalso; exact (Hn Esw) |]);
      intros ? ?; reflexivity || (exfalso; lra). }
  apply String.eqb_neq in Esw.
  destruct (mode h =? "blending")%string eqn:Ebl.
  { apply String.eqb_eq in Ebl. cbn [fst].
    split; [eauto |]. split; [reflexivity |].
    split; [intros Hs; exfalso; exact (Esw Hs) |].
    split; [intros _ Hn; exfalso; exact (Hn Ebl) | reflexivity]. }
  apply String.eqb_neq in Ebl.
  destruct (use_stanley self 0 (get_speed vehicle)) eqn:Eu.
  - cbn [fst]. split; [eauto |].
    split; [intros Hb; exfalso; exact (Ebl Hb) |].
    split; [intros Hs; exfalso; exact (Esw Hs) |].
    assert (Hc : stanley_condition (curvature_threshold h) (blend_zone h) 0
                                   (get_speed vehicle))
      by (apply Hiff; reflexivity).
    split; [intros _ _; split; [reflexivity | intros Hn; exfalso; auto] |].
    intros Ht Hz. exfalso. unfold stanley_condition in Hc. lra.
  - cbn [fst]. split; [eauto |].
    split; [intros Hb; exfalso; exact (Ebl Hb) |].
    split; [intros Hs; exfalso; exact (Esw Hs) |].
    split; [| reflexivity].
    intros _ _; split; [| reflexivity].
    intros Hc. apply Hiff in Hc. discriminate Hc.
Qed.

(** C8, as the code has it: on an empty path the closest-waypoint scan raises
    nothing (it returns no waypoint, index 0 and an infinite distance); the
    [run_step] of each tracker still fails instead of returning a command,
    Pure Pursuit with [IndexError], Stanley with [AttributeError], and the
    hybrid controller with the exception of the tracker it calls first.  The
    curvature estimate of an empty path is 0, so that this tracker is Pure
    Pursuit in blending mode, in switching mode unless the threshold is
    negative, and in the other modes unless the adaptive rule selects Stanley
    at curvature 0; with a non-negative threshold and blend zone it is Pure
    Pursuit in every mode. *)
Theorem empty_path_raises (vehicle : Vehicle) :
  (forall (st : StanleyController.t) (pos : Location),
      StanleyController.find_closest_waypoint st pos []
      = Ok (None, 0%Z, Py.Inf)) /\
  (forall pp : PurePursuitController.t,
      PurePursuitController.run_step pp vehicle [] = Raise IndexError) /\
  (forall st : StanleyController.t,
      StanleyController.run_step st vehicle [] = Raise AttributeError) /\
  (forall pos : Location, estimate_path_curvature pos [] 10 = Ok 0) /\
  (forall h : t,
      let speed := get_speed vehicle in
      let outcome := fst (run_step vehicle [] h) in
      (exists e, outcome = Raise e /\
                 (e = IndexError \/ e = AttributeError)) /\
      (mode h = "blending"%string -> outcome = Raise IndexError) /\
      (mode h = "switching"%string ->
       (0 > curvature_threshold h -> outcome = Raise AttributeError) /\
       (0 <= curvature_threshold h -> outcome = Raise IndexError)) /\
      (mode h <> "switching"%string -> mode h <> "blending"%string ->
       (stanley_condition (curvature_threshold h) (blend_zone h) 0 speed ->
        outcome = Raise AttributeError) /\
       (~ stanley_condition (curvature_threshold h) (blend_zone h) 0 speed ->
        outcome = Raise IndexError)) /\
      (0 <= curvature_threshold h -> 0 <= blend_zone h ->
       outcome = Raise IndexError)).
Proof.
  split; [| split; [| split; [| split]]]; try reflexivity.
  { intros pos. rewrite empty_path_curvature. f_equal. lra. }
  intros h. cbv zeta. exact (empty_path_outcome vehicle h).
Qed.

Lemma empty_path_raises_witness :
  mode blending_hybrid = "blending"%string /\
  fst (run_step cruising_vehicle [] blending_hybrid) = Raise IndexError.
Proof.
  split; [reflexivity |].
  destruct (empty_path_raises cruising_vehicle) as (_ & _ & _ & _ & H).
  destruct (H blending_hybrid) as (_ & Hb & _). apply Hb. reflexivity.
Defined.

(** C8, as stated, fails: the nearest-waypoint operation returns normally on
    an empty path. *)
Lemma nearest_on_empty_path_returns :
  StanleyController.find_closest_waypoint
    (StanleyController.init 1.0 2.875) origin []
  = Ok (None, 0%Z, Py.Inf) /\
  ~ (exists e : exn,
       StanleyController.find_closest_waypoint
         (StanleyController.init 1.0 2.875) origin [] = Raise e).
Proof.
  split; [reflexivity |]. intros (e & E). discriminate E.
Qed.

Lemma parked_speed : get_speed parked_vehicle = 0.
Proof.
  unfold get_speed, parked_vehicle. cbn [get_velocity x y z].
  replace (0 ^ 2 + 0 ^ 2 + 0 ^ 2) with 0 by ring. apply sqrt_0.
Qed.

Lemma run_step_schedules (vehicle : Vehicle) (path : list Waypoint) (h : t) :
  let h' := snd (run_step vehicle path h) in
  let speed := get_speed vehicle in
  (speed_adaptive h = true ->
   PurePursuitController.lookahead_distance (pure_pursuit h')
   = adaptive_lookahead speed /\
   StanleyController.k (stanley h') = adaptive_stanley_gain speed) /\
  (speed_adaptive h = false ->
   pure_pursuit h' = pure_pursuit h /\ stanley h' = stanley h).
Proof.
  cbv zeta.
  destruct (run_step_state_trackers vehicle path h) as [-> ->].
  unfold after_scheduling. cbn [speed_adaptive set_current_curvature].
  split; intros ->; cbn; auto.
Qed.

(** C9, as the code has it: with [speed_adaptive] set, the lookahead distance
    and the gain held by the two trackers after [run_step] are the scheduled
    values for the speed of this tick, whatever they were before; they stay
    until a later tick overwrites them.  Only with [speed_adaptive] unset
    are the trackers left as they were. *)
Theorem scheduled_parameters_persist (vehicle : Vehicle)
    (path : list Waypoint) (h : t) :
  let h' := snd (run_step vehicle path h) in
  let speed := get_speed vehicle in
  (speed_adaptive h = true ->
   PurePursuitController.lookahead_distance (pure_pursuit h')
   = adaptive_lookahead speed /\
   StanleyController.k (stanley h') = adaptive_stanley_gain speed) /\
  (speed_adaptive h = false ->
   pure_pursuit h' = pure_pursuit h /\ stanley h' = stanley h).
Proof. exact (run_step_schedules vehicle path h). Qed.

Lemma scheduled_parameters_persist_witness :
  speed_adaptive default_hybrid = true /\
  StanleyController.k
    (stanley (snd (run_step parked_vehicle [waypoint_at 0 0 0] default_hybrid)))
  = adaptive_stanley_gain (get_speed parked_vehicle).
Proof.
  split; [reflexivity |].
  exact (proj2 (proj1 (scheduled_parameters_persist parked_vehicle
                         [waypoint_at 0 0 0] default_hybrid) eq_refl)).
Defined.

(** C9, as stated, fails: one tick of the default controller at standstill
    returns a command and leaves the Pure Pursuit lookahead distance at 2.0
    instead of the configured 3.0, and the Stanley gain at 1.0 instead of the
    configured 0.5. *)
Lemma scheduled_lookahead_outlives_tick :
  exists (c : VehicleControl) (h' : t),
    run_step parked_vehicle [waypoint_at 0 0 0] default_hybrid = (Ok c, h') /\
    speed_adaptive default_hybrid = true /\
    PurePursuitController.lookahead_distance (pure_pursuit default_hybrid)
    = 3.0 /\
    PurePursuitController.lookahead_distance (pure_pursuit h') = 2.0 /\
    StanleyController.k (stanley default_hybrid) = 0.5 /\
    StanleyController.k (stanley h') = 1.0 /\
    PurePursuitController.lookahead_distance (pure_pursuit h')
    <> PurePursuitController.lookahead_distance (pure_pursuit default_hybrid) /\
    StanleyController.k (stanley h')
    <> StanleyController.k (stanley default_hybrid).
Proof.
  destruct (hybrid_run_step_returns parked_vehicle [waypoint_at 0 0 0]
              default_hybrid) as (c & h' & E).
  { discriminate. }
  { unfold default_hybrid, init. cbn [blend_zone]. lra. }
  exists c, h'. split; [exact E |].
  destruct (run_step_schedules parked_vehicle [waypoint_at 0 0 0]
              default_hybrid) as [Hs _].
  rewrite E in Hs. cbn [snd] in Hs. destruct (Hs eq_refl) as [Hl Hk].
  rewrite parked_speed in Hl, Hk.
  assert (Hl2 : adaptive_lookahead 0 = 2.0).
  { unfold adaptive_lookahead, Rmin. destruct (Rle_dec _ _); lra. }
  assert (Hk2 : adaptive_stanley_gain 0 = 1.0).
  { unfold adaptive_stanley_gain. destruct (Rlt_dec 0 5.0); lra. }
  rewrite Hl2 in Hl. rewrite Hk2 in Hk. rewrite Hl, Hk.
  unfold default_hybrid, init, PurePursuitController.init,
    StanleyController.init.
  cbn [speed_adaptive pure_pursuit stanley
       PurePursuitController.lookahead_distance StanleyController.k].
  repeat split; lra.
Qed.

Lemma after_scheduling_set_mode (curvature speed : R) (m : string) (h : t) :
  after_scheduling curvature speed (set_mode m h)
  = set_mode m (after_scheduling curvature speed h).
Proof.
  unfold after_scheduling. cbn [speed_adaptive set_current_curvature set_mode].
  destruct (speed_adaptive h); reflexivity.
Qed.

Lemma run_step_other_mode (m : string) (vehicle : Vehicle)
    (path : list Waypoint) (h : t) :
  m <> "switching"%string -> m <> "blending"%string ->
  run_step vehicle path (set_mode m h)
  = (fst (run_step vehicle path (set_mode "adaptive" h)),
     set_mode m (snd (run_step vehicle path (set_mode "adaptive" h)))).
Proof.
  intros Hs Hb. apply String.eqb_neq in Hs, Hb.
  rewrite !run_step_eq, !estimate_path_curvature_eq. cbv zeta.
  rewrite !after_scheduling_set_mode.
  set (self := after_scheduling _ _ h).
  cbn [mode set_mode]. rewrite Hs, Hb. cbn [String.eqb Ascii.eqb Bool.eqb].
  change (use_stanley (set_mode m self)) with (use_stanley self).
  change (use_stanley (set_mode "adaptive" self)) with (use_stanley self).
  destruct (use_stanley self _ _); reflexivity.
Qed.

(** C10: with any mode string other than 'switching' and 'blending',
    [run_step] gives the result (command or exception) of mode 'adaptive' on
    the same inputs and prior state, leaves the same controller state apart
    from the mode string itself, hence the same telemetry, and on a non-empty
    path it returns a command. *)
Theorem unrecognised_mode_runs_adaptive (m : string) (vehicle : Vehicle)
    (path : list Waypoint) (h : t) :
  m <> "switching"%string -> m <> "blending"%string ->
  let other := run_step vehicle path (set_mode m h) in
  let adaptive := run_step vehicle path (set_mode "adaptive" h) in
  fst other = fst adaptive /\
  snd other = set_mode m (snd adaptive) /\
  get_controller_info (snd other) = get_controller_info (snd adaptive) /\
  (path <> [] -> exists c, fst other = Ok c).
Proof.
  intros Hs Hb. cbv zeta.
  rewrite (run_step_other_mode m vehicle path h Hs Hb). cbn [fst snd].
  split; [reflexivity | split; [reflexivity | split; [reflexivity |]]].
  intros Hne.
  rewrite run_step_eq, estimate_path_curvature_eq. cbv zeta.
  rewrite after_scheduling_set_mode.
  set (self := after_scheduling _ _ h).
  cbn [mode set_mode String.eqb Ascii.eqb Bool.eqb].
  destruct (use_stanley _ _ _); cbn [fst].
  - apply stanley_run_step_returns, Hne.
  - apply pp_run_step_returns, Hne.
Qed.

Lemma unrecognised_mode_runs_adaptive_witness :
  "turbo"%string <> "switching"%string /\
  "turbo"%string <> "blending"%string /\
  fst (run_step parked_vehicle [waypoint_at 0 0 0]
         (set_mode "turbo" default_hybrid))
  = fst (run_step parked_vehicle [waypoint_at 0 0 0]
           (set_mode "adaptive" default_hybrid)).
Proof.
  split; [discriminate | split; [discriminate |]].
  apply (unrecognised_mode_runs_adaptive "turbo" parked_vehicle
           [waypoint_at 0 0 0] default_hybrid); discriminate.
Defined.

(** ** Steering laws *)

Lemma pp_compute_steering_refines (self : PurePursuitController.t)
    (tf : Transform) (target : Location) :
  PurePursuitController.compute_steering self tf target
  = spec_geometric_steer tf target (PurePursuitController.wheelbase self).
Proof.
  unfold PurePursuitController.compute_steering, spec_geometric_steer,
    spec_pursuit_curvature, local_frame. cbn [fst snd].
  replace (-1.0) with (-1) by lra. replace 1.0 with 1 by lra.
  replace 2.0 with 2 by lra.
  destruct (Rgt_dec _ _); [reflexivity |].
  now replace 0.0 with 0 by lra.
Qed.

Lemma spec_geometric_steer_straight (pose : Transform) (target : Location)
    (wheelbase : R) :
  snd (local_frame pose target) = 0 ->
  spec_geometric_steer pose target wheelbase = 0.
Proof.
  intros Hy. unfold spec_geometric_steer, spec_pursuit_curvature.
  rewrite Hy.
  assert (Hc : (if Rgt_dec (fst (local_frame pose target) ^ 2 + 0 ^ 2) 0.01
                then 2 * 0 / (fst (local_frame pose target) ^ 2 + 0 ^ 2)
                else 0) = 0).
  { destruct (Rgt_dec _ _); [| reflexivity]. unfold Rdiv. ring. }
  rewrite Hc.
  replace (0 * wheelbase) with 0 by ring. rewrite atan_0.
  replace (0 / Np.radians 70) with 0 by (unfold Rdiv; ring).
  unfold Np.clip, Rmin, Rmax.
  destruct (Rle_dec 0 (-1)); destruct (Rle_dec _ 1); lra.
Qed.

(** C2: the Pure Pursuit steering is [atan(curvature * wheelbase)] divided by
    70 degrees in radians and clipped to [-1, 1], with
    [curvature = 2 * local_y / L2] when [L2 = local_x^2 + local_y^2 > 0.01]
    and 0 otherwise; when [local_y = 0] the steering is exactly 0. *)
Theorem pure_pursuit_steering_spec (self : PurePursuitController.t)
    (tf : Transform) (target : Location) :
  PurePursuitController.compute_steering self tf target
  = spec_geometric_steer tf target (PurePursuitController.wheelbase self) /\
  (snd (local_frame tf target) = 0 ->
   PurePursuitController.compute_steering self tf target = 0).
Proof.
  split; [apply pp_compute_steering_refines |].
  intros Hy. rewrite pp_compute_steering_refines.
  now apply spec_geometric_steer_straight.
Qed.

Lemma pure_pursuit_steering_spec_witness :
  snd (local_frame (get_transform parked_vehicle) (mkVector3D 4 0 0)) = 0 /\
  PurePursuitController.compute_steering
    (PurePursuitController.init 3.0 2.875)
    (get_transform parked_vehicle) (mkVector3D 4 0 0) = 0.
Proof.
  assert (Hy : snd (local_frame (get_transform parked_vehicle)
                      (mkVector3D 4 0 0)) = 0).
  { unfold local_frame, parked_vehicle, origin, Np.radians.
    cbn [snd get_transform location rotation yaw x y].
    replace (0 * (PI / 180)) with 0 by ring. rewrite sin_0. ring. }
  split; [exact Hy |].
  exact (proj2 (pure_pursuit_steering_spec
                  (PurePursuitController.init 3.0 2.875)
                  (get_transform parked_vehicle) (mkVector3D 4 0 0)) Hy).
Defined.

Lemma stanley_compute_steering_eq (self : StanleyController.t)
    (tf : Transform) (speed : R) (path : list Waypoint) (a : R) :
  StanleyController.steering_angle self tf speed path = Ok a ->
  StanleyController.compute_steering self tf speed path
  = Ok (Np.clip (a / Np.radians 70) (-1) 1).
Proof.
  intros E. unfold StanleyController.compute_steering. rewrite E.
  cbn [bind result_Monad].
  replace (-1.0) with (-1) by lra. now replace 1.0 with 1 by lra.
Qed.

(** C3: on a non-empty path the Stanley steering angle, before it is
    normalised, is [headingError + atan(k * crossTrackError / max(speed, 0.1))]
    for the nearest waypoint [w] at index [n]: the path heading is the
    direction from [w] to the waypoint after it when there is one and the
    stored heading of [w] otherwise, the heading error is the wrapped
    difference to the vehicle heading, and the cross-track error is
    [-dx*sin(yaw) + dy*cos(yaw)].  The returned steering is that angle divided
    by 70 degrees in radians and clipped; it is 0 when both errors are 0. *)
Theorem stanley_steering_spec (self : StanleyController.t) (tf : Transform)
    (speed : R) (path : list Waypoint) :
  path <> [] ->
  exists (n : nat) (w : Waypoint),
    nth_error path n = Some w /\
    closest_index (location tf) path = Z.of_nat n /\
    StanleyController.steering_angle self tf speed path
    = Ok (spec_stanley_angle tf speed (StanleyController.k self) path n w) /\
    StanleyController.compute_steering self tf speed path
    = Ok (Np.clip
            (spec_stanley_angle tf speed (StanleyController.k self) path n w
             / Np.radians 70) (-1) 1) /\
    (spec_cross_track_error tf w = 0 ->
     spec_heading_error tf path n w = 0 ->
     StanleyController.compute_steering self tf speed path = Ok 0).
Proof.
  intros Hne.
  destruct (stanley_steering_refines self tf speed path Hne)
    as (n & w & Hn & Hc & E).
  exists n, w. repeat (split; [assumption |]).
  split; [now apply stanley_compute_steering_eq |].
  intros Hcte Hhe.
  rewrite (stanley_compute_steering_eq _ _ _ _ _ E).
  unfold spec_stanley_angle. rewrite Hcte, Hhe.
  replace (StanleyController.k self * 0 / Rmax speed 0.1) with 0
    by (unfold Rdiv; ring).
  rewrite atan_0.
  replace ((0 + 0) / Np.radians 70) with 0 by (unfold Rdiv; ring).
  f_equal. unfold Np.clip, Rmin, Rmax.
  destruct (Rle_dec 0 (-1)); destruct (Rle_dec _ 1); lra.
Qed.

Lemma wrap_zero : wrap 0 = 0.
Proof.
  unfold wrap, Np.arctan2. rewrite sin_0, cos_0.
  destruct (Rlt_dec 0 1); [| lra].
  replace (0 / 1) with 0 by (unfold Rdiv; ring). apply atan_0.
Qed.

Lemma stanley_steering_spec_witness :
  [waypoint_at 0 0 0] <> [] /\
  StanleyController.compute_steering (StanleyController.init 1.0 2.875)
    (get_transform parked_vehicle) 0 [waypoint_at 0 0 0] = Ok 0.
Proof.
  split; [discriminate |].
  destruct (stanley_steering_spec (StanleyController.init 1.0 2.875)
              (get_transform parked_vehicle) 0 [waypoint_at 0 0 0])
    as (n & w & Hn & _ & _ & _ & Hzero); [discriminate |].
  destruct n as [| n]; [| destruct n; discriminate Hn].
  injection Hn as <-.
  apply Hzero.
  - unfold spec_cross_track_error, waypoint_at, parked_vehicle, origin.
    cbn [get_transform location transform rotation yaw x y]. ring.
  - unfold spec_heading_error, spec_path_heading, waypoint_at, parked_vehicle.
    cbn [nth_error get_transform location transform rotation yaw].
    replace (Np.radians 0 - Np.radians 0) with 0 by ring.
    apply wrap_zero.
Defined.

(** ** The blend weight *)

Section BlendWeight.

Variables threshold blendZone : R.
Hypothesis blendZone_pos : 0 < blendZone.

Lemma spec_blend_weight_below (c : R) :
  c < threshold - blendZone -> spec_blend_weight threshold blendZone c = 0.
Proof.
  intros H. unfold spec_blend_weight.
  destruct (Rlt_dec _ _); [reflexivity | contradiction].
Qed.

Lemma spec_blend_weight_above (c : R) :
  c > threshold + blendZone -> spec_blend_weight threshold blendZone c = 1.
Proof.
  intros H. unfold spec_blend_weight.
  destruct (Rlt_dec _ _); [lra |].
  destruct (Rgt_dec _ _); [reflexivity | contradiction].
Qed.

Lemma spec_blend_weight_inside (c : R) :
  threshold - blendZone <= c <= threshold + blendZone ->
  spec_blend_weight threshold blendZone c
  = (c - (threshold - blendZone)) / (2 * blendZone).
Proof.
  intros H. unfold spec_blend_weight.
  destruct (Rlt_dec _ _); [lra |].
  destruct (Rgt_dec _ _); [lra | reflexivity].
Qed.

Lemma ramp_scaled (c : R) :
  (c - (threshold - blendZone)) / (2 * blendZone) * (2 * blendZone)
  = c - (threshold - blendZone).
Proof. field. lra. Qed.

(** The weight never changes faster than the ramp does. *)
Lemma spec_blend_weight_step (c1 c2 : R) :
  c1 <= c2 ->
  0 <= (spec_blend_weight threshold blendZone c2
        - spec_blend_weight threshold blendZone c1) * (2 * blendZone)
    <= c2 - c1.
Proof.
  intros Hle. unfold spec_blend_weight.
  pose proof (ramp_scaled c1) as R1. pose proof (ramp_scaled c2) as R2.
  destruct (Rlt_dec c1 _); destruct (Rlt_dec c2 _);
    try destruct (Rgt_dec c1 _); try destruct (Rgt_dec c2 _);
    try lra; rewrite ?Rmult_minus_distr_r, ?R1, ?R2; lra.
Qed.

Lemma spec_blend_weight_monotone (c1 c2 : R) :
  c1 <= c2 ->
  spec_blend_weight threshold blendZone c1
  <= spec_blend_weight threshold blendZone c2.
Proof.
  intros Hle. destruct (spec_blend_weight_step c1 c2 Hle) as [H _].
  nra.
Qed.

Lemma spec_blend_weight_continuous (c0 : R) :
  continuity_pt (spec_blend_weight threshold blendZone) c0.
Proof.
  intros eps Heps. exists (eps * (2 * blendZone)).
  split; [nra |].
  intros c [_ Hd]. cbn [dist R_met] in *. unfold R_dist in *.
  apply Rmult_lt_reg_r with (2 * blendZone); [lra |].
  destruct (Rle_lt_dec c0 c) as [Hle | Hlt].
  - destruct (spec_blend_weight_step c0 c Hle) as [H1 H2].
    rewrite Rabs_right in Hd by lra.
    rewrite Rabs_right by nra. lra.
  - destruct (spec_blend_weight_step c c0 (Rlt_le _ _ Hlt)) as [H1 H2].
    rewrite Rabs_left in Hd by lra.
    rewrite Rabs_left1 by nra. lra.
Qed.

End BlendWeight.

Lemma compute_blend_weight_eq (self : t) (curvature : R) (speed : option R) :
  0 < blend_zone self ->
  compute_blend_weight self curvature speed
  = Ok (let w := spec_blend_weight (curvature_threshold self)
                   (blend_zone self) curvature in
        match speed_adaptive self, speed with
        | true, Some s => w * (1 - 0.3 * Np.clip (s / 15) 0 1)
        | _, _ => w
        end).
Proof.
  intros Hz. unfold compute_blend_weight, spec_blend_weight, divide.
  replace 0.0 with 0 by lra. replace 1.0 with 1 by lra.
  replace 15.0 with 15 by lra.
  destruct (Rlt_dec _ _);
    [cbn; destruct (speed_adaptive self); destruct speed; reflexivity |].
  destruct (Rgt_dec _ _);
    [cbn; destruct (speed_adaptive self); destruct speed; reflexivity |].
  destruct (Req_dec_T _ _); [lra |]. cbn [bind result_Monad].
  assert (Hin : 0 <= (curvature - (curvature_threshold self - blend_zone self))
                     / (2 * blend_zone self) <= 1).
  { pose proof (ramp_scaled (curvature_threshold self) (blend_zone self) Hz
                  curvature) as Hr.
    split; (apply Rmult_le_reg_r with (2 * blend_zone self); [lra |]);
      rewrite Hr; lra. }
  rewrite (clip_id _ 0 1 Hin).
  destruct (speed_adaptive self); destruct speed; reflexivity.
Qed.

Lemma compute_blend_weight_refines (self : t) (curvature : R) :
  0 < blend_zone self ->
  compute_blend_weight self curvature None
  = Ok (spec_blend_weight (curvature_threshold self) (blend_zone self)
                          curvature).
Proof.
  intros Hz. rewrite compute_blend_weight_eq by assumption. cbv zeta.
  now destruct (speed_adaptive self).
Qed.

(** C5: for [blend_zone > 0] the weight computed from the curvature, before
    the speed-adaptive factor is applied, is 0 below
    [threshold - blend_zone], 1 above [threshold + blend_zone], the linear
    ramp in between, non-decreasing in the curvature, and continuous at both
    edges of the band. *)
Theorem blend_weight_ramp (self : t) :
  0 < blend_zone self ->
  let threshold := curvature_threshold self in
  let blendZone := blend_zone self in
  (forall c, compute_blend_weight self c None
             = Ok (spec_blend_weight threshold blendZone c)) /\
  (forall c s, compute_blend_weight self c (Some s)
               = Ok (if speed_adaptive self
                     then spec_blend_weight threshold blendZone c
                          * (1 - 0.3 * Np.clip (s / 15) 0 1)
                     else spec_blend_weight threshold blendZone c)) /\
  (forall c, c < threshold - blendZone ->
             compute_blend_weight self c None = Ok 0) /\
  (forall c, c > threshold + blendZone ->
             compute_blend_weight self c None = Ok 1) /\
  (forall c, threshold - blendZone <= c <= threshold + blendZone ->
             compute_blend_weight self c None
             = Ok ((c - (threshold - blendZone)) / (2 * blendZone))) /\
  (forall c1 c2 w1 w2,
      c1 <= c2 ->
      compute_blend_weight self c1 None = Ok w1 ->
      compute_blend_weight self c2 None = Ok w2 ->
      w1 <= w2) /\
  continuity_pt (spec_blend_weight threshold blendZone)
                (threshold - blendZone) /\
  continuity_pt (spec_blend_weight threshold blendZone)
                (threshold + blendZone).
Proof.
  intros Hz. cbv zeta.
  split; [intros c; now apply compute_blend_weight_refines |].
  split.
  { intros c s. rewrite compute_blend_weight_eq by assumption. cbv zeta.
    now destruct (speed_adaptive self). }
  split.
  { intros c Hc. rewrite compute_blend_weight_refines by assumption.
    f_equal. now apply spec_blend_weight_below. }
  split.
  { intros c Hc. rewrite compute_blend_weight_refines by assumption.
    f_equal. now apply spec_blend_weight_above. }
  split.
  { intros c Hc. rewrite compute_blend_weight_refines by assumption.
    f_equal. now apply spec_blend_weight_inside. }
  split.
  { intros c1 c2 w1 w2 Hle.
    rewrite !compute_blend_weight_refines by assumption.
    intros E1 E2. injection E1 as <-. injection E2 as <-.
    now apply spec_blend_weight_monotone. }
  split; now apply spec_blend_weight_continuous.
Qed.

Lemma blend_weight_ramp_witness :
  0 < blend_zone default_hybrid /\
  compute_blend_weight default_hybrid 0.08 None = Ok 1 /\
  compute_blend_weight default_hybrid 0.01 None = Ok 0.
Proof.
  assert (Hz : 0 < blend_zone default_hybrid)
    by (unfold default_hybrid, init; cbn [blend_zone]; lra).
  destruct (blend_weight_ramp default_hybrid Hz) as (_ & _ & Hlo & Hhi & _).
  split; [exact Hz |]. split.
  - apply Hhi. unfold default_hybrid, init.
    cbn [blend_zone curvature_threshold]. lra.
  - apply Hlo. unfold default_hybrid, init.
    cbn [blend_zone curvature_threshold]. lra.
Defined.

(** ** Angle wrapping *)

Lemma arctan2_range (y x : R) : - PI < Np.arctan2 y x <= PI.
Proof.
  unfold Np.arctan2. pose proof PI_RGT_0 as Hpi.
  pose proof (atan_bound (y / x)) as Hb.
  destruct (Rlt_dec 0 x); [lra |].
  destruct (Rlt_dec x 0) as [Hx |].
  - destruct (Rle_dec 0 y) as [Hy | Hy].
    + assert (atan (y / x) <= 0).
      { destruct Hy as [Hy | <-].
        - left. rewrite <- atan_0. apply atan_increasing.
          unfold Rdiv. apply Rmult_pos_neg; [lra |].
          now apply Rinv_lt_0_compat.
        - right. replace (0 / x) with 0 by (unfold Rdiv; ring). apply atan_0. }
      lra.
    + assert (0 < atan (y / x)).
      { rewrite <- atan_0. apply atan_increasing.
        unfold Rdiv. apply Rmult_neg_neg; [lra |].
        now apply Rinv_lt_0_compat. }
      lra.
  - destruct (Rlt_dec 0 y); [lra |]. destruct (Rlt_dec y 0); lra.
Qed.

Lemma wrap_range (a : R) : - PI < wrap a <= PI.
Proof. apply arctan2_range. Qed.

Lemma unit_slope (y x : R) :
  x <> 0 -> x ^ 2 + y ^ 2 = 1 -> 1 + (y / x)² = (/ x)².
Proof.
  intros Hx H1. unfold Rsqr.
  transitivity ((x ^ 2 + y ^ 2) * (/ x * / x)).
  - field. exact Hx.
  - rewrite H1. ring.
Qed.

Lemma arctan2_unit (y x : R) :
  x ^ 2 + y ^ 2 = 1 ->
  sin (Np.arctan2 y x) = y /\ cos (Np.arctan2 y x) = x.
Proof.
  intros H1. unfold Np.arctan2.
  destruct (Rlt_dec 0 x) as [Hx | Hx].
  { rewrite sin_atan, cos_atan, unit_slope by (assumption || lra).
    rewrite sqrt_Rsqr by (left; now apply Rinv_0_lt_compat).
    split; field; lra. }
  destruct (Rlt_dec x 0) as [Hx' | Hx'].
  { assert (Hs : sqrt (1 + (y / x)²) = - / x).
    { rewrite unit_slope by (assumption || lra).
      rewrite Rsqr_neg. apply sqrt_Rsqr.
      left. apply Ropp_0_gt_lt_contravar. now apply Rinv_lt_0_compat. }
    destruct (Rle_dec 0 y).
    - rewrite neg_sin, neg_cos, sin_atan, cos_atan, Hs. split; field; lra.
    - unfold Rminus. rewrite sin_plus, cos_plus, sin_neg, cos_neg.
      rewrite sin_PI, cos_PI, sin_atan, cos_atan, Hs. split; field; lra. }
  assert (x = 0) by lra. subst x.
  assert (Hy : y * y = 1) by lra.
  destruct (Rlt_dec 0 y).
  { rewrite sin_PI2, cos_PI2. split; [nra | reflexivity]. }
  destruct (Rlt_dec y 0).
  { rewrite sin_neg, cos_neg, sin_PI2, cos_PI2. split; [nra | reflexivity]. }
  nra.
Qed.

Lemma wrap_sin_cos (a : R) : sin (wrap a) = sin a /\ cos (wrap a) = cos a.
Proof.
  apply arctan2_unit. pose proof (sin2_cos2 a) as H. unfold Rsqr in H. lra.
Qed.

(** ** The curvature estimate against its specification *)

Lemma sum_from (l : list R) : forall a : R, fold_left Rplus l a = a + total l.
Proof.
  induction l as [| b l IH]; intros a; cbn [fold_left total].
  - ring.
  - rewrite IH. ring.
Qed.

Lemma sum_total (l : list R) : Np.sum l = total l.
Proof. unfold Np.sum. rewrite sum_from. ring. Qed.

Lemma diff_fst (pts : list (R * R)) :
  Np.diff (map fst pts) = map fst (displacements pts).
Proof.
  induction pts as [| p0 [| p1 rest] IH]; try reflexivity.
  cbn [map Np.diff displacements fst] in *. now rewrite IH.
Qed.

Lemma diff_snd (pts : list (R * R)) :
  Np.diff (map snd pts) = map snd (displacements pts).
Proof.
  induction pts as [| p0 [| p1 rest] IH]; try reflexivity.
  cbn [map Np.diff displacements snd] in *. now rewrite IH.
Qed.

Lemma removelast_map {A B : Type} (f : A -> B) (l : list A) :
  removelast (map f l) = map f (removelast l).
Proof.
  induction l as [| a [| b l] IH]; try reflexivity.
  cbn [map removelast] in *. now rewrite IH.
Qed.

Lemma map2_snd_fst (f : R -> R -> R) (l : list (R * R)) :
  Np.map2 f (map snd l) (map fst l) = map (fun d => f (snd d) (fst d)) l.
Proof.
  unfold Np.map2. induction l as [| a l IH]; [reflexivity |].
  cbn [map combine fst snd]. now rewrite IH.
Qed.

Lemma map2_fst_snd (f : R -> R -> R) (l : list (R * R)) :
  Np.map2 f (map fst l) (map snd l) = map (fun d => f (fst d) (snd d)) l.
Proof.
  unfold Np.map2. induction l as [| a l IH]; [reflexivity |].
  cbn [map combine fst snd]. now rewrite IH.
Qed.

Lemma arctan2_opp_abs (y x : R) :
  Rabs (Np.arctan2 (- y) x) = Rabs (Np.arctan2 y x).
Proof.
  unfold Np.arctan2.
  assert (Hq : atan (- y / x) = - atan (y / x)).
  { replace (- y / x) with (- (y / x)) by (unfold Rdiv; ring).
    apply atan_opp. }
  rewrite Hq.
  destruct (Rlt_dec 0 x); [apply Rabs_Ropp |].
  destruct (Rlt_dec x 0).
  - destruct (Rle_dec 0 (- y)); destruct (Rle_dec 0 y).
    + assert (y = 0) by lra. subst y.
      replace (0 / x) with 0 by (unfold Rdiv; ring).
      rewrite atan_0. f_equal. ring.
    + rewrite <- Rabs_Ropp. f_equal. ring.
    + rewrite <- Rabs_Ropp. f_equal. ring.
    + lra.
  - destruct (Rlt_dec 0 (- y)); destruct (Rlt_dec 0 y); try lra.
    + destruct (Rlt_dec y 0); [| lra]. symmetry. apply Rabs_Ropp.
    + destruct (Rlt_dec (- y) 0); [| lra]. apply Rabs_Ropp.
    + destruct (Rlt_dec (- y) 0); destruct (Rlt_dec y 0); lra.
Qed.

Lemma wrap_abs (d : R) : Rabs (wrap (Rabs d)) = Rabs (wrap d).
Proof.
  unfold Rabs at 2. destruct (Rcase_abs d); [| reflexivity].
  unfold wrap. rewrite sin_neg, cos_neg. apply arctan2_opp_abs.
Qed.

Lemma heading_change_deltas (hs : list R) :
  map Rabs (map (fun h => Np.arctan2 (sin h) (cos h)) (map Rabs (Np.diff hs)))
  = heading_deltas hs.
Proof.
  induction hs as [| h0 [| h1 rest] IH]; try reflexivity.
  cbn [Np.diff map heading_deltas] in *. rewrite IH. f_equal.
  apply (wrap_abs (h1 - h0)).
Qed.

Lemma window_without_last (path : list Waypoint) (c lookahead_points : Z) :
  (0 <= c)%Z -> (0 <= lookahead_points)%Z ->
  firstn (Z.to_nat (Z.min (c + lookahead_points) (Py.len path - 1) - c))
         (skipn (Z.to_nat c) path)
  = firstn (Z.to_nat lookahead_points)
           (skipn (Z.to_nat c) (removelast path)).
Proof.
  intros Hc Hl. rewrite removelast_firstn_len.
  rewrite skipn_firstn_comm, firstn_firstn.
  f_equal. unfold Py.len. lia.
Qed.

Lemma length_displacements (pts : list (R * R)) :
  List.length (displacements pts) = (List.length pts - 1)%nat.
Proof.
  induction pts as [| p0 [| p1 rest] IH]; try reflexivity.
  cbn [displacements List.length] in *. rewrite IH. lia.
Qed.

Lemma curvature_from_turning_rate (path : list Waypoint) (c : Z) :
  (0 <= c)%Z ->
  curvature_from path c 10
  = spec_curvature (removelast path) (Z.to_nat c) 10.
Proof.
  intros Hc. unfold curvature_from, spec_curvature.
  rewrite (window_without_last path c 10 Hc) by lia.
  change (Z.to_nat 10) with 10%nat.
  set (pts := map position (firstn 10 (skipn (Z.to_nat c) (removelast path)))).
  assert (Hlen : Z.of_nat (List.length pts)
                 = Z.max 0 (Z.min (c + 10) (Py.len path - 1) - c)).
  { unfold pts. rewrite length_map, length_firstn, length_skipn.
    rewrite removelast_firstn_len, length_firstn. unfold Py.len. lia. }
  unfold turning_rate.
  destruct (Z.ltb_spec (Z.min (c + 10) (Py.len path - 1) - c) 3) as [Hs | Hs].
  { destruct (Nat.ltb_spec (List.length pts) 3); [lra | lia]. }
  destruct (Nat.ltb_spec (List.length pts) 3); [lia |].
  rewrite diff_fst, diff_snd, map2_snd_fst.
  rewrite !removelast_map, map2_fst_snd.
  rewrite heading_change_deltas, !sum_total.
  unfold Py.len. rewrite length_map, length_displacements.
  destruct (Z.ltb_spec (Z.of_nat (List.length pts)) 3); [lia |].
  destruct (Z.gtb_spec (Z.of_nat (List.length pts - 1)) 1); [| lia].
  change (map (fun d => Np.arctan2 (snd d) (fst d)) (displacements pts))
    with (map segment_heading (displacements pts)).
  change (map (fun d => sqrt (fst d ^ 2 + snd d ^ 2))
              (removelast (displacements pts)))
    with (map segment_length (removelast (displacements pts))).
  destruct (Rgt_dec _ 0.1); destruct (Rle_dec _ 0.1); lra.
Qed.

Lemma distance_nonneg (a b : Location) : 0 <= distance a b.
Proof. apply sqrt_pos. Qed.

Lemma closest_loop_at_zero (pos : Location) (l : list Waypoint) :
  forall (i : Z) (w : option Waypoint) (c : Z),
    closest_loop pos (Py.enumerate_from i l) (Py.Fin 0) w c = (Py.Fin 0, w, c).
Proof.
  induction l as [| a l IH]; intros i w c; [reflexivity |].
  cbn [Py.enumerate_from closest_loop]. unfold Py.lt.
  destruct (Rlt_dec _ 0) as [H | _].
  - pose proof (distance_nonneg pos (location (transform a))). lra.
  - apply IH.
Qed.

Lemma closest_index_at_first (pos : Location) (w : Waypoint)
    (l : list Waypoint) :
  distance pos (location (transform w)) = 0 -> closest_index pos (w :: l) = 0%Z.
Proof.
  intros Hd. unfold closest_index, Py.enumerate.
  cbn [Py.enumerate_from closest_loop Py.lt]. rewrite Hd.
  now rewrite closest_loop_at_zero.
Qed.

Lemma distance_origin_first :
  distance origin (location (transform (waypoint_at 0 0 0))) = 0.
Proof.
  unfold distance, origin, waypoint_at. cbn [location transform x y z].
  replace ((0 - 0) ^ 2 + (0 - 0) ^ 2 + (0 - 0) ^ 2) with 0 by ring.
  apply sqrt_0.
Qed.


Lemma arctan2_east : Np.arctan2 0 1 = 0.
Proof.
  unfold Np.arctan2. destruct (Rlt_dec 0 1); [| lra].
  replace (0 / 1) with 0 by (unfold Rdiv; ring). apply atan_0.
Qed.

Lemma arctan2_north : Np.arctan2 1 0 = PI / 2.
Proof.
  unfold Np.arctan2.
  destruct (Rlt_dec 0 0); [lra |].
  destruct (Rlt_dec 0 1); [reflexivity | lra].
Qed.


Lemma estimate_path_curvature_drops_last (pos : Location)
    (path : list Waypoint) :
  estimate_path_curvature pos path 10
  = Ok (spec_curvature (removelast path)
          (Z.to_nat (closest_index pos path)) 10).
Proof.
  rewrite estimate_path_curvature_eq. f_equal.
  apply curvature_from_turning_rate, closest_index_nonneg.
Qed.

Lemma estimate_path_curvature_inner (pos : Location) (path : list Waypoint) :
  (closest_index pos path + 10 < Py.len path)%Z ->
  estimate_path_curvature pos path 10
  = Ok (spec_curvature path (Z.to_nat (closest_index pos path)) 10).
Proof.
  intros Hin. rewrite estimate_path_curvature_drops_last. f_equal.
  pose proof (closest_index_nonneg pos path) as Hc.
  unfold spec_curvature. f_equal. f_equal.
  rewrite removelast_firstn_len, skipn_firstn_comm, firstn_firstn.
  f_equal. unfold Py.len in Hin. lia.
Qed.

Lemma estimate_path_curvature_few_points (pos : Location)
    (path : list Waypoint) :
  (List.length (skipn (Z.to_nat (closest_index pos path)) path) < 3)%nat ->
  estimate_path_curvature pos path 10 = Ok 0.
Proof.
  intros Hfew. rewrite estimate_path_curvature_drops_last. f_equal.
  unfold spec_curvature, turning_rate.
  destruct (Nat.ltb_spec
              (List.length
                 (map position
                    (firstn 10
                       (skipn (Z.to_nat (closest_index pos path))
                              (removelast path))))) 3) as [_ | Hge];
    [reflexivity |].
  rewrite length_map, length_firstn, length_skipn in Hge.
  rewrite removelast_firstn_len, length_firstn in Hge.
  rewrite length_skipn in Hfew. lia.
Qed.

Lemma corner_path_estimate :
  estimate_path_curvature origin corner_path 10 = Ok 0.
Proof.
  rewrite estimate_path_curvature_eq.
  unfold corner_path.
  rewrite (closest_index_at_first _ _ _ distance_origin_first).
  unfold curvature_from.
  match goal with
  | |- Ok (if ?b then _ else _) = _ => replace b with true by reflexivity
  end.
  f_equal. lra.
Qed.

Lemma corner_path_turning : spec_curvature corner_path 0 10 = PI / 2.
Proof.
  unfold spec_curvature, corner_path, turning_rate, waypoint_at, position.
  cbn [skipn firstn map List.length Nat.ltb Nat.leb displacements removelast
       location transform x y fst snd heading_deltas total].
  unfold segment_length, segment_heading. cbn [fst snd].
  replace (1 - 0) with 1 by ring. replace (0 - 0) with 0 by ring.
  replace (1 - 1) with 0 by ring.
  replace (1 ^ 2 + 0 ^ 2) with 1 by ring. rewrite sqrt_1.
  rewrite arctan2_east, arctan2_north.
  replace (PI / 2 - 0) with (PI / 2) by ring.
  unfold wrap. rewrite sin_PI2, cos_PI2, arctan2_north.
  pose proof PI_RGT_0 as Hpi.
  rewrite Rabs_right by lra.
  destruct (Rle_dec (1 + 0) 0.1); [lra |].
  field.
Qed.

(** C4, where the code departs from it: on the three-waypoint corner path,
    seen from its first waypoint, three points are available and the
    specified estimate is pi/2 (one right-angle turn over an arc of length
    1), but [estimate_path_curvature] returns 0: its window stops before the
    last waypoint of the path. *)
Theorem curvature_misses_last_waypoint :
  closest_index origin corner_path = 0%Z /\
  List.length (firstn 10 (skipn 0 corner_path)) = 3%nat /\
  spec_curvature corner_path 0 10 = PI / 2 /\
  estimate_path_curvature origin corner_path 10 = Ok 0 /\
  PI / 2 <> 0.
Proof.
  split; [exact (closest_index_at_first _ _ _ distance_origin_first) |].
  split; [reflexivity |].
  split; [exact corner_path_turning |].
  split; [exact corner_path_estimate |].
  pose proof PI_RGT_0. lra.
Qed.

(** ** The closest index is the nearest waypoint *)

Lemma lt_fin (d r : R) : Py.lt d (Py.Fin r) = true <-> d < r.
Proof.
  unfold Py.lt. destruct (Rlt_dec d r); split; intros; try assumption;
    try reflexivity; try discriminate; contradiction.
Qed.

Lemma lt_trans_ext (e d : R) (m : Py.efloat) :
  e <= d -> Py.lt d m = true -> Py.lt e m = true.
Proof.
  destruct m as [| r]; [reflexivity |].
  rewrite !lt_fin. lra.
Qed.

Lemma not_lt_ext (e d : R) (m : Py.efloat) :
  Py.lt d m = false -> Py.lt e m = true -> e < d.
Proof.
  destruct m as [| r]; [discriminate |].
  rewrite lt_fin. unfold Py.lt. destruct (Rlt_dec d r); [discriminate |].
  intros _ He. lra.
Qed.

(** What the loop leaves: either nothing changed, or the state describes a
    waypoint [wj] at position [j] of the list that is strictly closer than
    the initial minimum and than every waypoint before it; in both cases no
    waypoint of the list is closer than the final minimum. *)
Lemma closest_loop_minimum (pos : Location) (l : list Waypoint) :
  forall (i : Z) (m : Py.efloat) (w : option Waypoint) (c : Z),
    let r := closest_loop pos (Py.enumerate_from i l) m w c in
    (forall j wj, nth_error l j = Some wj ->
       Py.lt (distance pos (location (transform wj))) (fst (fst r)) = false) /\
    (r = (m, w, c) \/
     exists (j : nat) (wj : Waypoint),
       nth_error l j = Some wj /\
       r = (Py.Fin (distance pos (location (transform wj))), Some wj,
            (i + Z.of_nat j)%Z) /\
       Py.lt (distance pos (location (transform wj))) m = true /\
       forall j' wj', (j' < j)%nat -> nth_error l j' = Some wj' ->
         distance pos (location (transform wj))
         < distance pos (location (transform wj'))).
Proof.
  induction l as [| a l IH]; intros i m w c; cbv zeta.
  - split; [| now left]. intros [| j] wj Hj; discriminate Hj.
  - cbn [Py.enumerate_from closest_loop].
    set (d := distance pos (location (transform a))).
    destruct (Py.lt d m) eqn:Hlt.
    + destruct (IH (i + 1)%Z (Py.Fin d) (Some a) i)
        as (HB & [E | (j & wj & Hj & E & Hm & Hearlier)]); rewrite E in *;
        cbn [fst] in *.
      * split.
        -- intros [| j] wj Hj; [| now apply (HB j)].
           injection Hj as <-. fold d. unfold Py.lt.
           destruct (Rlt_dec d d); [lra | reflexivity].
        -- right. exists 0%nat, a. split; [reflexivity |].
           split; [fold d; f_equal; lia |]. split; [exact Hlt |].
           intros j' wj' Hj'. lia.
      * apply lt_fin in Hm. split.
        -- intros [| j0] wj0 Hj0; [| now apply (HB j0)].
           injection Hj0 as <-. fold d. unfold Py.lt.
           destruct (Rlt_dec d _); [lra | reflexivity].
        -- right. exists (S j), wj. split; [exact Hj |].
           split; [f_equal; lia |].
           split; [apply (lt_trans_ext _ d); [lra | exact Hlt] |].
           intros [| j'] wj' Hlt' Hj'.
           ++ injection Hj' as <-. exact Hm.
           ++ apply (Hearlier j'); [lia | exact Hj'].
    + destruct (IH (i + 1)%Z m w c)
        as (HB & [E | (j & wj & Hj & E & Hm & Hearlier)]); rewrite E in *;
        cbn [fst] in *.
      * split; [| now left].
        intros [| j] wj Hj; [| now apply (HB j)].
        injection Hj as <-. exact Hlt.
      * split.
        -- intros [| j0] wj0 Hj0; [| now apply (HB j0)].
           injection Hj0 as <-. fold d. unfold Py.lt.
           pose proof (not_lt_ext _ _ _ Hlt Hm).
           destruct (Rlt_dec d _); [lra | reflexivity].
        -- right. exists (S j), wj. split; [exact Hj |].
           split; [f_equal; lia |]. split; [exact Hm |].
           intros [| j'] wj' Hlt' Hj'.
           ++ injection Hj' as <-. exact (not_lt_ext _ _ _ Hlt Hm).
           ++ apply (Hearlier j'); [lia | exact Hj'].
Qed.

(** WaypointLocator.nearest: the closest index is the first index at which
    the distance to the vehicle is minimal. *)
Lemma closest_index_nearest (pos : Location) (path : list Waypoint) :
  path <> [] ->
  exists (n : nat) (w : Waypoint),
    closest_index pos path = Z.of_nat n /\
    nth_error path n = Some w /\
    (forall j wj, nth_error path j = Some wj ->
       distance pos (location (transform w))
       <= distance pos (location (transform wj))) /\
    (forall j wj, (j < n)%nat -> nth_error path j = Some wj ->
       distance pos (location (transform w))
       < distance pos (location (transform wj))).
Proof.
  intros Hne. unfold closest_index, Py.enumerate.
  destruct (closest_loop_minimum pos path 0%Z Py.Inf None 0%Z)
    as (HB & [E | (n & w & Hn & E & _ & Hearlier)]).
  - destruct path as [| a l]; [congruence |].
    specialize (HB 0%nat a eq_refl). rewrite E in HB. discriminate HB.
  - rewrite E in *. cbn [fst snd] in *.
    exists n, w. split; [reflexivity |]. split; [exact Hn |].
    split; [| exact Hearlier].
    intros j wj Hj. specialize (HB j wj Hj). unfold Py.lt in HB.
    destruct (Rlt_dec _ _); [discriminate | lra].
Qed.

(** ** A straight path, end to end *)

Lemma distance_on_axis (a h : R) :
  0 <= a -> distance origin (location (transform (waypoint_at a 0 h))) = a.
Proof.
  intros Ha. unfold distance, origin, waypoint_at.
  cbn [location transform x y z].
  replace ((a - 0) ^ 2 + (0 - 0) ^ 2 + (0 - 0) ^ 2) with (a * a) by ring.
  now apply sqrt_square.
Qed.

Example straight_line_lookahead :
  PurePursuitController.find_lookahead_point
    (PurePursuitController.init 3.0 2.875) origin
    (get_transform cruising_vehicle) straight_path
  = Ok (Some (mkVector3D 4 0 0)).
Proof.
  destruct (find_lookahead_point_refines
              (PurePursuitController.init 3.0 2.875) origin
              (get_transform cruising_vehicle) straight_path)
    as (target & Hs & ->); [discriminate |].
  do 2 f_equal.
  unfold straight_path in Hs.
  rewrite (closest_index_at_first _ _ _ distance_origin_first) in Hs.
  unfold spec_lookahead in Hs.
  cbn [Z.to_nat skipn firstn find PurePursuitController.init
       PurePursuitController.lookahead_distance] in Hs.
  unfold far_enough in Hs.
  rewrite !distance_on_axis in Hs by lra.
  destruct (Rge_dec 0 3.0); [lra |].
  destruct (Rge_dec 2 3.0); [lra |].
  destruct (Rge_dec 4 3.0); [| lra].
  injection Hs as <-. reflexivity.
Qed.

Example straight_line_step :
  PurePursuitController.run_step (PurePursuitController.init 3.0 2.875)
    cruising_vehicle straight_path
  = Ok (mkVehicleControl 0.5 0 0.0 false false).
Proof.
  unfold PurePursuitController.run_step.
  change (location (get_transform cruising_vehicle)) with origin.
  rewrite straight_line_lookahead. cbn [bind result_Monad].
  assert (Hst : PurePursuitController.compute_steering
                  (PurePursuitController.init 3.0 2.875)
                  (get_transform cruising_vehicle) (mkVector3D 4 0 0) = 0).
  { rewrite pp_compute_steering_refines.
    apply spec_geometric_steer_straight.
    unfold local_frame, cruising_vehicle, origin, Np.radians.
    cbn [snd get_transform location rotation yaw x y].
    replace (0 * (PI / 180)) with 0 by ring. rewrite sin_0. ring. }
  rewrite Hst.
  assert (Hsp : PurePursuitController.get_speed cruising_vehicle = 5).
  { unfold PurePursuitController.get_speed, cruising_vehicle.
    cbn [get_velocity x y z].
    replace (5 ^ 2 + 0 ^ 2 + 0 ^ 2) with (5 * 5) by ring.
    apply sqrt_square. lra. }
  rewrite Hsp.
  cbn [PurePursuitController.init PurePursuitController.target_speed].
  destruct (Rlt_dec 5 (30.0 / 3.6)); [reflexivity | lra].
Qed.

(** ** Adaptive mode on a single-waypoint path *)

Lemma adaptive_mode_selection_witness :
  mode default_hybrid = "adaptive"%string /\
  ~ stanley_condition (curvature_threshold default_hybrid)
      (blend_zone default_hybrid) 0 (get_speed parked_vehicle) /\
  blend_weight (snd (run_step parked_vehicle [waypoint_at 0 0 0]
                       default_hybrid)) = 0.0 /\
  active_controller (snd (run_step parked_vehicle [waypoint_at 0 0 0]
                            default_hybrid)) = "Pure Pursuit"%string.
Proof.
  assert (Hn : ~ stanley_condition (curvature_threshold default_hybrid)
                   (blend_zone default_hybrid) 0 (get_speed parked_vehicle)).
  { unfold stanley_condition, default_hybrid, init.
    cbn [curvature_threshold blend_zone]. lra. }
  split; [reflexivity | split; [exact Hn |]].
  destruct (adaptive_mode_selection parked_vehicle [waypoint_at 0 0 0]
              default_hybrid eq_refl) as (curvature & E & _ & _ & Hpp).
  rewrite estimate_path_curvature_few_points in E
    by (rewrite length_skipn; cbn [List.length]; lia).
  injection E as <-.
  exact (proj2 (Hpp Hn)).
Defined.

(** * Further properties of the controllers *)

Lemma local_frame_heading_zero (pos : Location) (a b c : R) :
  local_frame (mkTransform pos (mkRotation 0)) (mkVector3D a b c)
  = (a - x pos, b - y pos).
Proof.
  unfold local_frame, Np.radians. cbn [location rotation yaw x y].
  replace (0 * (PI / 180)) with 0 by ring. rewrite sin_0, cos_0.
  f_equal; ring.
Qed.

Lemma fast_speed : get_speed fast_vehicle = 15.
Proof.
  unfold get_speed, fast_vehicle. cbn [get_velocity x y z].
  replace (15 ^ 2 + 0 ^ 2 + 0 ^ 2) with (15 * 15) by ring.
  apply sqrt_square. lra.
Qed.

Lemma single_waypoint_curvature (vehicle : Vehicle) (w : Waypoint) :
  estimate_path_curvature (location (get_transform vehicle)) [w] 10 = Ok 0.
Proof.
  apply estimate_path_curvature_few_points.
  rewrite length_skipn. cbn [List.length]. lia.
Qed.

(** ** The nearest waypoint and the lookahead target *)

(** X1: on a non-empty path [find_closest_waypoint] returns the waypoint at
    the first index whose distance to the vehicle is minimal, that index,
    and that distance. *)
Theorem find_closest_waypoint_nearest (self : StanleyController.t)
    (pos : Location) (path : list Waypoint) :
  path <> [] ->
  exists (n : nat) (w : Waypoint),
    StanleyController.find_closest_waypoint self pos path
    = Ok (Some w, Z.of_nat n, Py.Fin (distance pos (location (transform w)))) /\
    nth_error path n = Some w /\
    (forall j wj, nth_error path j = Some wj ->
       distance pos (location (transform w))
       <= distance pos (location (transform wj))) /\
    (forall j wj, (j < n)%nat -> nth_error path j = Some wj ->
       distance pos (location (transform w))
       < distance pos (location (transform wj))).
Proof.
  intros Hne. unfold StanleyController.find_closest_waypoint, Py.enumerate.
  destruct (closest_loop_minimum pos path 0%Z Py.Inf None 0%Z)
    as (HB & [E | (n & w & Hn & E & _ & Hearlier)]).
  - destruct path as [| a l]; [congruence |].
    specialize (HB 0%nat a eq_refl). rewrite E in HB. discriminate HB.
  - rewrite E in *. cbn [fst] in HB.
    exists n, w. split; [reflexivity |]. split; [exact Hn |].
    split; [| exact Hearlier].
    intros j wj Hj. specialize (HB j wj Hj). unfold Py.lt in HB.
    destruct (Rlt_dec _ _); [discriminate | lra].
Qed.

Lemma find_closest_waypoint_nearest_witness :
  straight_path <> [] /\
  exists (n : nat) (w : Waypoint),
    StanleyController.find_closest_waypoint (StanleyController.init 1.0 2.875)
      origin straight_path
    = Ok (Some w, Z.of_nat n,
          Py.Fin (distance origin (location (transform w)))) /\
    nth_error straight_path n = Some w /\
    (forall j wj, nth_error straight_path j = Some wj ->
       distance origin (location (transform w))
       <= distance origin (location (transform wj))) /\
    (forall j wj, (j < n)%nat -> nth_error straight_path j = Some wj ->
       distance origin (location (transform w))
       < distance origin (location (transform wj))).
Proof.
  split; [discriminate |].
  apply (find_closest_waypoint_nearest (StanleyController.init 1.0 2.875)).
  discriminate.
Defined.

Lemma find_some_in {A : Type} (f : A -> bool) (l : list A) (a : A) :
  find f l = Some a -> exists i, nth_error l i = Some a /\ f a = true.
Proof.
  induction l as [| b l IH]; [discriminate |].
  cbn [find]. destruct (f b) eqn:Hb.
  - intros E; injection E as <-. exists 0%nat. auto.
  - intros E. destruct (IH E) as (i & Hi & Ha). exists (S i). auto.
Qed.

Lemma nth_error_firstn_skipn {A : Type} (l : list A) (n k i : nat) (a : A) :
  nth_error (firstn k (skipn n l)) i = Some a -> nth_error l (n + i) = Some a.
Proof.
  intros H.
  assert (Hi : (i < k)%nat).
  { destruct (Nat.lt_ge_cases i k) as [Hlt | Hge]; [exact Hlt |].
    assert (Hnone : nth_error (firstn k (skipn n l)) i = None).
    { apply nth_error_None. rewrite length_firstn. lia. }
    congruence. }
  rewrite nth_error_firstn in H.
  destruct (Nat.ltb_spec i k); [| lia].
  now rewrite nth_error_skipn in H.
Qed.

(** X2: on a non-empty path the lookahead target is the location of a
    waypoint at or after the closest index; it is at least
    [lookahead_distance] away whenever some waypoint among the 50 from the
    closest index is. *)
Theorem lookahead_target_not_behind (self : PurePursuitController.t)
    (pos : Location) (tf : Transform) (path : list Waypoint) :
  path <> [] ->
  exists (i : nat) (w : Waypoint),
    (Z.to_nat (closest_index pos path) <= i)%nat /\
    nth_error path i = Some w /\
    PurePursuitController.find_lookahead_point self pos tf path
    = Ok (Some (location (transform w))) /\
    ((exists j wj,
         (Z.to_nat (closest_index pos path) <= j
          < Z.to_nat (closest_index pos path) + 50)%nat /\
         nth_error path j = Some wj /\
         distance pos (location (transform wj))
         >= PurePursuitController.lookahead_distance self) ->
     distance pos (location (transform w))
     >= PurePursuitController.lookahead_distance self).
Proof.
  intros Hne.
  destruct (find_lookahead_point_refines self pos tf path Hne)
    as (target & Hs & E).
  pose proof (closest_index_range pos path Hne) as Hr.
  set (n := Z.to_nat (closest_index pos path)) in *.
  assert (Hn : (n < List.length path)%nat) by (unfold n, Py.len in *; lia).
  unfold spec_lookahead in Hs.
  destruct (find _ _) as [w |] eqn:Hf.
  - destruct (find_some_in _ _ _ Hf) as (i & Hi & Hfar).
    apply nth_error_firstn_skipn in Hi.
    exists (n + i)%nat, w. injection Hs as <-.
    split; [lia |]. split; [exact Hi |]. split; [exact E |].
    intros _. unfold far_enough in Hfar.
    destruct (Rge_dec _ _); [assumption | discriminate].
  - assert (Hnone : forall j wj,
               (n <= j < n + 50)%nat -> nth_error path j = Some wj ->
               ~ distance pos (location (transform wj))
                 >= PurePursuitController.lookahead_distance self).
    { intros j wj Hj Hwj Hge.
      pose proof (find_none _ _ Hf wj) as Hno.
      assert (Hin : In wj (firstn 50 (skipn n path))).
      { apply (nth_error_In _ (j - n)).
        rewrite nth_error_firstn.
        destruct (Nat.ltb_spec (j - n) 50); [| lia].
        rewrite nth_error_skipn.
        now replace (n + (j - n))%nat with j by lia. }
      specialize (Hno Hin). unfold far_enough in Hno.
      destruct (Rge_dec _ _); [discriminate | contradiction]. }
    destruct (nth_error path (n + 30)) as [w |] eqn:H30.
    + exists (n + 30)%nat, w. injection Hs as <-.
      split; [lia |]. split; [exact H30 |]. split; [exact E |].
      intros (j & wj & Hj & Hwj & Hge). exfalso. exact (Hnone j wj Hj Hwj Hge).
    + destruct (nth_error path (List.length path - 1)) as [w |] eqn:Hl;
        [| discriminate].
      exists (List.length path - 1)%nat, w. injection Hs as <-.
      split; [lia |]. split; [exact Hl |]. split; [exact E |].
      intros (j & wj & Hj & Hwj & Hge). exfalso. exact (Hnone j wj Hj Hwj Hge).
Qed.

Lemma lookahead_target_not_behind_witness :
  straight_path <> [] /\
  exists (i : nat) (w : Waypoint),
    (Z.to_nat (closest_index origin straight_path) <= i)%nat /\
    nth_error straight_path i = Some w /\
    PurePursuitController.find_lookahead_point
      (PurePursuitController.init 3.0 2.875) origin
      (get_transform cruising_vehicle) straight_path
    = Ok (Some (location (transform w))).
Proof.
  split; [discriminate |].
  destruct (lookahead_target_not_behind
              (PurePursuitController.init 3.0 2.875) origin
              (get_transform cruising_vehicle) straight_path)
    as (i & w & Hi & Hw & E & _); [discriminate |].
  exists i, w. auto.
Defined.

(** ** Steering laws: signs, symmetry and error bounds *)

Lemma clip_pos (a : R) : 0 < a -> 0 < Np.clip a (-1) 1.
Proof.
  intros H. unfold Np.clip, Rmin, Rmax.
  destruct (Rle_dec a (-1)); destruct (Rle_dec _ 1); lra.
Qed.

Lemma clip_opp (a : R) : Np.clip (- a) (-1) 1 = - Np.clip a (-1) 1.
Proof.
  unfold Np.clip, Rmin, Rmax.
  destruct (Rle_dec (- a) (-1)); destruct (Rle_dec a (-1));
    repeat destruct (Rle_dec _ 1); lra.
Qed.

Lemma clip_neg (a : R) : a < 0 -> Np.clip a (-1) 1 < 0.
Proof.
  intros H. replace a with (- - a) by ring. rewrite clip_opp.
  pose proof (clip_pos (- a)). lra.
Qed.

Lemma normalised_atan_pos (u : R) : 0 < u -> 0 < atan u / Np.radians 70.
Proof.
  intros Hu. apply Rdiv_lt_0_compat; [| apply radians_70_pos].
  rewrite <- atan_0. now apply atan_increasing.
Qed.

(** X3: with a positive wheelbase the Pure Pursuit steering has the sign of
    [local_y] when the target is more than 0.1 away in the vehicle frame
    ([L2 > 0.01]), and is exactly 0 when the target is within 0.1. *)
Theorem pure_pursuit_steers_toward_target (self : PurePursuitController.t)
    (tf : Transform) (target : Location) :
  0 < PurePursuitController.wheelbase self ->
  let local_x := fst (local_frame tf target) in
  let local_y := snd (local_frame tf target) in
  let steer := PurePursuitController.compute_steering self tf target in
  (local_x ^ 2 + local_y ^ 2 <= 0.01 -> steer = 0) /\
  (local_x ^ 2 + local_y ^ 2 > 0.01 ->
   (0 < local_y -> 0 < steer) /\ (local_y < 0 -> steer < 0)).
Proof.
  intros Hwb. cbv zeta. rewrite pp_compute_steering_refines.
  unfold spec_geometric_steer, spec_pursuit_curvature.
  set (lx := fst (local_frame tf target)).
  set (ly := snd (local_frame tf target)).
  destruct (Rgt_dec (lx ^ 2 + ly ^ 2) 0.01) as [Hfar | Hnear].
  - split; [lra |]. intros _.
    assert (Hinv : 0 < / (lx ^ 2 + ly ^ 2)) by (apply Rinv_0_lt_compat; lra).
    split; intros Hy.
    + apply clip_pos, normalised_atan_pos.
      unfold Rdiv. repeat apply Rmult_lt_0_compat; lra.
    + apply clip_neg.
      replace (2 * ly / (lx ^ 2 + ly ^ 2)
               * PurePursuitController.wheelbase self)
        with (- (2 * (- ly) / (lx ^ 2 + ly ^ 2)
                 * PurePursuitController.wheelbase self))
        by (unfold Rdiv; ring).
      rewrite atan_opp.
      replace (- atan (2 * - ly / (lx ^ 2 + ly ^ 2)
                       * PurePursuitController.wheelbase self)
               / Np.radians 70)
        with (- (atan (2 * - ly / (lx ^ 2 + ly ^ 2)
                       * PurePursuitController.wheelbase self)
                 / Np.radians 70)) by (unfold Rdiv; ring).
      apply Ropp_lt_gt_0_contravar. apply Rlt_gt, normalised_atan_pos.
      unfold Rdiv. repeat apply Rmult_lt_0_compat; lra.
  - split; [| lra]. intros _.
    replace (0 * PurePursuitController.wheelbase self) with 0 by ring.
    rewrite atan_0. replace (0 / Np.radians 70) with 0 by (unfold Rdiv; ring).
    unfold Np.clip, Rmin, Rmax.
    destruct (Rle_dec 0 (-1)); destruct (Rle_dec _ 1); lra.
Qed.

Lemma pure_pursuit_steers_toward_target_witness :
  0 < PurePursuitController.wheelbase (PurePursuitController.init 3.0 2.875) /\
  0 < PurePursuitController.compute_steering
        (PurePursuitController.init 3.0 2.875)
        (get_transform parked_vehicle) (mkVector3D 4 1 0).
Proof.
  assert (Hwb : 0 < PurePursuitController.wheelbase
                      (PurePursuitController.init 3.0 2.875))
    by (cbn; lra).
  split; [exact Hwb |].
  destruct (pure_pursuit_steers_toward_target
              (PurePursuitController.init 3.0 2.875)
              (get_transform parked_vehicle) (mkVector3D 4 1 0) Hwb)
    as (_ & Hfar).
  unfold parked_vehicle, origin in *. cbn [get_transform] in *.
  rewrite local_frame_heading_zero in Hfar. cbn [fst snd x y] in Hfar.
  apply Hfar; lra.
Defined.

(** X4: two targets that are mirror images of each other across the vehicle
    axis (same [local_x], opposite [local_y]) get opposite Pure Pursuit
    steering. *)
Theorem pure_pursuit_steering_odd (self : PurePursuitController.t)
    (tf : Transform) (left right : Location) :
  fst (local_frame tf right) = fst (local_frame tf left) ->
  snd (local_frame tf right) = - snd (local_frame tf left) ->
  PurePursuitController.compute_steering self tf right
  = - PurePursuitController.compute_steering self tf left.
Proof.
  intros Hx Hy. rewrite !pp_compute_steering_refines.
  unfold spec_geometric_steer, spec_pursuit_curvature. rewrite Hx, Hy.
  set (lx := fst (local_frame tf left)).
  set (ly := snd (local_frame tf left)).
  replace (lx ^ 2 + (- ly) ^ 2) with (lx ^ 2 + ly ^ 2) by ring.
  rewrite <- clip_opp. f_equal.
  destruct (Rgt_dec _ _).
  - replace (2 * - ly / (lx ^ 2 + ly ^ 2)
             * PurePursuitController.wheelbase self)
      with (- (2 * ly / (lx ^ 2 + ly ^ 2)
               * PurePursuitController.wheelbase self))
      by (unfold Rdiv; ring).
    rewrite atan_opp. unfold Rdiv. ring.
  - replace (0 * PurePursuitController.wheelbase self) with 0 by ring.
    rewrite atan_0. unfold Rdiv. ring.
Qed.

Lemma pure_pursuit_steering_odd_witness :
  fst (local_frame (get_transform parked_vehicle) (mkVector3D 4 (-1) 0))
  = fst (local_frame (get_transform parked_vehicle) (mkVector3D 4 1 0)) /\
  PurePursuitController.compute_steering
    (PurePursuitController.init 3.0 2.875)
    (get_transform parked_vehicle) (mkVector3D 4 (-1) 0)
  = - PurePursuitController.compute_steering
        (PurePursuitController.init 3.0 2.875)
        (get_transform parked_vehicle) (mkVector3D 4 1 0).
Proof.
  assert (Hx : fst (local_frame (get_transform parked_vehicle)
                      (mkVector3D 4 (-1) 0))
               = fst (local_frame (get_transform parked_vehicle)
                        (mkVector3D 4 1 0))).
  { unfold parked_vehicle, origin. cbn [get_transform].
    now rewrite !local_frame_heading_zero. }
  split; [exact Hx |].
  apply pure_pursuit_steering_odd; [exact Hx |].
  unfold parked_vehicle, origin. cbn [get_transform].
  rewrite !local_frame_heading_zero. cbn [snd x y]. ring.
Defined.

Lemma lateral_component_bound (dx dy dz a : R) :
  Rabs (- dx * sin a + dy * cos a) <= sqrt (dx ^ 2 + dy ^ 2 + dz ^ 2).
Proof.
  rewrite <- sqrt_Rsqr_abs. apply sqrt_le_1_alt. unfold Rsqr.
  pose proof (sin2_cos2 a) as H. unfold Rsqr in H.
  assert (Hid : (- dx * sin a + dy * cos a) * (- dx * sin a + dy * cos a)
                + (dx * cos a + dy * sin a) * (dx * cos a + dy * sin a)
                = (dx * dx + dy * dy) * (sin a * sin a + cos a * cos a))
    by ring.
  rewrite H in Hid.
  pose proof (Rle_0_sqr (dx * cos a + dy * sin a)) as H1. unfold Rsqr in H1.
  pose proof (Rle_0_sqr dz) as H2. unfold Rsqr in H2.
  nra.
Qed.

(** X5: [compute_cross_track_error] raises [AttributeError] when there is no
    closest waypoint; on a non-empty path the cross-track error of the
    closest waypoint is, in absolute value, at most the distance
    [find_closest_waypoint] reports for it. *)
Theorem cross_track_error_within_distance (self : StanleyController.t)
    (tf : Transform) (path : list Waypoint) :
  StanleyController.compute_cross_track_error self tf None
  = Raise AttributeError /\
  (path <> [] ->
   exists (w : Waypoint) (n : Z) (d cte : R),
     StanleyController.find_closest_waypoint self (location tf) path
     = Ok (Some w, n, Py.Fin d) /\
     StanleyController.compute_cross_track_error self tf (Some w) = Ok cte /\
     Rabs cte <= d).
Proof.
  split; [reflexivity |]. intros Hne.
  destruct (stanley_closest self (location tf) path Hne) as (w & n & _ & _ & E).
  exists w, (Z.of_nat n), (distance (location tf) (location (transform w))).
  eexists. split; [exact E |]. split; [reflexivity |].
  apply lateral_component_bound.
Qed.

Lemma cross_track_error_within_distance_witness :
  straight_path <> [] /\
  exists (w : Waypoint) (n : Z) (d cte : R),
    StanleyController.find_closest_waypoint (StanleyController.init 1.0 2.875)
      (location (get_transform parked_vehicle)) straight_path
    = Ok (Some w, n, Py.Fin d) /\
    StanleyController.compute_cross_track_error
      (StanleyController.init 1.0 2.875) (get_transform parked_vehicle)
      (Some w) = Ok cte /\
    Rabs cte <= d.
Proof.
  split; [discriminate |].
  apply (cross_track_error_within_distance
           (StanleyController.init 1.0 2.875) (get_transform parked_vehicle)
           straight_path).
  discriminate.
Defined.

(** X6: [compute_heading_error] raises [AttributeError] when there is no
    closest waypoint; with one it returns an angle in (-pi, pi], and exactly
    0 when there is no next waypoint and the waypoint's stored yaw equals the
    vehicle's. *)
Theorem heading_error_wrapped (self : StanleyController.t) (tf : Transform)
    (closest : Waypoint) (next : option Waypoint) :
  (forall nw, StanleyController.compute_heading_error self tf None nw
              = Raise AttributeError) /\
  (exists e, StanleyController.compute_heading_error self tf (Some closest) next
             = Ok e /\ - PI < e <= PI) /\
  (yaw (rotation (transform closest)) = yaw (rotation tf) ->
   StanleyController.compute_heading_error self tf (Some closest) None = Ok 0).
Proof.
  split; [intros [nw |]; reflexivity |]. split.
  - unfold StanleyController.compute_heading_error.
    destruct next as [nw |]; cbn [Py.attr bind result_Monad];
      eexists; (split; [reflexivity | apply arctan2_range]).
  - intros Hyaw. unfold StanleyController.compute_heading_error.
    cbn [Py.attr bind result_Monad]. rewrite Hyaw.
    replace (Np.radians (yaw (rotation tf)) - Np.radians (yaw (rotation tf)))
      with 0 by ring.
    f_equal. apply wrap_zero.
Qed.

Lemma heading_error_wrapped_witness :
  yaw (rotation (transform (waypoint_at 0 0 0)))
  = yaw (rotation (get_transform parked_vehicle)) /\
  StanleyController.compute_heading_error (StanleyController.init 1.0 2.875)
    (get_transform parked_vehicle) (Some (waypoint_at 0 0 0)) None = Ok 0.
Proof.
  split; [reflexivity |].
  apply (heading_error_wrapped (StanleyController.init 1.0 2.875)
           (get_transform parked_vehicle) (waypoint_at 0 0 0) None).
  reflexivity.
Defined.

(** ** The speed scheduler, the blend weight and the curvature sign *)

(** X9: the scheduled lookahead distance never exceeds 6, is at least 2 for
    a non-negative speed, equals 6 from 40/3 m/s on, and does not decrease
    when the speed increases. *)
Theorem adaptive_lookahead_bounds (speed : R) :
  adaptive_lookahead speed <= 6 /\
  (0 <= speed -> 2 <= adaptive_lookahead speed) /\
  (speed * 3 >= 40 -> adaptive_lookahead speed = 6) /\
  (forall faster, speed <= faster ->
     adaptive_lookahead speed <= adaptive_lookahead faster).
Proof.
  unfold adaptive_lookahead, Rmin.
  repeat split; intros; repeat destruct (Rle_dec _ _); lra.
Qed.

Lemma adaptive_lookahead_bounds_witness :
  0 <= 5 /\ 2 <= adaptive_lookahead 5 /\
  5 <= 20 /\ adaptive_lookahead 5 <= adaptive_lookahead 20.
Proof.
  destruct (adaptive_lookahead_bounds 5) as (_ & Hlow & _ & Hmono).
  split; [lra |]. split; [apply Hlow; lra |].
  split; [lra |]. apply Hmono. lra.
Defined.

(** X10: the scheduled Stanley gain lies in [0.5, 1] and does not increase
    when the speed increases. *)
Theorem adaptive_stanley_gain_bounds (speed : R) :
  0.5 <= adaptive_stanley_gain speed <= 1 /\
  (forall faster, speed <= faster ->
     adaptive_stanley_gain faster <= adaptive_stanley_gain speed).
Proof.
  unfold adaptive_stanley_gain. split.
  - destruct (Rlt_dec speed 5.0); [lra |]. destruct (Rlt_dec speed 10.0); lra.
  - intros faster Hle.
    destruct (Rlt_dec speed 5.0); destruct (Rlt_dec faster 5.0);
      destruct (Rlt_dec speed 10.0); destruct (Rlt_dec faster 10.0); lra.
Qed.

Lemma adaptive_stanley_gain_bounds_witness :
  5 <= 12 /\ adaptive_stanley_gain 12 <= adaptive_stanley_gain 5.
Proof.
  split; [lra |].
  apply (adaptive_stanley_gain_bounds 5). lra.
Defined.

Lemma clip_unit (a : R) : 0 <= Np.clip a 0 1 <= 1.
Proof.
  unfold Np.clip, Rmin, Rmax.
  destruct (Rle_dec a 0); destruct (Rle_dec _ 1); lra.
Qed.

Lemma compute_blend_weight_range (self : t) (curvature : R)
    (speed : option R) (w : R) :
  compute_blend_weight self curvature speed = Ok w -> 0 <= w <= 1.
Proof.
  unfold compute_blend_weight, divide.
  assert (Hf : forall s, 0.7 <= 1.0 - 0.3 * Np.clip (s / 15.0) 0.0 1.0 <= 1).
  { intros s. replace 0.0 with 0 by lra. replace 1.0 with 1 by lra.
    pose proof (clip_unit (s / 15.0)). lra. }
  assert (Hw : forall base, 0 <= base <= 1 ->
             match speed_adaptive self, speed with
             | true, Some s =>
                 Ok (base * (1.0 - 0.3 * Np.clip (s / 15.0) 0.0 1.0))
             | _, _ => Ok base
             end = Ok w -> 0 <= w <= 1).
  { intros base Hb.
    destruct (speed_adaptive self); destruct speed as [s |];
      intros E; injection E as <-; try lra.
    pose proof (Hf s). nra. }
  destruct (Rlt_dec _ _); [cbn [bind result_Monad]; apply Hw; lra |].
  destruct (Rgt_dec _ _); [cbn [bind result_Monad]; apply Hw; lra |].
  destruct (Req_dec_T _ _); [discriminate |]. cbn [bind result_Monad].
  apply Hw. replace 0.0 with 0 by lra. replace 1.0 with 1 by lra.
  apply clip_unit.
Qed.

(** X11: with [blend_zone > 0] and [speed_adaptive] set, the blend weight
    computed with a speed lies between 0.7 times and 1 times the weight
    computed without one, which is in [0, 1]; it equals the latter at
    standstill and 0.7 times it from 15 m/s on. *)
Theorem blend_weight_speed_factor (self : t) (curvature speed : R) :
  0 < blend_zone self -> speed_adaptive self = true ->
  exists base w,
    compute_blend_weight self curvature None = Ok base /\
    compute_blend_weight self curvature (Some speed) = Ok w /\
    0 <= base <= 1 /\ 0.7 * base <= w <= base /\
    (speed <= 0 -> w = base) /\
    (15 <= speed -> w = 0.7 * base).
Proof.
  intros Hz Ha.
  exists (spec_blend_weight (curvature_threshold self) (blend_zone self)
                            curvature).
  eexists. split; [now apply compute_blend_weight_refines |].
  split; [rewrite compute_blend_weight_eq by assumption; cbv zeta;
          rewrite Ha; reflexivity |].
  pose proof (compute_blend_weight_range self curvature None _
                (compute_blend_weight_refines self curvature Hz)) as Hb.
  pose proof (clip_unit (speed / 15)) as Hc.
  split; [exact Hb |]. split; [nra |]. split; intros Hs.
  - assert (E : Np.clip (speed / 15) 0 1 = 0).
    { unfold Np.clip, Rmin, Rmax.
      destruct (Rle_dec (speed / 15) 0); destruct (Rle_dec _ 1); lra. }
    rewrite E. lra.
  - assert (E : Np.clip (speed / 15) 0 1 = 1).
    { unfold Np.clip, Rmin, Rmax.
      destruct (Rle_dec (speed / 15) 0); destruct (Rle_dec _ 1); lra. }
    rewrite E. lra.
Qed.

Lemma blend_weight_speed_factor_witness :
  0 < blend_zone default_hybrid /\
  speed_adaptive default_hybrid = true /\
  exists base w,
    compute_blend_weight default_hybrid 0.05 None = Ok base /\
    compute_blend_weight default_hybrid 0.05 (Some 15) = Ok w /\
    w = 0.7 * base.
Proof.
  assert (Hz : 0 < blend_zone default_hybrid)
    by (unfold default_hybrid, init; cbn [blend_zone]; lra).
  split; [exact Hz |]. split; [reflexivity |].
  destruct (blend_weight_speed_factor default_hybrid 0.05 15 Hz eq_refl)
    as (base & w & Eb & Ew & _ & _ & _ & Hfast).
  exists base, w. split; [exact Eb |]. split; [exact Ew |].
  apply Hfast. lra.
Defined.

Lemma total_heading_deltas_nonneg (hs : list R) :
  0 <= total (heading_deltas hs).
Proof.
  induction hs as [| h0 [| h1 rest] IH]; cbn [heading_deltas total] in *;
    try lra.
  pose proof (Rabs_pos (wrap (h1 - h0))). lra.
Qed.

Lemma turning_rate_nonneg (pts : list (R * R)) : 0 <= turning_rate pts.
Proof.
  unfold turning_rate. destruct (_ <? _)%nat; [lra |].
  destruct (Rle_dec _ _) as [| Harc]; [lra |].
  apply Rmult_le_pos; [apply total_heading_deltas_nonneg |].
  left. apply Rinv_0_lt_compat. lra.
Qed.

(** X12: [estimate_path_curvature] returns for every path, the empty one
    included, and what it returns is never negative. *)
Theorem estimate_path_curvature_nonneg (pos : Location)
    (path : list Waypoint) :
  exists curvature,
    estimate_path_curvature pos path 10 = Ok curvature /\ 0 <= curvature.
Proof.
  eexists. split; [apply estimate_path_curvature_drops_last |].
  apply turning_rate_nonneg.
Qed.

Lemma displacements_tail (p : R * R) (l : list (R * R)) (d : R * R) :
  In d (displacements l) -> In d (displacements (p :: l)).
Proof.
  destruct l as [| q l]; [intros [] |]. intros H. right. exact H.
Qed.

Lemma displacements_skipn (k : nat) (l : list (R * R)) (d : R * R) :
  In d (displacements (skipn k l)) -> In d (displacements l).
Proof.
  revert l. induction k as [| k IH]; intros l H; [exact H |].
  destruct l as [| p l]; [exact H |].
  apply displacements_tail, IH. exact H.
Qed.

Lemma displacements_firstn (k : nat) (l : list (R * R)) (d : R * R) :
  In d (displacements (firstn k l)) -> In d (displacements l).
Proof.
  revert l. induction k as [| k IH]; intros l H; [destruct H |].
  destruct l as [| p [| q l]]; [destruct H | destruct k; destruct H |].
  destruct k as [| k]; [destruct H |].
  change (firstn (S (S k)) (p :: q :: l))
    with (p :: firstn (S k) (q :: l)) in H.
  change (firstn (S k) (q :: l)) with (q :: firstn k l) in H.
  change (firstn (S k) (q :: l)) with (q :: firstn k l) in IH.
  cbn [displacements] in H. destruct H as [<- | H].
  - left. reflexivity.
  - right. apply (IH (q :: l)). exact H.
Qed.

Lemma heading_deltas_constant (hs : list R) (h : R) :
  (forall a, In a hs -> a = h) -> total (heading_deltas hs) = 0.
Proof.
  induction hs as [| h0 [| h1 rest] IH]; intros Hall; try reflexivity.
  change (total (heading_deltas (h0 :: h1 :: rest)))
    with (Rabs (wrap (h1 - h0)) + total (heading_deltas (h1 :: rest))).
  rewrite IH by (intros a Ha; apply Hall; now right).
  rewrite (Hall h0) by now left.
  rewrite (Hall h1) by (right; now left).
  replace (h - h) with 0 by ring. rewrite wrap_zero, Rabs_R0. ring.
Qed.

(** X13: when all segments of the path have the same heading, the estimated
    curvature is exactly 0, wherever the vehicle is. *)
Theorem straight_path_has_no_curvature (pos : Location)
    (path : list Waypoint) (heading : R) :
  (forall d, In d (displacements (map position path)) ->
             segment_heading d = heading) ->
  estimate_path_curvature pos path 10 = Ok 0.
Proof.
  intros Hall. rewrite estimate_path_curvature_drops_last. f_equal.
  unfold spec_curvature, turning_rate.
  destruct (_ <? _)%nat; [reflexivity |].
  destruct (Rle_dec _ _); [reflexivity |].
  rewrite (heading_deltas_constant _ heading); [unfold Rdiv; ring |].
  intros a Ha. apply in_map_iff in Ha. destruct Ha as (d & <- & Hd).
  apply Hall.
  rewrite removelast_firstn_len in Hd.
  rewrite <- firstn_map, <- skipn_map, <- firstn_map in Hd.
  apply displacements_firstn, displacements_skipn, displacements_firstn in Hd.
  exact Hd.
Qed.

Lemma straight_path_has_no_curvature_witness :
  (forall d, In d (displacements (map position straight_path)) ->
             segment_heading d = 0) /\
  estimate_path_curvature origin straight_path 10 = Ok 0.
Proof.
  assert (H : forall d, In d (displacements (map position straight_path)) ->
                        segment_heading d = 0).
  { intros d Hd. unfold straight_path, waypoint_at, position in Hd.
    cbn [map displacements location transform x y fst snd In] in Hd.
    assert (Heast : forall a b, 0 < a -> b = 0 ->
                      segment_heading (a, b) = 0).
    { intros a b Ha ->. unfold segment_heading, Np.arctan2. cbn [fst snd].
      destruct (Rlt_dec 0 a); [| contradiction].
      replace (0 / a) with 0 by (unfold Rdiv; ring). apply atan_0. }
    destruct Hd as [<- | [<- | [<- | []]]]; apply Heast; lra. }
  split; [exact H |].
  exact (straight_path_has_no_curvature origin straight_path 0 H).
Defined.

(** ** The modes of the hybrid controller *)

Ltac run_step_cases :=
  rewrite ?run_step_eq, ?estimate_path_curvature_eq; cbv zeta;
  repeat match goal with
  | |- context [if (mode ?s =? ?m)%string then _ else _] =>
      destruct (mode s =? m)%string eqn:?
  | |- context [if Rgt_dec ?a ?b then _ else _] => destruct (Rgt_dec a b)
  | |- context [if use_stanley ?s ?c ?v then _ else _] =>
      destruct (use_stanley s c v) eqn:?
  | |- context [match PP.run_step ?s ?v ?p with _ => _ end] =>
      destruct (PP.run_step s v p) eqn:?
  | |- context [match St.run_step ?s ?v ?p with _ => _ end] =>
      destruct (St.run_step s v p) eqn:?
  | |- context [match compute_blend_weight ?s ?c ?v with _ => _ end] =>
      destruct (compute_blend_weight s c v) eqn:?
  end.

(** X18: [run_step] never changes the curvature threshold, the blend zone,
    the mode, the [speed_adaptive] flag, or the wheelbase and target speed
    of either tracker, whatever it returns or raises; the curvature it
    records is the estimate for this tick. *)
Theorem run_step_keeps_configuration (vehicle : Vehicle)
    (path : list Waypoint) (h : t) :
  let h' := snd (run_step vehicle path h) in
  curvature_threshold h' = curvature_threshold h /\
  blend_zone h' = blend_zone h /\
  mode h' = mode h /\
  speed_adaptive h' = speed_adaptive h /\
  PurePursuitController.wheelbase (pure_pursuit h')
  = PurePursuitController.wheelbase (pure_pursuit h) /\
  PurePursuitController.target_speed (pure_pursuit h')
  = PurePursuitController.target_speed (pure_pursuit h) /\
  StanleyController.wheelbase (stanley h')
  = StanleyController.wheelbase (stanley h) /\
  StanleyController.target_speed (stanley h')
  = StanleyController.target_speed (stanley h) /\
  estimate_path_curvature (location (get_transform vehicle)) path 10
  = Ok (current_curvature h').
Proof.
  cbv zeta. rewrite estimate_path_curvature_eq.
  run_step_cases; unfold after_scheduling;
    cbn [speed_adaptive set_current_curvature];
    destruct (speed_adaptive h) eqn:Ha; cbn; rewrite ?Ha; tauto.
Qed.

(** X19: if the recorded blend weight is in [0, 1] before [run_step], it is
    in [0, 1] after it, for every input: in switching, adaptive and
    unrecognised modes for every configuration, and in blending mode for
    every configuration whose [blend_zone] is not zero (at zero the ramp
    divides by zero). *)
Theorem blend_weight_stays_in_unit_interval (vehicle : Vehicle)
    (path : list Waypoint) (h : t) :
  blend_zone h <> 0 \/ mode h <> "blending"%string ->
  0 <= blend_weight h <= 1 ->
  0 <= blend_weight (snd (run_step vehicle path h)) <= 1.
Proof.
  intros _ Hw.
  assert (Hs : forall c s, blend_weight (after_scheduling c s h)
                           = blend_weight h).
  { intros c s. unfold after_scheduling.
    cbn [speed_adaptive set_current_curvature].
    destruct (speed_adaptive h); reflexivity. }
  run_step_cases; cbn [snd blend_weight set_blend_weight set_active_controller];
    rewrite ?Hs; try lra.
  eapply compute_blend_weight_range; eassumption.
Qed.

Lemma blend_weight_stays_in_unit_interval_witness :
  (blend_zone blending_hybrid <> 0 \/
   mode blending_hybrid <> "blending"%string) /\
  0 <= blend_weight blending_hybrid <= 1 /\
  0 <= blend_weight (snd (run_step cruising_vehicle straight_path
                            blending_hybrid)) <= 1.
Proof.
  assert (Hz : blend_zone blending_hybrid <> 0 \/
               mode blending_hybrid <> "blending"%string).
  { left. unfold blending_hybrid, set_mode, default_hybrid, init.
    cbn [blend_zone]. lra. }
  assert (H : 0 <= blend_weight blending_hybrid <= 1).
  { unfold blending_hybrid, set_mode, default_hybrid, init.
    cbn [blend_weight]. lra. }
  split; [exact Hz |]. split; [exact H |].
  exact (blend_weight_stays_in_unit_interval cruising_vehicle
           straight_path blending_hybrid Hz H).
Defined.

(** X14: in switching mode [run_step] returns the Stanley tracker's result
    when the curvature exceeds the threshold and the Pure Pursuit tracker's
    result otherwise, labels the controller accordingly, and leaves the
    recorded blend weight as it was. *)
Theorem switching_mode_selection (vehicle : Vehicle) (path : list Waypoint)
    (h : t) :
  mode h = "switching"%string ->
  exists curvature : R,
    estimate_path_curvature (location (get_transform vehicle)) path 10
    = Ok curvature /\
    let self := after_scheduling curvature (get_speed vehicle) h in
    let outcome := run_step vehicle path h in
    (curvature > curvature_threshold h ->
     fst outcome = StanleyController.run_step (stanley self) vehicle path /\
     active_controller (snd outcome) = "Stanley"%string) /\
    (curvature <= curvature_threshold h ->
     fst outcome
     = PurePursuitController.run_step (pure_pursuit self) vehicle path /\
     active_controller (snd outcome) = "Pure Pursuit"%string) /\
    blend_weight (snd outcome) = blend_weight h.
Proof.
  intros Hm. eexists. split; [apply estimate_path_curvature_eq |].
  cbv zeta. rewrite run_step_eq, estimate_path_curvature_eq. cbv zeta.
  set (curvature := curvature_from _ _ _).
  destruct (after_scheduling_config curvature (get_speed vehicle) h)
    as (Hmode & Hthr & _ & _).
  assert (Hbw : blend_weight (after_scheduling curvature (get_speed vehicle) h)
                = blend_weight h).
  { unfold after_scheduling. cbn [speed_adaptive set_current_curvature].
    destruct (speed_adaptive h); reflexivity. }
  set (self := after_scheduling _ _ h) in *.
  rewrite Hmode, Hm, Hthr. cbn [String.eqb Ascii.eqb Bool.eqb].
  destruct (Rgt_dec curvature (curvature_threshold h));
    cbn [fst snd active_controller blend_weight set_active_controller];
    (split; [| split]); try exact Hbw; intros; (lra || auto).
Qed.

Lemma switching_mode_selection_witness :
  mode switching_hybrid = "switching"%string /\
  0 <= curvature_threshold switching_hybrid /\
  active_controller (snd (run_step parked_vehicle [waypoint_at 0 0 0]
                            switching_hybrid)) = "Pure Pursuit"%string /\
  blend_weight (snd (run_step parked_vehicle [waypoint_at 0 0 0]
                       switching_hybrid)) = blend_weight switching_hybrid.
Proof.
  assert (Ht : 0 <= curvature_threshold switching_hybrid)
    by (unfold switching_hybrid, default_hybrid, init;
        cbn [curvature_threshold set_mode]; lra).
  split; [reflexivity | split; [exact Ht |]].
  destruct (switching_mode_selection parked_vehicle [waypoint_at 0 0 0]
              switching_hybrid eq_refl) as (curvature & E & _ & Hpp & Hbw).
  rewrite single_waypoint_curvature in E. injection E as <-.
  split; [exact (proj2 (Hpp Ht)) | exact Hbw].
Defined.

Lemma pp_run_step_shape (self : PurePursuitController.t) (vehicle : Vehicle)
    (path : list Waypoint) (c : VehicleControl) :
  PurePursuitController.run_step self vehicle path = Ok c ->
  hand_brake c = false /\ manual_gear_shift c = false /\
  ((PurePursuitController.get_speed vehicle
    < PurePursuitController.target_speed self / 3.6 /\
    throttle c = 0.5 /\ brake c = 0) \/
   (~ PurePursuitController.get_speed vehicle
      < PurePursuitController.target_speed self / 3.6 /\
    throttle c = 0 /\ brake c = 0.3)).
Proof.
  unfold PurePursuitController.run_step.
  destruct path as [| w0 rest].
  { discriminate. }
  destruct (find_lookahead_point_refines self
              (location (get_transform vehicle)) (get_transform vehicle)
              (w0 :: rest)) as (target & _ & E); [discriminate |].
  rewrite E. cbn [bind result_Monad].
  destruct (Rlt_dec _ _) as [Hs | Hs]; intros Ec; injection Ec as <-;
    cbn [hand_brake manual_gear_shift throttle brake];
    (split; [reflexivity | split; [reflexivity |]]).
  - left. repeat split; [exact Hs | lra].
  - right. repeat split; [exact Hs | lra].
Qed.

Lemma stanley_run_step_shape (self : StanleyController.t) (vehicle : Vehicle)
    (path : list Waypoint) (c : VehicleControl) :
  StanleyController.run_step self vehicle path = Ok c ->
  hand_brake c = false /\ manual_gear_shift c = false /\
  ((StanleyController.get_speed vehicle
    < StanleyController.target_speed self / 3.6 /\
    throttle c = 0.5 /\ brake c = 0) \/
   (~ StanleyController.get_speed vehicle
      < StanleyController.target_speed self / 3.6 /\
    throttle c = 0 /\ brake c = 0.3)).
Proof.
  unfold StanleyController.run_step.
  destruct (StanleyController.compute_steering _ _ _ _);
    cbn [bind result_Monad]; [| discriminate].
  destruct (Rlt_dec _ _) as [Hs | Hs]; intros Ec; injection Ec as <-;
    cbn [hand_brake manual_gear_shift throttle brake];
    (split; [reflexivity | split; [reflexivity |]]).
  - left. repeat split; [exact Hs | lra].
  - right. repeat split; [exact Hs | lra].
Qed.

(** X7: a command returned by the [run_step] of either tracker has throttle
    0.5 and brake 0 when the speed is below [target_speed / 3.6], throttle 0
    and brake 0.3 otherwise, and both flags off; in particular Pure Pursuit's
    full-brake branch for a missing target is never taken. *)
Theorem trackers_speed_control (vehicle : Vehicle) (path : list Waypoint)
    (c : VehicleControl) :
  (forall pp,
      PurePursuitController.run_step pp vehicle path = Ok c ->
      hand_brake c = false /\ manual_gear_shift c = false /\
      ((PurePursuitController.get_speed vehicle
        < PurePursuitController.target_speed pp / 3.6 /\
        throttle c = 0.5 /\ brake c = 0) \/
       (~ PurePursuitController.get_speed vehicle
          < PurePursuitController.target_speed pp / 3.6 /\
        throttle c = 0 /\ brake c = 0.3))) /\
  (forall st,
      StanleyController.run_step st vehicle path = Ok c ->
      hand_brake c = false /\ manual_gear_shift c = false /\
      ((StanleyController.get_speed vehicle
        < StanleyController.target_speed st / 3.6 /\
        throttle c = 0.5 /\ brake c = 0) \/
       (~ StanleyController.get_speed vehicle
          < StanleyController.target_speed st / 3.6 /\
        throttle c = 0 /\ brake c = 0.3))).
Proof.
  split; intros s E.
  - exact (pp_run_step_shape s vehicle path c E).
  - exact (stanley_run_step_shape s vehicle path c E).
Qed.

Lemma trackers_speed_control_witness :
  PurePursuitController.run_step (PurePursuitController.init 3.0 2.875)
    cruising_vehicle straight_path
  = Ok (mkVehicleControl 0.5 0 0.0 false false) /\
  hand_brake (mkVehicleControl 0.5 0 0.0 false false) = false /\
  manual_gear_shift (mkVehicleControl 0.5 0 0.0 false false) = false.
Proof.
  split; [exact straight_line_step |].
  destruct (proj1 (trackers_speed_control cruising_vehicle straight_path
                     (mkVehicleControl 0.5 0 0.0 false false))
              (PurePursuitController.init 3.0 2.875) straight_line_step)
    as (H1 & H2 & _).
  split; assumption.
Defined.

(** X8: every command returned by the hybrid controller, in any mode, has
    both flags off and is either (throttle 0.5, brake 0) or (throttle 0,
    brake 0.3). *)
Theorem hybrid_command_never_full_brake (vehicle : Vehicle)
    (path : list Waypoint) (h h' : t) (c : VehicleControl) :
  run_step vehicle path h = (Ok c, h') ->
  hand_brake c = false /\ manual_gear_shift c = false /\
  ((throttle c = 0.5 /\ brake c = 0) \/ (throttle c = 0 /\ brake c = 0.3)).
Proof.
  assert (Hpp : forall s c0, PP.run_step s vehicle path = Ok c0 ->
            hand_brake c0 = false /\ manual_gear_shift c0 = false /\
            ((throttle c0 = 0.5 /\ brake c0 = 0) \/
             (throttle c0 = 0 /\ brake c0 = 0.3))).
  { intros s c0 E. destruct (pp_run_step_shape s vehicle path c0 E)
      as (H1 & H2 & [H | H]); tauto. }
  assert (Hst : forall s c0, St.run_step s vehicle path = Ok c0 ->
            hand_brake c0 = false /\ manual_gear_shift c0 = false /\
            ((throttle c0 = 0.5 /\ brake c0 = 0) \/
             (throttle c0 = 0 /\ brake c0 = 0.3))).
  { intros s c0 E. destruct (stanley_run_step_shape s vehicle path c0 E)
      as (H1 & H2 & [H | H]); tauto. }
  run_step_cases; intros E; injection E as E _;
    try discriminate; try (now apply (Hst _ _ E)); try (now apply (Hpp _ _ E)).
  subst c. cbn [blended_control hand_brake manual_gear_shift throttle brake].
  match goal with
  | H : PP.run_step _ _ _ = Ok ?pc |- _ => destruct (Hpp _ _ H) as (_ & _ & Hb)
  end.
  tauto.
Qed.

Lemma hybrid_command_never_full_brake_witness :
  exists (c : VehicleControl) (h' : t),
    run_step parked_vehicle [waypoint_at 0 0 0] default_hybrid = (Ok c, h') /\
    hand_brake c = false /\ manual_gear_shift c = false /\
    ((throttle c = 0.5 /\ brake c = 0) \/ (throttle c = 0 /\ brake c = 0.3)).
Proof.
  destruct (hybrid_run_step_returns parked_vehicle [waypoint_at 0 0 0]
              default_hybrid) as (c & h' & E).
  { discriminate. }
  { unfold default_hybrid, init. cbn [blend_zone]. lra. }
  exists c, h'. split; [exact E |].
  exact (hybrid_command_never_full_brake _ _ _ _ _ E).
Defined.

Lemma convex_between (a b w : R) :
  0 <= w <= 1 -> Rmin a b <= (1 - w) * a + w * b <= Rmax a b.
Proof.
  intros Hw. unfold Rmin, Rmax. destruct (Rle_dec a b); nra.
Qed.

(** X15: in blending mode, on a non-empty path and with [blend_zone] not 0,
    [run_step] returns a command whose steering is exactly
    [(1 - w) * pp_steer + w * stanley_steer] for the computed weight [w] in
    [0, 1] (the final clip changes nothing), hence between the two trackers'
    steerings; throttle and brake are Pure Pursuit's, and [w] and its label
    are recorded. *)
Theorem blending_mode_command (vehicle : Vehicle) (path : list Waypoint)
    (h : t) :
  mode h = "blending"%string -> path <> [] -> blend_zone h <> 0 ->
  exists (curvature w : R) (pc sc c : VehicleControl),
    estimate_path_curvature (location (get_transform vehicle)) path 10
    = Ok curvature /\
    let self := after_scheduling curvature (get_speed vehicle) h in
    PurePursuitController.run_step (pure_pursuit self) vehicle path = Ok pc /\
    StanleyController.run_step (stanley self) vehicle path = Ok sc /\
    compute_blend_weight self curvature (Some (get_speed vehicle)) = Ok w /\
    run_step vehicle path h
    = (Ok c, set_active_controller (blended_label w)
               (set_blend_weight w self)) /\
    0 <= w <= 1 /\
    steer c = (1 - w) * steer pc + w * steer sc /\
    Rmin (steer pc) (steer sc) <= steer c <= Rmax (steer pc) (steer sc) /\
    throttle c = throttle pc /\ brake c = brake pc.
Proof.
  intros Hm Hne Hz.
  exists (curvature_from path
            (closest_index (location (get_transform vehicle)) path) 10).
  rewrite run_step_eq, estimate_path_curvature_eq. cbv zeta.
  set (curvature := curvature_from _ _ _).
  destruct (after_scheduling_config curvature (get_speed vehicle) h)
    as (Hmode & _ & Hzone & _).
  set (self := after_scheduling _ _ h) in *.
  destruct (pp_run_step_returns (pure_pursuit self) vehicle path Hne)
    as (pc & Ep).
  destruct (stanley_run_step_returns (stanley self) vehicle path Hne)
    as (sc & Es).
  destruct (compute_blend_weight_returns self curvature
              (Some (get_speed vehicle))) as (w & Ew); [congruence |].
  exists w, pc, sc, (blended_control pc sc w).
  rewrite Hmode, Hm, Ep, Es, Ew. cbn [String.eqb Ascii.eqb Bool.eqb].
  pose proof (compute_blend_weight_range _ _ _ _ Ew) as Hw.
  destruct (pp_run_step_invariant _ _ _ _ Ep) as (Hp & _).
  destruct (stanley_run_step_invariant _ _ _ _ Es) as (Hs & _).
  assert (Hsteer : steer (blended_control pc sc w)
                   = (1 - w) * steer pc + w * steer sc).
  { unfold blended_control. cbn [steer].
    replace (-1.0) with (-1) by lra. replace 1.0 with 1 by lra.
    apply clip_id. nra. }
  repeat (split; [reflexivity || assumption |]).
  rewrite Hsteer.
  split; [now apply convex_between |]. split; reflexivity.
Qed.

Lemma blending_mode_command_witness :
  mode blending_hybrid = "blending"%string /\
  [waypoint_at 0 0 0] <> [] /\
  blend_zone blending_hybrid <> 0 /\
  exists (w : R) (pc sc c : VehicleControl) (h' : t),
    run_step parked_vehicle [waypoint_at 0 0 0] blending_hybrid = (Ok c, h') /\
    0 <= w <= 1 /\
    steer c = (1 - w) * steer pc + w * steer sc /\
    throttle c = throttle pc /\ brake c = brake pc.
Proof.
  assert (Hz : blend_zone blending_hybrid <> 0)
    by (unfold blending_hybrid, default_hybrid, init;
        cbn [blend_zone set_mode]; lra).
  split; [reflexivity |]. split; [discriminate |]. split; [exact Hz |].
  destruct (blending_mode_command parked_vehicle [waypoint_at 0 0 0]
              blending_hybrid eq_refl ltac:(discriminate) Hz)
    as (curvature & w & pc & sc & c & _ & _ & _ & _ & E & Hw & Hs & _ & Ht).
  exists w, pc, sc, c. eexists. split; [exact E |]. auto.
Defined.

(** X16: in blending mode, on a non-empty path whose curvature is below
    [threshold - blend_zone], [run_step] returns exactly the Pure Pursuit
    tracker's command, records weight 0 and the label
    'Pure Pursuit (blended)'. *)
Theorem blending_below_band_is_pure_pursuit (vehicle : Vehicle)
    (path : list Waypoint) (h : t) :
  mode h = "blending"%string -> path <> [] ->
  exists curvature : R,
    estimate_path_curvature (location (get_transform vehicle)) path 10
    = Ok curvature /\
    let self := after_scheduling curvature (get_speed vehicle) h in
    (curvature < curvature_threshold h - blend_zone h ->
     fst (run_step vehicle path h)
     = PurePursuitController.run_step (pure_pursuit self) vehicle path /\
     blend_weight (snd (run_step vehicle path h)) = 0 /\
     active_controller (snd (run_step vehicle path h))
     = "Pure Pursuit (blended)"%string).
Proof.
  intros Hm Hne. eexists. split; [apply estimate_path_curvature_eq |].
  cbv zeta. intros Hlow.
  rewrite run_step_eq, estimate_path_curvature_eq. cbv zeta.
  set (curvature := curvature_from _ _ _) in *.
  destruct (after_scheduling_config curvature (get_speed vehicle) h)
    as (Hmode & Hthr & Hzone & _).
  set (self := after_scheduling _ _ h) in *.
  destruct (pp_run_step_returns (pure_pursuit self) vehicle path Hne)
    as (pc & Ep).
  destruct (stanley_run_step_returns (stanley self) vehicle path Hne)
    as (sc & Es).
  assert (Ew : compute_blend_weight self curvature (Some (get_speed vehicle))
               = Ok 0).
  { unfold compute_blend_weight. rewrite Hthr, Hzone.
    destruct (Rlt_dec _ _); [| contradiction]. cbn [bind result_Monad].
    destruct (speed_adaptive self); f_equal; lra. }
  rewrite Hmode, Hm, Ep, Es, Ew. cbn [String.eqb Ascii.eqb Bool.eqb fst snd].
  cbn [blend_weight active_controller set_active_controller set_blend_weight].
  split; [| split; [reflexivity |]].
  - f_equal.
    destruct (pp_run_step_invariant _ _ _ _ Ep) as (Hp & _).
    destruct (pp_run_step_shape _ _ _ _ Ep) as (Hhb & Hmg & _).
    destruct pc as [th s br hb mg]. cbn in Hp, Hhb, Hmg. subst hb mg.
    unfold blended_control. cbn [throttle steer brake]. f_equal.
    replace (-1.0) with (-1) by lra. replace 1.0 with 1 by lra.
    rewrite clip_id by lra. ring.
  - unfold blended_label. destruct (Rlt_dec 0 0.3); [reflexivity | lra].
Qed.

Lemma blending_below_band_is_pure_pursuit_witness :
  mode blending_hybrid = "blending"%string /\
  [waypoint_at 0 0 0] <> [] /\
  0 < curvature_threshold blending_hybrid - blend_zone blending_hybrid /\
  blend_weight (snd (run_step parked_vehicle [waypoint_at 0 0 0]
                       blending_hybrid)) = 0 /\
  active_controller (snd (run_step parked_vehicle [waypoint_at 0 0 0]
                            blending_hybrid))
  = "Pure Pursuit (blended)"%string.
Proof.
  assert (Hlow : 0 < curvature_threshold blending_hybrid
                     - blend_zone blending_hybrid)
    by (unfold blending_hybrid, default_hybrid, init;
        cbn [curvature_threshold blend_zone set_mode]; lra).
  split; [reflexivity |]. split; [discriminate |]. split; [exact Hlow |].
  destruct (blending_below_band_is_pure_pursuit parked_vehicle
              [waypoint_at 0 0 0] blending_hybrid eq_refl
              ltac:(discriminate)) as (curvature & E & Hbelow).
  rewrite single_waypoint_curvature in E. injection E as <-.
  exact (proj2 (Hbelow Hlow)).
Defined.

Lemma blending_mode_command_aux (vehicle : Vehicle) (path : list Waypoint)
    (h : t) :
  mode h = "blending"%string -> path <> [] -> blend_zone h <> 0 ->
  exists (curvature w : R),
    snd (run_step vehicle path h)
    = set_active_controller (blended_label w)
        (set_blend_weight w
           (after_scheduling curvature (get_speed vehicle) h)) /\
    compute_blend_weight (after_scheduling curvature (get_speed vehicle) h)
      curvature (Some (get_speed vehicle)) = Ok w.
Proof.
  intros Hm Hne Hz.
  exists (curvature_from path
            (closest_index (location (get_transform vehicle)) path) 10).
  rewrite run_step_eq, estimate_path_curvature_eq. cbv zeta.
  set (curvature := curvature_from _ _ _).
  destruct (after_scheduling_config curvature (get_speed vehicle) h)
    as (Hmode & _ & Hzone & _).
  set (self := after_scheduling _ _ h) in *.
  destruct (pp_run_step_returns (pure_pursuit self) vehicle path Hne)
    as (pc & Ep).
  destruct (stanley_run_step_returns (stanley self) vehicle path Hne)
    as (sc & Es).
  destruct (compute_blend_weight_returns self curvature
              (Some (get_speed vehicle))) as (w & Ew); [congruence |].
  exists w.
  rewrite Hmode, Hm, Ep, Es, Ew. cbn [String.eqb Ascii.eqb Bool.eqb].
  split; reflexivity.
Qed.

(** X17: in blending mode with [speed_adaptive] set and [blend_zone > 0], at
    15 m/s or more on a non-empty path the recorded weight is at most 0.7,
    so the label 'Stanley (blended)' (which needs a weight above 0.7) is
    never recorded. *)
Theorem blending_label_at_high_speed (vehicle : Vehicle)
    (path : list Waypoint) (h : t) :
  mode h = "blending"%string -> path <> [] -> 0 < blend_zone h ->
  speed_adaptive h = true -> 15 <= get_speed vehicle ->
  blend_weight (snd (run_step vehicle path h)) <= 0.7 /\
  active_controller (snd (run_step vehicle path h))
  <> "Stanley (blended)"%string.
Proof.
  intros Hm Hne Hz Ha Hfast.
  destruct (blending_mode_command_aux vehicle path h Hm Hne)
    as (curvature & w & E & Ew); [lra |].
  rewrite E. cbn [snd blend_weight active_controller set_active_controller
                  set_blend_weight].
  assert (Hw : w <= 0.7).
  { destruct (after_scheduling_config curvature (get_speed vehicle) h)
      as (_ & _ & Hzone & Hsa).
    rewrite compute_blend_weight_eq in Ew by (rewrite Hzone; exact Hz).
    cbv zeta in Ew. rewrite Hsa, Ha in Ew. injection Ew as <-.
    assert (Hc : Np.clip (get_speed vehicle / 15) 0 1 = 1).
    { unfold Np.clip, Rmin, Rmax.
      destruct (Rle_dec (get_speed vehicle / 15) 0);
        destruct (Rle_dec _ 1); lra. }
    rewrite Hc.
    pose proof (compute_blend_weight_range _ _ None _
                  (compute_blend_weight_refines
                     (after_scheduling curvature (get_speed vehicle) h)
                     curvature ltac:(rewrite Hzone; exact Hz))).
    lra. }
  split; [exact Hw |].
  unfold blended_label. destruct (Rlt_dec w 0.3); [discriminate |].
  destruct (Rgt_dec w 0.7); [lra | discriminate].
Qed.

Lemma blending_label_at_high_speed_witness :
  mode blending_hybrid = "blending"%string /\
  [waypoint_at 0 0 0] <> [] /\
  0 < blend_zone blending_hybrid /\
  speed_adaptive blending_hybrid = true /\
  15 <= get_speed fast_vehicle /\
  blend_weight (snd (run_step fast_vehicle [waypoint_at 0 0 0]
                       blending_hybrid)) <= 0.7.
Proof.
  assert (Hz : 0 < blend_zone blending_hybrid)
    by (unfold blending_hybrid, default_hybrid, init;
        cbn [blend_zone set_mode]; lra).
  assert (Hs : 15 <= get_speed fast_vehicle) by (rewrite fast_speed; lra).
  split; [reflexivity |]. split; [discriminate |]. split; [exact Hz |].
  split; [reflexivity |]. split; [exact Hs |].
  exact (proj1 (blending_label_at_high_speed fast_vehicle [waypoint_at 0 0 0]
                  blending_hybrid eq_refl ltac:(discriminate) Hz eq_refl Hs)).
Defined.

(** X20: with [speed_adaptive] set, the lookahead distance and the Stanley
    gain the controller was configured with have no effect: replacing them
    by any other values gives the same result and the same state after
    [run_step]. *)
Theorem configured_gains_unused_when_scheduling (vehicle : Vehicle)
    (path : list Waypoint) (h : t) (lookahead gain : R) :
  speed_adaptive h = true ->
  run_step vehicle path
    (set_pp_lookahead_distance lookahead (set_stanley_k gain h))
  = run_step vehicle path h.
Proof.
  intros Ha. rewrite !run_step_eq, !estimate_path_curvature_eq. cbv zeta.
  assert (E : forall c s,
             after_scheduling c s
               (set_pp_lookahead_distance lookahead (set_stanley_k gain h))
             = after_scheduling c s h).
  { intros c s. unfold after_scheduling.
    cbn [speed_adaptive set_current_curvature set_pp_lookahead_distance
         set_stanley_k].
    rewrite Ha. reflexivity. }
  rewrite E. reflexivity.
Qed.

Lemma configured_gains_unused_when_scheduling_witness :
  speed_adaptive default_hybrid = true /\
  run_step parked_vehicle [waypoint_at 0 0 0]
    (set_pp_lookahead_distance 10 (set_stanley_k 2 default_hybrid))
  = run_step parked_vehicle [waypoint_at 0 0 0] default_hybrid.
Proof.
  split; [reflexivity |].
  apply configured_gains_unused_when_scheduling. reflexivity.
Defined.

Lemma after_scheduling_again (c s : R) (h : t) (a : string) (w : R) :
  after_scheduling c s
    (set_active_controller a (set_blend_weight w (after_scheduling c s h)))
  = set_active_controller a (set_blend_weight w (after_scheduling c s h)).
Proof.
  unfold after_scheduling. cbn [speed_adaptive set_current_curvature].
  destruct h as [[l wb ts] [k wb' ts'] thr zone m sa ac bw cc].
  destruct sa; reflexivity.
Qed.

(** One tick started from a state that differs from the scheduled state
    [self] only in its label and blend weight. *)
Lemma run_step_labelled (vehicle : Vehicle) (path : list Waypoint) (h : t)
    (a : string) (w : R) :
  let c := curvature_from path
             (closest_index (location (get_transform vehicle)) path) 10 in
  let speed := get_speed vehicle in
  let self := after_scheduling c speed h in
  let labelled a w := set_active_controller a (set_blend_weight w self) in
  run_step vehicle path (labelled a w) =
  if (mode self =? "switching")%string then
    if Rgt_dec c (curvature_threshold self)
    then (St.run_step (stanley self) vehicle path, labelled "Stanley"%string w)
    else (PP.run_step (pure_pursuit self) vehicle path,
          labelled "Pure Pursuit"%string w)
  else if (mode self =? "blending")%string then
    match PP.run_step (pure_pursuit self) vehicle path with
    | Raise e => (Raise e, labelled a w)
    | Ok pp_control =>
        match St.run_step (stanley self) vehicle path with
        | Raise e => (Raise e, labelled a w)
        | Ok stanley_control =>
            match compute_blend_weight self c (Some speed) with
            | Raise e => (Raise e, labelled a w)
            | Ok weight =>
                (Ok (blended_control pp_control stanley_control weight),
                 labelled (blended_label weight) weight)
            end
        end
    end
  else if use_stanley self c speed
  then (St.run_step (stanley self) vehicle path, labelled "Stanley"%string 1.0)
  else (PP.run_step (pure_pursuit self) vehicle path,
        labelled "Pure Pursuit"%string 0.0).
Proof.
  cbv zeta. rewrite run_step_eq, estimate_path_curvature_eq. cbv zeta.
  rewrite after_scheduling_again.
  set (c := curvature_from _ _ _). set (self := after_scheduling c _ h).
  cbn [mode pure_pursuit stanley curvature_threshold
       set_active_controller set_blend_weight].
  change (use_stanley (set_active_controller a (set_blend_weight w self)))
    with (use_stanley self).
  change (compute_blend_weight
            (set_active_controller a (set_blend_weight w self)))
    with (compute_blend_weight self).
  destruct (mode self =? "switching")%string;
    [destruct (Rgt_dec _ _); reflexivity |].
  destruct (mode self =? "blending")%string.
  { destruct (PP.run_step _ _ _); [| reflexivity].
    destruct (St.run_step _ _ _); [| reflexivity].
    destruct (compute_blend_weight _ _ _); reflexivity. }
  destruct (use_stanley _ _ _); reflexivity.
Qed.

Lemma labelled_same (h : t) :
  set_active_controller (active_controller h)
    (set_blend_weight (blend_weight h) h) = h.
Proof. now destruct h. Qed.

(** X21: [run_step] keeps no memory between ticks: run again on the same
    vehicle state and path from the state it left, it gives the same result
    and leaves that state unchanged. *)
Theorem run_step_memoryless (vehicle : Vehicle) (path : list Waypoint)
    (h : t) :
  run_step vehicle path (snd (run_step vehicle path h))
  = run_step vehicle path h.
Proof.
  pose proof (run_step_labelled vehicle path h) as Hl. cbv zeta in Hl.
  rewrite (run_step_eq vehicle path h), estimate_path_curvature_eq. cbv zeta.
  set (c := curvature_from _ _ _) in *.
  set (self := after_scheduling c _ h) in *.
  assert (Hs : forall a, set_active_controller a self
                         = set_active_controller a
                             (set_blend_weight (blend_weight self) self))
    by (intros a; now destruct self).
  destruct (mode self =? "switching")%string.
  { destruct (Rgt_dec c (curvature_threshold self));
      cbn [snd]; rewrite Hs, Hl; reflexivity. }
  destruct (mode self =? "blending")%string.
  { destruct (PP.run_step _ _ _) as [pc | e].
    2:{ cbn [snd]. rewrite <- (labelled_same self) at 1.
        rewrite Hl. now rewrite labelled_same. }
    destruct (St.run_step _ _ _) as [sc | e].
    2:{ cbn [snd]. rewrite <- (labelled_same self) at 1.
        rewrite Hl. now rewrite labelled_same. }
    destruct (compute_blend_weight _ _ _) as [w | e].
    2:{ cbn [snd]. rewrite <- (labelled_same self) at 1.
        rewrite Hl. now rewrite labelled_same. }
    cbn [snd]. rewrite Hl. reflexivity. }
  destruct (use_stanley self c (get_speed vehicle)); cbn [snd].
  - change (set_blend_weight 1.0 (set_active_controller "Stanley" self))
      with (set_active_controller "Stanley" (set_blend_weight 1.0 self)).
    rewrite Hl. reflexivity.
  - change (set_blend_weight 0.0 (set_active_controller "Pure Pursuit" self))
      with (set_active_controller "Pure Pursuit" (set_blend_weight 0.0 self)).
    rewrite Hl. reflexivity.
Qed.

(** ** The metric helpers of the experiment runner *)



Import NpStats ExperimentRunnerWithCamera.

Lemma lateral_loop_closest (pos : Location) (l : list Waypoint) :
  forall (i : Z) (m : Py.efloat) (w : option Waypoint) (c : Z),
    lateral_loop pos l m
    = fst (fst (closest_loop pos (Py.enumerate_from i l) m w c)).
Proof.
  induction l as [| a l IH]; intros i m w c; [reflexivity |].
  cbn [lateral_loop Py.enumerate_from closest_loop].
  destruct (Py.lt _ m); apply IH.
Qed.

Lemma heading_loop_closest (pos : Location) (l : list Waypoint) :
  forall (i : Z) (m : Py.efloat) (w : Waypoint) (c : Z),
    exists c',
      closest_loop pos (Py.enumerate_from i l) m (Some w) c
      = (fst (heading_loop pos l m w), Some (snd (heading_loop pos l m w)), c').
Proof.
  induction l as [| a l IH]; intros i m w c; [now exists c |].
  cbn [heading_loop Py.enumerate_from closest_loop].
  destruct (Py.lt _ m); apply IH.
Qed.

Lemma lateral_error_nearest (pos : Location) (path : list Waypoint) :
  _calculate_lateral_error pos [] = Py.Fin 0 /\
  (path <> [] ->
   exists (w : Waypoint) (n : nat),
     (n < 10)%nat /\ nth_error path n = Some w /\
     _calculate_lateral_error pos path
     = Py.Fin (distance pos (location (transform w))) /\
     0 <= distance pos (location (transform w)) /\
     (forall j wj, (j < 10)%nat -> nth_error path j = Some wj ->
        distance pos (location (transform w))
        <= distance pos (location (transform wj)))).
Proof.
  split; [unfold _calculate_lateral_error; f_equal; lra |].
  intros Hne.
  assert (Hten : firstn 10 path <> [])
    by (destruct path; [congruence | discriminate]).
  destruct (closest_index_nearest pos (firstn 10 path) Hten)
    as (n & w & Hidx & Hn & Hmin & _).
  destruct (closest_loop_nonempty pos (firstn 10 path) Hten)
    as (w' & n' & Hn' & E).
  assert (n' = n).
  { unfold closest_index in Hidx. rewrite E in Hidx. cbn [snd] in Hidx. lia. }
  subst n'. assert (w' = w) by congruence. subst w'.
  assert (Hlt : (n < 10)%nat).
  { assert (n < List.length (firstn 10 path))%nat
      by (apply nth_error_Some; rewrite Hn; discriminate).
    rewrite length_firstn in *. lia. }
  exists w, n. split; [exact Hlt |].
  split; [rewrite nth_error_firstn in Hn;
          destruct (Nat.ltb_spec n 10); [exact Hn | lia] |].
  split.
  - unfold _calculate_lateral_error.
    destruct path as [| w0 rest]; [congruence |].
    rewrite (lateral_loop_closest pos _ 0%Z Py.Inf None 0%Z).
    unfold Py.enumerate in E. rewrite E. reflexivity.
  - split; [apply distance_nonneg |].
    intros j wj Hj Hwj. apply (Hmin j).
    rewrite nth_error_firstn. destruct (Nat.ltb_spec j 10); [exact Hwj | lia].
Qed.

(** X22: [_calculate_lateral_error] returns 0 for an empty list; otherwise
    it returns the distance to the waypoint nearest to the vehicle among the
    first 10, which is non-negative. *)
Theorem lateral_error_is_nearest_of_first_ten (pos : Location)
    (path : list Waypoint) :
  _calculate_lateral_error pos [] = Py.Fin 0 /\
  (path <> [] ->
   exists (w : Waypoint) (n : nat),
     (n < 10)%nat /\ nth_error path n = Some w /\
     _calculate_lateral_error pos path
     = Py.Fin (distance pos (location (transform w))) /\
     0 <= distance pos (location (transform w)) /\
     (forall j wj, (j < 10)%nat -> nth_error path j = Some wj ->
        distance pos (location (transform w))
        <= distance pos (location (transform wj)))).
Proof. exact (lateral_error_nearest pos path). Qed.

Lemma lateral_error_is_nearest_of_first_ten_witness :
  straight_path <> [] /\
  exists (w : Waypoint) (n : nat),
    (n < 10)%nat /\ nth_error straight_path n = Some w /\
    _calculate_lateral_error origin straight_path
    = Py.Fin (distance origin (location (transform w))).
Proof.
  split; [discriminate |].
  destruct (proj2 (lateral_error_is_nearest_of_first_ten origin straight_path))
    as (w & n & Hn & Hw & E & _); [discriminate |].
  exists w, n. auto.
Defined.

(** X23: on a non-empty path the lateral error logged by the runner is at
    least the closest-waypoint distance the Stanley tracker computes over
    the whole path, and equal to it when the path has at most 10
    waypoints. *)
Theorem lateral_error_bounds_tracker_distance (self : StanleyController.t)
    (pos : Location) (path : list Waypoint) :
  path <> [] ->
  exists (w : option Waypoint) (n : Z) (d dmin : R),
    _calculate_lateral_error pos path = Py.Fin d /\
    StanleyController.find_closest_waypoint self pos path
    = Ok (w, n, Py.Fin dmin) /\
    dmin <= d /\
    ((List.length path <= 10)%nat -> d = dmin).
Proof.
  intros Hne.
  destruct (proj2 (lateral_error_nearest pos path) Hne)
    as (w & n & _ & Hn & E & _).
  destruct (closest_index_nearest pos path Hne)
    as (k & wk & Hidx & Hk & Hmin & _).
  destruct (stanley_closest self pos path Hne) as (w' & k' & Hk' & Hidx' & E').
  assert (k' = k) by lia. subst k'. assert (w' = wk) by congruence. subst w'.
  exists (Some wk), (Z.of_nat k), (distance pos (location (transform w))),
    (distance pos (location (transform wk))).
  split; [exact E |]. split; [exact E' |]. split; [now apply (Hmin n) |].
  intros Hlen.
  assert (Hall : firstn 10 path = path) by (apply firstn_all2; lia).
  unfold _calculate_lateral_error in E.
  destruct path as [| w0 rest]; [congruence |].
  rewrite Hall in E.
  rewrite (lateral_loop_closest pos _ 0%Z Py.Inf None 0%Z) in E.
  unfold StanleyController.find_closest_waypoint, Py.enumerate in E'.
  destruct (closest_loop pos (Py.enumerate_from 0 (w0 :: rest)) Py.Inf None 0)
    as [[m cw] c]. cbn [fst] in E.
  injection E' as _ _ Em. rewrite Em in E. now injection E.
Qed.

Lemma lateral_error_bounds_tracker_distance_witness :
  straight_path <> [] /\
  (List.length straight_path <= 10)%nat /\
  exists (w : option Waypoint) (n : Z) (d : R),
    _calculate_lateral_error origin straight_path = Py.Fin d /\
    StanleyController.find_closest_waypoint (StanleyController.init 1.0 2.875)
      origin straight_path = Ok (w, n, Py.Fin d).
Proof.
  assert (Hlen : (List.length straight_path <= 10)%nat) by (cbn; lia).
  split; [discriminate |]. split; [exact Hlen |].
  destruct (lateral_error_bounds_tracker_distance
              (StanleyController.init 1.0 2.875) origin straight_path)
    as (w & n & d & dmin & El & Ec & _ & Heq); [discriminate |].
  exists w, n, d. split; [exact El |]. rewrite (Heq Hlen). exact Ec.
Defined.

(** X24: [_calculate_heading_error] returns 0 for an empty list and never
    raises; otherwise it returns, wrapped into (-pi, pi], the difference
    between the stored yaw of the waypoint nearest among the first 10 and
    the vehicle yaw. *)
Theorem heading_error_of_first_ten (tf : Transform) (path : list Waypoint) :
  _calculate_heading_error tf [] = Ok 0 /\
  (path <> [] ->
   exists (w : Waypoint) (n : nat),
     (n < 10)%nat /\ nth_error path n = Some w /\
     (forall j wj, (j < 10)%nat -> nth_error path j = Some wj ->
        distance (location tf) (location (transform w))
        <= distance (location tf) (location (transform wj))) /\
     _calculate_heading_error tf path
     = Ok (wrap (Np.radians (yaw (rotation (transform w)))
                 - Np.radians (yaw (rotation tf)))) /\
     - PI < wrap (Np.radians (yaw (rotation (transform w)))
                  - Np.radians (yaw (rotation tf))) <= PI).
Proof.
  split; [unfold _calculate_heading_error; f_equal; lra |].
  intros Hne.
  assert (Hten : firstn 10 path <> [])
    by (destruct path; [congruence | discriminate]).
  destruct (closest_index_nearest (location tf) (firstn 10 path) Hten)
    as (n & w & Hidx & Hn & Hmin & _).
  destruct (closest_loop_nonempty (location tf) (firstn 10 path) Hten)
    as (w' & n' & Hn' & E).
  assert (n' = n).
  { unfold closest_index in Hidx. rewrite E in Hidx. cbn [snd] in Hidx. lia. }
  subst n'. assert (w' = w) by congruence. subst w'.
  assert (Hlt : (n < 10)%nat).
  { assert (n < List.length (firstn 10 path))%nat
      by (apply nth_error_Some; rewrite Hn; discriminate).
    rewrite length_firstn in *. lia. }
  exists w, n. split; [exact Hlt |].
  split; [rewrite nth_error_firstn in Hn;
          destruct (Nat.ltb_spec n 10); [exact Hn | lia] |].
  split.
  { intros j wj Hj Hwj. apply (Hmin j).
    rewrite nth_error_firstn. destruct (Nat.ltb_spec j 10); [exact Hwj | lia]. }
  split; [| apply wrap_range].
  unfold _calculate_heading_error.
  destruct path as [| w0 rest]; [congruence |].
  rewrite (getitem_nth_error (w0 :: rest) 0 w0) by (reflexivity || lia).
  cbn [bind result_Monad].
  change (firstn 10 (w0 :: rest)) with (w0 :: firstn 9 rest) in *.
  unfold Py.enumerate in E. cbn [Py.enumerate_from closest_loop Py.lt] in E.
  cbn [heading_loop Py.lt].
  destruct (heading_loop_closest (location tf) (firstn 9 rest) (0 + 1)%Z
              (Py.Fin (distance (location tf) (location (transform w0))))
              w0 0%Z) as (c' & E2).
  rewrite E2 in E. injection E as _ Ew _.
  destruct (heading_loop _ _ _ _) as [m cw]. cbn [snd] in Ew. subst cw.
  reflexivity.
Qed.

Lemma heading_error_of_first_ten_witness :
  straight_path <> [] /\
  exists (w : Waypoint) (n : nat),
    (n < 10)%nat /\ nth_error straight_path n = Some w /\
    _calculate_heading_error (get_transform parked_vehicle) straight_path
    = Ok (wrap (Np.radians (yaw (rotation (transform w)))
                - Np.radians (yaw (rotation (get_transform parked_vehicle))))).
Proof.
  split; [discriminate |].
  destruct (proj2 (heading_error_of_first_ten (get_transform parked_vehicle)
                     straight_path))
    as (w & n & Hn & Hw & _ & E & _); [discriminate |].
  exists w, n. auto.
Defined.

Lemma fold_max_bounds (l : list R) :
  forall a : R,
    a <= fold_left Rmax l a /\
    (forall v, In v l -> v <= fold_left Rmax l a) /\
    In (fold_left Rmax l a) (a :: l).
Proof.
  induction l as [| b l IH]; intros a; cbn [fold_left].
  - split; [lra |]. split; [intros v [] | now left].
  - destruct (IH (Rmax a b)) as (H1 & H2 & H3).
    pose proof (Rmax_l a b). pose proof (Rmax_r a b).
    split; [lra |]. split.
    + intros v [<- | Hv]; [lra | now apply H2].
    + destruct H3 as [H3 | H3]; [| right; now right].
      rewrite <- H3. unfold Rmax. destruct (Rle_dec a b); [right |]; now left.
Qed.

Lemma total_le_max (l : list R) (M : R) :
  (forall v, In v l -> v <= M) -> total l <= INR (List.length l) * M.
Proof.
  induction l as [| a l IH]; intros H.
  - cbn. lra.
  - change (total (a :: l)) with (a + total l).
    change (List.length (a :: l)) with (S (List.length l)). rewrite S_INR.
    specialize (IH (fun v Hv => H v (or_intror Hv))).
    specialize (H a (or_introl eq_refl)). lra.
Qed.

Lemma total_abs_nonneg (l : list R) : 0 <= total (map Rabs l).
Proof.
  induction l as [| a l IH]; cbn [map total]; [lra |].
  pose proof (Rabs_pos a). lra.
Qed.

Lemma mean_le_max (l : list R) (M : R) :
  l <> [] -> (forall v, In v l -> v <= M) ->
  exists mu, mean l = Num mu /\ mu <= M /\
             mu = total l / INR (List.length l).
Proof.
  intros Hne Hall. destruct l as [| a l]; [congruence |].
  unfold mean. rewrite sum_total. eexists. split; [reflexivity |].
  split; [| reflexivity].
  assert (Hn : 0 < INR (List.length (a :: l))) by (apply lt_0_INR; cbn; lia).
  apply Rmult_le_reg_r with (INR (List.length (a :: l))); [exact Hn |].
  unfold Rdiv. rewrite Rmult_assoc, Rinv_l by lra.
  pose proof (total_le_max (a :: l) M Hall). lra.
Qed.

Lemma std_nonneg (l : list R) :
  l <> [] -> exists sd, std l = Num sd /\ 0 <= sd.
Proof.
  intros Hne. destruct l as [| a l]; [congruence |].
  unfold std. eexists. split; [reflexivity | apply sqrt_pos].
Qed.

Lemma max_returned (l : list R) (M : R) :
  max l = Returned M ->
  l <> [] /\ In M l /\ (forall v, In v l -> v <= M).
Proof.
  destruct l as [| a l]; [discriminate |].
  unfold max. intros E. injection E as <-.
  destruct (fold_max_bounds l a) as (H1 & H2 & H3).
  split; [discriminate |]. split; [exact H3 |].
  intros v [<- | Hv]; [exact H1 | now apply H2].
Qed.

Lemma max_empty (l : list R) : max l = ValueError <-> l = [].
Proof. destruct l; split; intros H; (reflexivity || discriminate H). Qed.

(** X25: [_calculate_statistics] raises [ValueError] exactly when no lateral
    error or no heading error was recorded; a mean or standard deviation of
    an empty list alone does not raise. *)
Theorem statistics_need_a_data_point (metrics : Metrics) (name : string) :
  _calculate_statistics metrics name = ValueError <->
  lateral_errors metrics = [] \/ heading_errors metrics = [].
Proof.
  unfold _calculate_statistics.
  destruct (max (lateral_errors metrics)) as [M |] eqn:E1.
  - destruct (max (map Rabs (heading_errors metrics))) as [H |] eqn:E2;
      cbn [bind outcome_Monad].
    + split; [discriminate |].
      destruct (max_returned _ _ E1) as (Hl & _).
      destruct (max_returned _ _ E2) as (Hh & _).
      intros [Hnil | Hnil]; exfalso; [now apply Hl |].
      rewrite Hnil in Hh. now apply Hh.
    + split; [| reflexivity]. intros _. right.
      apply max_empty in E2. now destruct (heading_errors metrics).
  - cbn [bind outcome_Monad]. split; [| reflexivity].
    intros _. left. now apply max_empty.
Qed.

Lemma statistics_need_a_data_point_witness :
  lateral_errors no_metrics = [] /\
  _calculate_statistics no_metrics "run" = ValueError.
Proof.
  split; [reflexivity |].
  apply (statistics_need_a_data_point no_metrics "run").
  left. reflexivity.
Defined.

(** X26: the statistics [_calculate_statistics] returns count the recorded
    lateral errors; the maximum lateral error is one of them and bounds them
    all and their mean; the standard deviation is a number and not
    negative; the mean absolute heading error is between 0 and the maximum;
    the steering smoothness is a non-negative number, 0 when fewer than two
    steering angles were recorded. *)
Theorem statistics_of_recorded_data (metrics : Metrics) (name : string)
    (s : Statistics) :
  _calculate_statistics metrics name = Returned s ->
  experiment_name s = name /\
  data_points s = Py.len (lateral_errors metrics) /\
  In (max_lateral_error s) (lateral_errors metrics) /\
  (forall e, In e (lateral_errors metrics) -> e <= max_lateral_error s) /\
  (exists mu, mean_lateral_error s = Num mu /\ mu <= max_lateral_error s) /\
  (exists sd, std_lateral_error s = Num sd /\ 0 <= sd) /\
  (forall e, In e (heading_errors metrics) -> Rabs e <= max_heading_error s) /\
  (exists mu, mean_heading_error s = Num mu /\
              0 <= mu <= max_heading_error s) /\
  (exists sm, steering_smoothness s = Num sm /\ 0 <= sm /\
              ((List.length (steering_angles metrics) < 2)%nat -> sm = 0)).
Proof.
  unfold _calculate_statistics.
  destruct (max (lateral_errors metrics)) as [M |] eqn:E1; [| discriminate].
  destruct (max (map Rabs (heading_errors metrics))) as [H |] eqn:E2;
    [| discriminate].
  cbn [bind outcome_Monad]. intros E. injection E as <-.
  cbn [experiment_name data_points max_lateral_error mean_lateral_error
       std_lateral_error max_heading_error mean_heading_error
       steering_smoothness].
  destruct (max_returned _ _ E1) as (Hlne & Hlin & Hlall).
  destruct (max_returned _ _ E2) as (Hhne & Hhin & Hhall).
  split; [reflexivity |]. split; [reflexivity |]. split; [exact Hlin |].
  split; [exact Hlall |].
  split.
  { destruct (mean_le_max _ _ Hlne Hlall) as (mu & Hm & Hle & _). eauto. }
  split; [now apply std_nonneg |].
  split; [intros e He; now apply Hhall, in_map |].
  split.
  { destruct (mean_le_max _ _ Hhne Hhall) as (mu & Hm & Hle & Hmu).
    exists mu. split; [exact Hm |]. split; [| exact Hle].
    rewrite Hmu. apply Rmult_le_pos; [apply total_abs_nonneg |].
    left. apply Rinv_0_lt_compat, lt_0_INR.
    destruct (map Rabs (heading_errors metrics)); [congruence | cbn; lia]. }
  destruct (Z.gtb_spec (Py.len (Np.diff (steering_angles metrics))) 0)
    as [Hpos | Hzero].
  - destruct (std_nonneg (Np.diff (steering_angles metrics)))
      as (sd & Hsd & Hnn).
    { intros Hnil. rewrite Hnil in Hpos. cbn in Hpos. lia. }
    exists sd. split; [exact Hsd |]. split; [exact Hnn |].
    intros Hshort. exfalso.
    destruct (steering_angles metrics) as [| a [| b rest]];
      cbn in Hpos, Hshort; lia.
  - exists 0. split; [f_equal; lra |]. split; [lra | reflexivity].
Qed.

Lemma statistics_of_recorded_data_witness :
  exists s : Statistics,
    _calculate_statistics one_tick_metrics "run" = Returned s /\
    data_points s = 1%Z /\
    max_lateral_error s = 0.5 /\
    steering_smoothness s = Num 0.
Proof.
  eexists. split; [reflexivity |].
  pose proof (statistics_of_recorded_data one_tick_metrics "run" _ eq_refl)
    as (_ & Hn & _ & _ & _ & _ & _ & _ & (sm & Hsm & _ & Hshort)).
  split; [exact Hn |]. split; [reflexivity |].
  rewrite Hsm. f_equal. apply Hshort. cbn. lia.
Defined.
